(** * Congestion-control strategies of CS-Outerview: BIC, CUBIC and the
      Vegas decision rule

    A shallow embedding of the C++ listings in
      - 计算机网络/拥塞控制/BIC/bic.md     (class [BIC])
      - 计算机网络/拥塞控制/CUBIC/cubic.md (class [Cubic])
      - the Vegas note (functions [Vegas::CalculateDiff], [VegasUpdate])
    and of [main] of 项目/minio-app/minio_stream.cpp (module [MinioStream]).

    Conventions.
      - [uint32_t] values are integers of [Z] in the range [0, 2^32); every
        arithmetic operation of the source is followed by its wrap-around
        ([wrap32]).  [int32_t] values are integers in [-2^31, 2^31).
      - [double] values are IEEE-754 binary64 numbers, modelled by the
        standard library's [spec_float] with [prec = 53], [emax = 1024].
      - a [std::unique_ptr<SocketState>&] that may be null is an
        [option SocketState].
      - [std::chrono::steady_clock::now()] is an explicit argument [now]
        (clock ticks, nanoseconds).
      - an integer division by zero (a trap in the source) makes the
        function return [None]. *)

From Stdlib Require Import ZArith Bool List Lia.
From Stdlib Require Import SpecFloat.
From Stdlib Require String.
Import ListNotations.

Local Open Scope Z_scope.

(** ** Machine integers *)

Module Word.

Definition modulus32 : Z := 2 ^ 32.

(** Reduction of a mathematical integer to [uint32_t]. *)
Definition wrap32 (z : Z) : Z := z mod modulus32.

(** Conversion [uint32_t -> int32_t] (two's complement). *)
Definition to_int32 (z : Z) : Z :=
  let w := wrap32 z in
  if w <? 2 ^ 31 then w else w - modulus32.

Definition add32 (a b : Z) : Z := wrap32 (a + b).
Definition sub32 (a b : Z) : Z := wrap32 (a - b).
Definition mul32 (a b : Z) : Z := wrap32 (a * b).

(** [a / b] on unsigned operands; [None] is the division trap. *)
Definition div32 (a b : Z) : option Z :=
  if b =? 0 then None else Some (a / b).

End Word.
Import Word.

(** ** Binary64 arithmetic *)

Module Double.

Definition prec : Z := 53.
Definition emax : Z := 1024.

Definition double : Type := spec_float.

Definition mul : double -> double -> double := SFmul prec emax.
Definition div : double -> double -> double := SFdiv prec emax.
Definition add : double -> double -> double := SFadd prec emax.
Definition sub : double -> double -> double := SFsub prec emax.
Definition ltb : double -> double -> bool := SFltb.
Definition eqb : double -> double -> bool := SFeqb.

(** Conversion of an integer to [double] (round to nearest even; exact
    below [2^53]). *)
Definition of_Z (z : Z) : double := binary_normalize prec emax z 0 false.

(** Truncation toward zero of a finite value. *)
Definition trunc (x : double) : option Z :=
  match x with
  | S754_zero _ => Some 0
  | S754_finite s m e =>
      let a := if 0 <=? e then Zpos m * 2 ^ e else Zpos m / 2 ^ (- e) in
      Some (if s then - a else a)
  | _ => None
  end.

(** [static_cast<uint32_t>(x)].  For [0 <= trunc x < 2^32] this is the
    conversion of the C++ standard.  Outside of that range the standard
    leaves the result undefined; the model follows the usual x86-64
    lowering (a 64-bit [cvttsd2si], of which the low 32 bits are kept, and
    whose result for NaN and for values beyond 64 bits has low bits 0). *)
Definition to_uint32 (x : double) : Z :=
  match trunc x with
  | Some z => if (- 2 ^ 63 <? z) && (z <? 2 ^ 63) then wrap32 z else 0
  | None => 0
  end.

Definition is_finite (x : double) : bool :=
  match x with
  | S754_zero _ | S754_finite _ _ _ => true
  | _ => false
  end.

(** The number of low bits that rounding removes from a mantissa [m] at
    exponent [e] (the shift applied by [shr_fexp]). *)
Definition excess (m e : Z) : Z := fexp prec emax (Zdigits2 m + e) - e.

(** Literals of the source: the binary64 number nearest to the decimal. *)
Definition d0 : double := S754_zero false.
Definition d1 : double := Eval vm_compute in of_Z 1.
Definition d2 : double := Eval vm_compute in of_Z 2.
Definition d3 : double := Eval vm_compute in of_Z 3.
Definition d1000 : double := Eval vm_compute in of_Z 1000.
Definition d1460 : double := Eval vm_compute in of_Z 1460.
Definition d1000000 : double := Eval vm_compute in of_Z 1000000.
Definition d0_8 : double := Eval vm_compute in div (of_Z 8) (of_Z 10).
Definition d0_7 : double := Eval vm_compute in div (of_Z 7) (of_Z 10).
Definition d0_4 : double := Eval vm_compute in div (of_Z 4) (of_Z 10).

(** A value that does not compare below zero. *)
Definition not_negative (x : double) : Prop := ltb x d0 = false.

End Double.

(** ** The connection record shared with the transport layer *)

Module TCPState.

(** Modelled from the spec: the enumeration [TCPState] is declared in a
    header that is not part of the listings; the listings name [Recovery],
    [Loss] and [CWR], the specification adds [SlowStart] and
    [CongestionAvoidance] (section 4.2). *)
Inductive t : Type :=
  | SlowStart
  | CongestionAvoidance
  | Recovery
  | Loss
  | CWR.

Definition eqb (a b : t) : bool :=
  match a, b with
  | SlowStart, SlowStart | CongestionAvoidance, CongestionAvoidance
  | Recovery, Recovery | Loss, Loss | CWR, CWR => true
  | _, _ => false
  end.
End TCPState.

Module CongestionEvent.

(** Modelled from the spec: the enumeration [CongestionEvent] is declared in
    the same missing header.  The [switch] statements of the listings name
    [PacketLoss], [Timeout], [ECN] and [FastRecovery]; [OtherEvent] stands for
    every enumerator that falls into their [default] branch. *)
Inductive t : Type :=
  | PacketLoss
  | Timeout
  | ECN
  | FastRecovery
  | OtherEvent.
End CongestionEvent.

(** Modelled from the spec: [struct SocketState] is declared in the missing
    header; these are the members the listings read and write, all taken to
    be [uint32_t] (the listings mix them freely with [uint32_t] members in
    [std::max] and [std::min], which demand equal types). *)
Record SocketState : Type := mkSocket {
  cwnd_ : Z;
  ssthresh_ : Z;
  mss_bytes_ : Z;
  tcp_state_ : TCPState.t;
  congestion_event_ : CongestionEvent.t;
  rtt_us_ : Z;
  rtt_var_ : Z;
  rto_us_ : Z
}.

Definition set_cwnd_ (v : Z) (s : SocketState) : SocketState :=
  mkSocket v (ssthresh_ s) (mss_bytes_ s) (tcp_state_ s)
           (congestion_event_ s) (rtt_us_ s) (rtt_var_ s) (rto_us_ s).
Definition set_ssthresh_ (v : Z) (s : SocketState) : SocketState :=
  mkSocket (cwnd_ s) v (mss_bytes_ s) (tcp_state_ s)
           (congestion_event_ s) (rtt_us_ s) (rtt_var_ s) (rto_us_ s).
Definition set_tcp_state_ (v : TCPState.t) (s : SocketState) : SocketState :=
  mkSocket (cwnd_ s) (ssthresh_ s) (mss_bytes_ s) v
           (congestion_event_ s) (rtt_us_ s) (rtt_var_ s) (rto_us_ s).
Definition set_congestion_event_ (v : CongestionEvent.t) (s : SocketState)
  : SocketState :=
  mkSocket (cwnd_ s) (ssthresh_ s) (mss_bytes_ s) (tcp_state_ s)
           v (rtt_us_ s) (rtt_var_ s) (rto_us_ s).
Definition set_rtt_us_ (v : Z) (s : SocketState) : SocketState :=
  mkSocket (cwnd_ s) (ssthresh_ s) (mss_bytes_ s) (tcp_state_ s)
           (congestion_event_ s) v (rtt_var_ s) (rto_us_ s).
Definition set_rtt_var_ (v : Z) (s : SocketState) : SocketState :=
  mkSocket (cwnd_ s) (ssthresh_ s) (mss_bytes_ s) (tcp_state_ s)
           (congestion_event_ s) (rtt_us_ s) v (rto_us_ s).
Definition set_rto_us_ (v : Z) (s : SocketState) : SocketState :=
  mkSocket (cwnd_ s) (ssthresh_ s) (mss_bytes_ s) (tcp_state_ s)
           (congestion_event_ s) (rtt_us_ s) (rtt_var_ s) v.

(** The RTT bookkeeping common to [BIC::PktsAcked] and [Cubic::PktsAcked];
    [rtt] is the [uint64_t] argument. *)
Definition update_rtt (rtt : Z) (s : SocketState) : SocketState :=
  let s := set_rtt_us_ (wrap32 rtt) s in
  let s :=
    if rtt_var_ s =? 0
    then set_rtt_var_ (wrap32 (rtt / 2)) s
    else set_rtt_var_
           (wrap32 (((wrap32 (3 * rtt_var_ s) + rtt) mod 2 ^ 64) / 4)) s in
  set_rto_us_ (add32 (rtt_us_ s) (mul32 4 (rtt_var_ s))) s.

(** A member update through the (possibly null) socket pointer. *)
Definition on_socket (f : SocketState -> SocketState)
           (socket : option SocketState) : option SocketState :=
  option_map f socket.

(** ** BIC *)

Module BIC.
Import Double.

(** Modelled from the spec: the class declaration ([bic.h]) is not part of
    the listings.  The members are those that the constructor initialises,
    with the types that their uses require: [uint32_t] windows, increments
    and counters, a [double] decrease factor, a [bool] flag and a
    [steady_clock] time point (clock ticks). *)
Record State : Type := mk {
  m_ssthresh : Z;
  m_cwnd : Z;
  m_maxCwnd : Z;
  m_lastMaxCwnd : Z;
  m_lastCwnd : Z;
  m_minWin : Z;
  m_maxIncr : Z;
  m_minIncr : Z;
  m_beta : double;
  m_lowWindow : Z;
  m_smoothPart : Z;
  m_foundNewMax : bool;
  m_ackCount : Z;
  m_epochStart : Z
}.

Definition set_ssthresh (v : Z) (b : State) : State :=
  mk v (m_cwnd b) (m_maxCwnd b) (m_lastMaxCwnd b) (m_lastCwnd b) (m_minWin b)
     (m_maxIncr b) (m_minIncr b) (m_beta b) (m_lowWindow b) (m_smoothPart b)
     (m_foundNewMax b) (m_ackCount b) (m_epochStart b).
Definition set_cwnd (v : Z) (b : State) : State :=
  mk (m_ssthresh b) v (m_maxCwnd b) (m_lastMaxCwnd b) (m_lastCwnd b)
     (m_minWin b) (m_maxIncr b) (m_minIncr b) (m_beta b) (m_lowWindow b)
     (m_smoothPart b) (m_foundNewMax b) (m_ackCount b) (m_epochStart b).
Definition set_lastMaxCwnd (v : Z) (b : State) : State :=
  mk (m_ssthresh b) (m_cwnd b) (m_maxCwnd b) v (m_lastCwnd b) (m_minWin b)
     (m_maxIncr b) (m_minIncr b) (m_beta b) (m_lowWindow b) (m_smoothPart b)
     (m_foundNewMax b) (m_ackCount b) (m_epochStart b).
Definition set_lastCwnd (v : Z) (b : State) : State :=
  mk (m_ssthresh b) (m_cwnd b) (m_maxCwnd b) (m_lastMaxCwnd b) v (m_minWin b)
     (m_maxIncr b) (m_minIncr b) (m_beta b) (m_lowWindow b) (m_smoothPart b)
     (m_foundNewMax b) (m_ackCount b) (m_epochStart b).
Definition set_minWin (v : Z) (b : State) : State :=
  mk (m_ssthresh b) (m_cwnd b) (m_maxCwnd b) (m_lastMaxCwnd b) (m_lastCwnd b)
     v (m_maxIncr b) (m_minIncr b) (m_beta b) (m_lowWindow b)
     (m_smoothPart b) (m_foundNewMax b) (m_ackCount b) (m_epochStart b).
Definition set_smoothPart (v : Z) (b : State) : State :=
  mk (m_ssthresh b) (m_cwnd b) (m_maxCwnd b) (m_lastMaxCwnd b) (m_lastCwnd b)
     (m_minWin b) (m_maxIncr b) (m_minIncr b) (m_beta b) (m_lowWindow b)
     v (m_foundNewMax b) (m_ackCount b) (m_epochStart b).
Definition set_foundNewMax (v : bool) (b : State) : State :=
  mk (m_ssthresh b) (m_cwnd b) (m_maxCwnd b) (m_lastMaxCwnd b) (m_lastCwnd b)
     (m_minWin b) (m_maxIncr b) (m_minIncr b) (m_beta b) (m_lowWindow b)
     (m_smoothPart b) v (m_ackCount b) (m_epochStart b).
Definition set_ackCount (v : Z) (b : State) : State :=
  mk (m_ssthresh b) (m_cwnd b) (m_maxCwnd b) (m_lastMaxCwnd b) (m_lastCwnd b)
     (m_minWin b) (m_maxIncr b) (m_minIncr b) (m_beta b) (m_lowWindow b)
     (m_smoothPart b) (m_foundNewMax b) v (m_epochStart b).
Definition set_epochStart (v : Z) (b : State) : State :=
  mk (m_ssthresh b) (m_cwnd b) (m_maxCwnd b) (m_lastMaxCwnd b) (m_lastCwnd b)
     (m_minWin b) (m_maxIncr b) (m_minIncr b) (m_beta b) (m_lowWindow b)
     (m_smoothPart b) (m_foundNewMax b) (m_ackCount b) v.

(** [BIC::BIC()]. *)
Definition init (now : Z) : State :=
  mk 2147483647 0 65535 0 0 0 32 1 d0_8 14 0 false 0 now.

(** [BIC::GetSsThresh]; the result is the returned value, the object and
    the socket afterwards. *)
Definition GetSsThresh (b : State) (socket : option SocketState)
           (bytesInFlight : Z) : Z * State * option SocketState :=
  match socket with
  | None => (m_ssthresh b, b, None)
  | Some sk =>
      let b := set_lastMaxCwnd (cwnd_ sk) b in
      let b := set_ssthresh (to_uint32 (mul (of_Z (cwnd_ sk)) (m_beta b))) b in
      let b :=
        set_ssthresh (Z.max (m_ssthresh b) (mul32 2 (mss_bytes_ sk))) b in
      let sk := set_ssthresh_ (m_ssthresh b) sk in
      (m_ssthresh b, b, Some sk)
  end.

(** [BIC::SlowStart]. *)
Definition SlowStart (b : State) (socket : option SocketState)
           (segmentsAcked : Z) : Z :=
  match socket with
  | None => m_cwnd b
  | Some sk =>
      if segmentsAcked =? 0 then m_cwnd b else
      let newCwnd := add32 (m_cwnd b) (mul32 segmentsAcked (mss_bytes_ sk)) in
      let newCwnd :=
        if m_ssthresh b <? newCwnd then m_ssthresh b else newCwnd in
      Z.min newCwnd (m_maxCwnd b)
  end.

(** [BIC::FastRecovery]. *)
Definition FastRecovery (b : State) (socket : option SocketState)
           (segmentsAcked : Z) : Z :=
  match socket with
  | None => m_cwnd b
  | Some sk =>
      let newCwnd := add32 (m_cwnd b) (mul32 segmentsAcked (mss_bytes_ sk)) in
      Z.min newCwnd (m_maxCwnd b)
  end.

(** The three-way growth rule of [BIC::BicUpdate], after [dist] has been
    computed. *)
Definition grow (b : State) (mss dist : Z) : State :=
  let b :=
    if to_int32 (m_maxIncr b) <? dist then
      set_cwnd (add32 (m_cwnd b) (mul32 (m_maxIncr b) mss)) b
    else if 0 <? dist then
      let increment :=
        if to_int32 (m_minIncr b) <? dist then
          let increment := mul32 (dist / 2) mss in
          if increment <? mul32 (m_minIncr b) mss
          then mul32 (m_minIncr b) mss else increment
        else mul32 (m_minIncr b) mss in
      set_cwnd (add32 (m_cwnd b) increment) b
    else
      let b :=
        if negb (m_foundNewMax b)
        then set_lastMaxCwnd (m_cwnd b) (set_foundNewMax true b)
        else b in
      if m_cwnd b <? add32 (m_lastMaxCwnd b) (mul32 (m_maxIncr b) mss) then
        set_cwnd (add32 (m_cwnd b) (mul32 (m_minIncr b) mss)) b
      else
        let b := set_cwnd (add32 (m_cwnd b) (mul32 (m_maxIncr b) mss)) b in
        set_lastMaxCwnd (m_cwnd b) b in
  if m_cwnd b <? m_minWin b then set_cwnd (m_minWin b) b else b.

(** [BIC::BicUpdate]; [None] when [mss] is zero (division trap). *)
Definition BicUpdate (b : State) (socket : option SocketState)
  : option State :=
  match socket with
  | None => Some b
  | Some sk =>
      let mss := mss_bytes_ sk in
      let b := set_ackCount (add32 (m_ackCount b) 1) b in
      let targetWin := m_lastMaxCwnd b in
      let targetWin :=
        if negb (m_foundNewMax b) || (m_lastMaxCwnd b =? 0)
        then add32 (m_cwnd b) (mul32 (m_maxIncr b) mss)
        else targetWin in
      match div32 (sub32 targetWin (m_cwnd b)) mss with
      | None => None
      | Some q => Some (grow b mss (to_int32 q))
      end
  end.

(** [BIC::CongestionAvoidance]: the returned window and the object. *)
Definition CongestionAvoidance (b : State) (socket : option SocketState)
           (segmentsAcked : Z) : option (Z * State) :=
  match socket with
  | None => Some (m_cwnd b, b)
  | Some _ =>
      if segmentsAcked =? 0 then Some (m_cwnd b, b) else
      match BicUpdate b socket with
      | None => None
      | Some b => Some (m_cwnd b, b)
      end
  end.

(** [BIC::IncreaseWindow]. *)
Definition IncreaseWindow (b : State) (socket : option SocketState)
           (segmentsAcked : Z) : option (State * option SocketState) :=
  match socket with
  | None => Some (b, None)
  | Some sk =>
      if segmentsAcked =? 0 then Some (b, socket) else
      let b := set_cwnd (cwnd_ sk) b in
      let b := set_ssthresh (ssthresh_ sk) b in
      let grown :=
        if TCPState.eqb (tcp_state_ sk) TCPState.Recovery then
          Some (set_cwnd (FastRecovery b socket segmentsAcked) b)
        else if m_cwnd b <? m_ssthresh b then
          Some (set_cwnd (SlowStart b socket segmentsAcked) b)
        else
          match CongestionAvoidance b socket segmentsAcked with
          | None => None
          | Some (w, b) => Some (set_cwnd w b)
          end in
      match grown with
      | None => None
      | Some b =>
          let b := set_cwnd (Z.min (m_cwnd b) (m_maxCwnd b)) b in
          Some (b, Some (set_cwnd_ (m_cwnd b) sk))
      end
  end.

(** [BIC::PktsAcked]. *)
Definition PktsAcked (b : State) (socket : option SocketState)
           (segmentsAcked rtt : Z) : State * option SocketState :=
  match socket with
  | None => (b, None)
  | Some sk =>
      (set_ackCount (add32 (m_ackCount b) segmentsAcked) b,
       Some (update_rtt rtt sk))
  end.

(** [BIC::BicReset]. *)
Definition BicReset (now : Z) (b : State) : State :=
  let b := set_lastMaxCwnd 0 b in
  let b := set_lastCwnd 0 b in
  let b := set_minWin 0 b in
  let b := set_foundNewMax false b in
  let b := set_ackCount 0 b in
  let b := set_smoothPart 0 b in
  set_epochStart now b.

(** [BIC::CongestionStateSet]. *)
Definition CongestionStateSet (b : State) (socket : option SocketState)
           (congestionState : TCPState.t) : State * option SocketState :=
  match socket with
  | None => (b, None)
  | Some sk =>
      let sk := set_tcp_state_ congestionState sk in
      if TCPState.eqb congestionState TCPState.Recovery
         || TCPState.eqb congestionState TCPState.Loss
      then
        let '(_, b, socket) := GetSsThresh b (Some sk) 0 in
        let b := set_minWin (m_ssthresh b) b in
        (set_foundNewMax false b, socket)
      else (b, Some sk)
  end.

(** [BIC::CwndEvent].  The clock is read twice on the [Timeout] path (in
    [BicReset] and after it); both readings are [now]. *)
Definition CwndEvent (now : Z) (b : State) (socket : option SocketState)
           (congestionEvent : CongestionEvent.t) : State * option SocketState :=
  match socket with
  | None => (b, None)
  | Some sk =>
      let sk := set_congestion_event_ congestionEvent sk in
      match congestionEvent with
      | CongestionEvent.PacketLoss | CongestionEvent.Timeout =>
          let b :=
            if m_lastMaxCwnd b <? cwnd_ sk
            then set_lastMaxCwnd (cwnd_ sk) b else b in
          let '(_, b, socket) := GetSsThresh b (Some sk) 0 in
          let b := set_minWin (m_ssthresh b) b in
          let b := set_foundNewMax false b in
          let '(b, socket) :=
            match congestionEvent with
            | CongestionEvent.Timeout =>
                let b := set_cwnd (mss_bytes_ sk) b in
                let socket := on_socket (set_cwnd_ (m_cwnd b)) socket in
                let socket :=
                  on_socket (set_tcp_state_ TCPState.Loss) socket in
                (BicReset now b, socket)
            | _ =>
                let b := set_cwnd (m_ssthresh b) b in
                let socket := on_socket (set_cwnd_ (m_cwnd b)) socket in
                (b, on_socket (set_tcp_state_ TCPState.Recovery) socket)
            end in
          let b := set_epochStart now b in
          (set_ackCount 0 b, socket)
      | CongestionEvent.ECN =>
          let '(_, b, socket) := GetSsThresh b (Some sk) 0 in
          let b := set_cwnd (m_ssthresh b) b in
          let socket := on_socket (set_cwnd_ (m_cwnd b)) socket in
          let socket := on_socket (set_tcp_state_ TCPState.CWR) socket in
          let b := set_minWin (m_ssthresh b) b in
          (set_foundNewMax false b, socket)
      | CongestionEvent.FastRecovery =>
          (b, Some (set_tcp_state_ TCPState.Recovery sk))
      | CongestionEvent.OtherEvent => (b, Some sk)
      end
  end.

(** [BIC::CongControl]; [rtt] is [rtt.rtt.count()]. *)
Definition CongControl (now : Z) (b : State) (socket : option SocketState)
           (congestionEvent : CongestionEvent.t) (rtt : Z)
  : State * option SocketState :=
  match socket with
  | None => (b, None)
  | Some _ =>
      let '(b, socket) := CwndEvent now b socket congestionEvent in
      if 0 <? rtt then PktsAcked b socket 1 rtt else (b, socket)
  end.

End BIC.

(** ** CUBIC *)

Module Cubic.
Import Double.

(** Modelled from the spec: the class declaration ([cubic.h]) is not part
    of the listings.  The members are those that the constructor
    initialises, with the types that their uses require: [uint32_t] windows,
    delays and counters, [double] constants and times, [bool] switches and a
    [steady_clock] time point (clock ticks). *)
Record State : Type := mk {
  m_ssthresh : Z;
  m_cwnd : Z;
  m_maxCwnd : Z;
  m_lastMaxCwnd : Z;
  m_lastCwnd : Z;
  m_k : double;
  m_cubicBeta : double;
  m_cubicC : double;
  m_fastConvergence : bool;
  m_tcpFriendly : bool;
  m_tcpCwnd : Z;
  m_epochStart : Z;
  m_lastTime : double;
  m_ackCount : Z;
  m_cntRtt : Z;
  m_delayMin : Z;
  m_hystartEnabled : bool;
  m_hystartAckDelta : Z;
  m_hystartDelayMin : Z;
  m_hystartDelayMax : Z
}.

Definition set_ssthresh (v : Z) (c : State) : State :=
  mk v (m_cwnd c) (m_maxCwnd c) (m_lastMaxCwnd c) (m_lastCwnd c) (m_k c)
     (m_cubicBeta c) (m_cubicC c) (m_fastConvergence c) (m_tcpFriendly c)
     (m_tcpCwnd c) (m_epochStart c) (m_lastTime c) (m_ackCount c)
     (m_cntRtt c) (m_delayMin c) (m_hystartEnabled c) (m_hystartAckDelta c)
     (m_hystartDelayMin c) (m_hystartDelayMax c).
Definition set_cwnd (v : Z) (c : State) : State :=
  mk (m_ssthresh c) v (m_maxCwnd c) (m_lastMaxCwnd c) (m_lastCwnd c)
     (m_k c) (m_cubicBeta c) (m_cubicC c) (m_fastConvergence c)
     (m_tcpFriendly c) (m_tcpCwnd c) (m_epochStart c) (m_lastTime c)
     (m_ackCount c) (m_cntRtt c) (m_delayMin c) (m_hystartEnabled c)
     (m_hystartAckDelta c) (m_hystartDelayMin c) (m_hystartDelayMax c).
Definition set_lastMaxCwnd (v : Z) (c : State) : State :=
  mk (m_ssthresh c) (m_cwnd c) (m_maxCwnd c) v (m_lastCwnd c) (m_k c)
     (m_cubicBeta c) (m_cubicC c) (m_fastConvergence c) (m_tcpFriendly c)
     (m_tcpCwnd c) (m_epochStart c) (m_lastTime c) (m_ackCount c)
     (m_cntRtt c) (m_delayMin c) (m_hystartEnabled c) (m_hystartAckDelta c)
     (m_hystartDelayMin c) (m_hystartDelayMax c).
Definition set_lastCwnd (v : Z) (c : State) : State :=
  mk (m_ssthresh c) (m_cwnd c) (m_maxCwnd c) (m_lastMaxCwnd c) v (m_k c)
     (m_cubicBeta c) (m_cubicC c) (m_fastConvergence c) (m_tcpFriendly c)
     (m_tcpCwnd c) (m_epochStart c) (m_lastTime c) (m_ackCount c)
     (m_cntRtt c) (m_delayMin c) (m_hystartEnabled c) (m_hystartAckDelta c)
     (m_hystartDelayMin c) (m_hystartDelayMax c).
Definition set_k (v : double) (c : State) : State :=
  mk (m_ssthresh c) (m_cwnd c) (m_maxCwnd c) (m_lastMaxCwnd c)
     (m_lastCwnd c) v (m_cubicBeta c) (m_cubicC c) (m_fastConvergence c)
     (m_tcpFriendly c) (m_tcpCwnd c) (m_epochStart c) (m_lastTime c)
     (m_ackCount c) (m_cntRtt c) (m_delayMin c) (m_hystartEnabled c)
     (m_hystartAckDelta c) (m_hystartDelayMin c) (m_hystartDelayMax c).
Definition set_tcpCwnd (v : Z) (c : State) : State :=
  mk (m_ssthresh c) (m_cwnd c) (m_maxCwnd c) (m_lastMaxCwnd c)
     (m_lastCwnd c) (m_k c) (m_cubicBeta c) (m_cubicC c)
     (m_fastConvergence c) (m_tcpFriendly c) v (m_epochStart c)
     (m_lastTime c) (m_ackCount c) (m_cntRtt c) (m_delayMin c)
     (m_hystartEnabled c) (m_hystartAckDelta c) (m_hystartDelayMin c)
     (m_hystartDelayMax c).
Definition set_epochStart (v : Z) (c : State) : State :=
  mk (m_ssthresh c) (m_cwnd c) (m_maxCwnd c) (m_lastMaxCwnd c)
     (m_lastCwnd c) (m_k c) (m_cubicBeta c) (m_cubicC c)
     (m_fastConvergence c) (m_tcpFriendly c) (m_tcpCwnd c) v (m_lastTime c)
     (m_ackCount c) (m_cntRtt c) (m_delayMin c) (m_hystartEnabled c)
     (m_hystartAckDelta c) (m_hystartDelayMin c) (m_hystartDelayMax c).
Definition set_lastTime (v : double) (c : State) : State :=
  mk (m_ssthresh c) (m_cwnd c) (m_maxCwnd c) (m_lastMaxCwnd c)
     (m_lastCwnd c) (m_k c) (m_cubicBeta c) (m_cubicC c)
     (m_fastConvergence c) (m_tcpFriendly c) (m_tcpCwnd c) (m_epochStart c)
     v (m_ackCount c) (m_cntRtt c) (m_delayMin c) (m_hystartEnabled c)
     (m_hystartAckDelta c) (m_hystartDelayMin c) (m_hystartDelayMax c).
Definition set_ackCount (v : Z) (c : State) : State :=
  mk (m_ssthresh c) (m_cwnd c) (m_maxCwnd c) (m_lastMaxCwnd c)
     (m_lastCwnd c) (m_k c) (m_cubicBeta c) (m_cubicC c)
     (m_fastConvergence c) (m_tcpFriendly c) (m_tcpCwnd c) (m_epochStart c)
     (m_lastTime c) v (m_cntRtt c) (m_delayMin c) (m_hystartEnabled c)
     (m_hystartAckDelta c) (m_hystartDelayMin c) (m_hystartDelayMax c).
Definition set_cntRtt (v : Z) (c : State) : State :=
  mk (m_ssthresh c) (m_cwnd c) (m_maxCwnd c) (m_lastMaxCwnd c)
     (m_lastCwnd c) (m_k c) (m_cubicBeta c) (m_cubicC c)
     (m_fastConvergence c) (m_tcpFriendly c) (m_tcpCwnd c) (m_epochStart c)
     (m_lastTime c) (m_ackCount c) v (m_delayMin c) (m_hystartEnabled c)
     (m_hystartAckDelta c) (m_hystartDelayMin c) (m_hystartDelayMax c).
Definition set_delayMin (v : Z) (c : State) : State :=
  mk (m_ssthresh c) (m_cwnd c) (m_maxCwnd c) (m_lastMaxCwnd c)
     (m_lastCwnd c) (m_k c) (m_cubicBeta c) (m_cubicC c)
     (m_fastConvergence c) (m_tcpFriendly c) (m_tcpCwnd c) (m_epochStart c)
     (m_lastTime c) (m_ackCount c) (m_cntRtt c) v (m_hystartEnabled c)
     (m_hystartAckDelta c) (m_hystartDelayMin c) (m_hystartDelayMax c).
Definition set_hystartDelayMin (v : Z) (c : State) : State :=
  mk (m_ssthresh c) (m_cwnd c) (m_maxCwnd c) (m_lastMaxCwnd c)
     (m_lastCwnd c) (m_k c) (m_cubicBeta c) (m_cubicC c)
     (m_fastConvergence c) (m_tcpFriendly c) (m_tcpCwnd c) (m_epochStart c)
     (m_lastTime c) (m_ackCount c) (m_cntRtt c) (m_delayMin c)
     (m_hystartEnabled c) (m_hystartAckDelta c) v (m_hystartDelayMax c).
Definition set_hystartDelayMax (v : Z) (c : State) : State :=
  mk (m_ssthresh c) (m_cwnd c) (m_maxCwnd c) (m_lastMaxCwnd c)
     (m_lastCwnd c) (m_k c) (m_cubicBeta c) (m_cubicC c)
     (m_fastConvergence c) (m_tcpFriendly c) (m_tcpCwnd c) (m_epochStart c)
     (m_lastTime c) (m_ackCount c) (m_cntRtt c) (m_delayMin c)
     (m_hystartEnabled c) (m_hystartAckDelta c) (m_hystartDelayMin c) v.

(** [Cubic::Cubic()]. *)
Definition init (now : Z) : State :=
  mk 2147483647 0 65535 0 0 d0 d0_7 d0_4 true true 0 now d0 0 0
     4294967295 true 2 4294967295 0.

Section Libm.

(** [std::cbrt], a function of the C mathematical library. *)
Variable cbrt : double -> double.

(** [Cubic::CalculateK]. *)
Definition CalculateK (c : State) : State :=
  if (m_lastMaxCwnd c =? 0) || eqb (m_cubicC c) d0 then set_k d0 c else
  let w_max_segments := div (of_Z (m_lastMaxCwnd c)) d1460 in
  let numerator := mul w_max_segments (sub d1 (m_cubicBeta c)) in
  let k_cubed := div numerator (m_cubicC c) in
  if ltb k_cubed d0 then set_k d0 c else set_k (cbrt k_cubed) c.

(** [Cubic::GetSsThresh]. *)
Definition GetSsThresh (c : State) (socket : option SocketState)
           (bytesInFlight : Z) : Z * State * option SocketState :=
  match socket with
  | None => (m_ssthresh c, c, None)
  | Some sk =>
      let c := set_lastCwnd (cwnd_ sk) c in
      let c :=
        if m_fastConvergence c && (cwnd_ sk <? m_lastMaxCwnd c) then
          set_lastMaxCwnd
            (to_uint32
               (div (mul (of_Z (cwnd_ sk)) (sub d2 (m_cubicBeta c))) d2)) c
        else set_lastMaxCwnd (cwnd_ sk) c in
      let c :=
        set_ssthresh (to_uint32 (mul (of_Z (cwnd_ sk)) (m_cubicBeta c))) c in
      let c :=
        set_ssthresh (Z.max (m_ssthresh c) (mul32 2 (mss_bytes_ sk))) c in
      let sk := set_ssthresh_ (m_ssthresh c) sk in
      let c := CalculateK c in
      (m_ssthresh c, c, Some sk)
  end.

(** [Cubic::CubicWindowCalculation]. *)
Definition CubicWindowCalculation (c : State) (t : double) : Z :=
  let delta_t := sub t (m_k c) in
  let cubic_term := mul (mul (mul (m_cubicC c) delta_t) delta_t) delta_t in
  let target := add (of_Z (m_lastMaxCwnd c)) (mul cubic_term d1460) in
  let target := if ltb target d0 then d0 else target in
  to_uint32 target.

(** [Cubic::SlowStart]: the returned window and the object. *)
Definition SlowStart (c : State) (socket : option SocketState)
           (segmentsAcked : Z) : Z * State :=
  match socket with
  | None => (m_cwnd c, c)
  | Some sk =>
      if segmentsAcked =? 0 then (m_cwnd c, c) else
      let newCwnd := add32 (m_cwnd c) (mul32 segmentsAcked (mss_bytes_ sk)) in
      let '(newCwnd, c) :=
        if m_ssthresh c <? newCwnd
        then (m_ssthresh c,
              set_hystartDelayMax 0 (set_hystartDelayMin 4294967295 c))
        else (newCwnd, c) in
      (Z.min newCwnd (m_maxCwnd c), c)
  end.

(** [Cubic::FastRecovery]. *)
Definition FastRecovery (c : State) (socket : option SocketState)
           (segmentsAcked : Z) : Z :=
  match socket with
  | None => m_cwnd c
  | Some sk =>
      let newCwnd := add32 (m_cwnd c) (mul32 segmentsAcked (mss_bytes_ sk)) in
      Z.min newCwnd (m_maxCwnd c)
  end.

(** The elapsed time of [Cubic::CubicUpdate], in seconds:
    [duration_cast<milliseconds>(now - m_epochStart).count() / 1000.0]. *)
Definition elapsed_seconds (now : Z) (c : State) : double :=
  div (of_Z (Z.quot (now - m_epochStart c) 1000000)) d1000.

(** The TCP-friendly estimate of [Cubic::CubicUpdate]: the object and the
    target afterwards. *)
Definition tcp_friendly (c : State) (sk : SocketState) (t : double)
           (cubicTarget : Z) : State * Z :=
  if m_tcpFriendly c && (0 <? rtt_us_ sk) then
    let rtt_sec := div (of_Z (rtt_us_ sk)) d1000000 in
    let mss := mss_bytes_ sk in
    let c := if m_tcpCwnd c =? 0 then set_tcpCwnd (m_cwnd c) c else c in
    let tcp_increment :=
      mul (mul (div (mul d3 (m_cubicBeta c)) (sub d2 (m_cubicBeta c)))
               (div t rtt_sec))
          (of_Z mss) in
    let c :=
      set_tcpCwnd
        (to_uint32
           (add (mul (of_Z (m_lastMaxCwnd c)) (sub d1 (m_cubicBeta c)))
                tcp_increment)) c in
    (c, if cubicTarget <? m_tcpCwnd c then m_tcpCwnd c else cubicTarget)
  else (c, cubicTarget).

(** [Cubic::CubicUpdate]; [None] when [mss] is zero where the source
    divides by it. *)
Definition CubicUpdate (now : Z) (c : State) (socket : option SocketState)
  : option State :=
  match socket with
  | None => Some c
  | Some sk =>
      let c := set_ackCount (add32 (m_ackCount c) 1) c in
      let t := elapsed_seconds now c in
      let cubicTarget := CubicWindowCalculation c t in
      let '(c, cubicTarget) := tcp_friendly c sk t cubicTarget in
      let grown :=
        if m_cwnd c <? cubicTarget then
          let delta := sub32 cubicTarget (m_cwnd c) in
          let mss := mss_bytes_ sk in
          let cnt := m_cwnd c / delta in
          let cnt := if cnt =? 0 then 1 else cnt in
          if cnt <=? m_ackCount c
          then Some (set_ackCount 0 (set_cwnd (add32 (m_cwnd c) mss) c))
          else Some c
        else
          match div32 (m_cwnd c) (mss_bytes_ sk) with
          | None => None
          | Some q =>
              if q <=? m_ackCount c
              then Some (set_ackCount 0
                           (set_cwnd (add32 (m_cwnd c) (mss_bytes_ sk)) c))
              else Some c
          end in
      match grown with
      | None => None
      | Some c => Some (set_lastTime t c)
      end
  end.

(** [Cubic::CongestionAvoidance]. *)
Definition CongestionAvoidance (now : Z) (c : State)
           (socket : option SocketState) (segmentsAcked : Z)
  : option (Z * State) :=
  match socket with
  | None => Some (m_cwnd c, c)
  | Some _ =>
      if segmentsAcked =? 0 then Some (m_cwnd c, c) else
      match CubicUpdate now c socket with
      | None => None
      | Some c => Some (m_cwnd c, c)
      end
  end.

(** [Cubic::IncreaseWindow]. *)
Definition IncreaseWindow (now : Z) (c : State)
           (socket : option SocketState) (segmentsAcked : Z)
  : option (State * option SocketState) :=
  match socket with
  | None => Some (c, None)
  | Some sk =>
      if segmentsAcked =? 0 then Some (c, socket) else
      let c := set_cwnd (cwnd_ sk) c in
      let c := set_ssthresh (ssthresh_ sk) c in
      let grown :=
        if TCPState.eqb (tcp_state_ sk) TCPState.Recovery then
          Some (set_cwnd (FastRecovery c socket segmentsAcked) c)
        else if m_cwnd c <? m_ssthresh c then
          let '(w, c) := SlowStart c socket segmentsAcked in
          Some (set_cwnd w c)
        else
          match CongestionAvoidance now c socket segmentsAcked with
          | None => None
          | Some (w, c) => Some (set_cwnd w c)
          end in
      match grown with
      | None => None
      | Some c =>
          let c := set_cwnd (Z.min (m_cwnd c) (m_maxCwnd c)) c in
          Some (c, Some (set_cwnd_ (m_cwnd c) sk))
      end
  end.

(** [Cubic::PktsAcked]; [rtt] is a [uint64_t]. *)
Definition PktsAcked (c : State) (socket : option SocketState)
           (segmentsAcked rtt : Z) : State * option SocketState :=
  match socket with
  | None => (c, None)
  | Some sk =>
      let sk := update_rtt rtt sk in
      let c :=
        if (0 <? rtt) && (rtt <? m_delayMin c)
        then set_delayMin (wrap32 rtt) c else c in
      let '(c, sk) :=
        if m_hystartEnabled c && (m_cwnd c <? m_ssthresh c) then
          let c :=
            if rtt <? m_hystartDelayMin c
            then set_hystartDelayMin (wrap32 rtt) c else c in
          let c :=
            if m_hystartDelayMax c <? rtt
            then set_hystartDelayMax (wrap32 rtt) c else c in
          if m_hystartAckDelta c
             <? sub32 (m_hystartDelayMax c) (m_hystartDelayMin c)
          then
            let c := set_ssthresh (m_cwnd c) c in
            (c, set_ssthresh_ (m_ssthresh c) sk)
          else (c, sk)
        else (c, sk) in
      let c := set_ackCount (add32 (m_ackCount c) segmentsAcked) c in
      (set_cntRtt (add32 (m_cntRtt c) 1) c, Some sk)
  end.

(** [Cubic::CubicReset]. *)
Definition CubicReset (now : Z) (c : State) : State :=
  let c := set_lastMaxCwnd 0 c in
  let c := set_lastCwnd 0 c in
  let c := set_k d0 c in
  let c := set_ackCount 0 c in
  let c := set_cntRtt 0 c in
  let c := set_lastTime d0 c in
  let c := set_tcpCwnd 0 c in
  let c := set_delayMin 4294967295 c in
  let c := set_hystartDelayMin 4294967295 c in
  let c := set_hystartDelayMax 0 c in
  set_epochStart now c.

(** [Cubic::CongestionStateSet]. *)
Definition CongestionStateSet (c : State) (socket : option SocketState)
           (congestionState : TCPState.t) : State * option SocketState :=
  match socket with
  | None => (c, None)
  | Some sk =>
      let sk := set_tcp_state_ congestionState sk in
      if TCPState.eqb congestionState TCPState.Recovery
         || TCPState.eqb congestionState TCPState.Loss
      then
        let '(_, c, socket) := GetSsThresh c (Some sk) 0 in (c, socket)
      else (c, Some sk)
  end.

(** [Cubic::CwndEvent].  The clock is read twice on the [Timeout] path (in
    [CubicReset] and after it); both readings are [now]. *)
Definition CwndEvent (now : Z) (c : State) (socket : option SocketState)
           (congestionEvent : CongestionEvent.t)
  : State * option SocketState :=
  match socket with
  | None => (c, None)
  | Some sk =>
      let sk := set_congestion_event_ congestionEvent sk in
      match congestionEvent with
      | CongestionEvent.PacketLoss | CongestionEvent.Timeout =>
          let '(_, c, socket) := GetSsThresh c (Some sk) 0 in
          let '(c, socket) :=
            match congestionEvent with
            | CongestionEvent.Timeout =>
                let c := set_cwnd (mss_bytes_ sk) c in
                let socket := on_socket (set_cwnd_ (m_cwnd c)) socket in
                let socket :=
                  on_socket (set_tcp_state_ TCPState.Loss) socket in
                (CubicReset now c, socket)
            | _ =>
                let c := set_cwnd (m_ssthresh c) c in
                let socket := on_socket (set_cwnd_ (m_cwnd c)) socket in
                (c, on_socket (set_tcp_state_ TCPState.Recovery) socket)
            end in
          let c := set_epochStart now c in
          let c := set_lastTime d0 c in
          let c := set_ackCount 0 c in
          let c := set_tcpCwnd 0 c in
          let c := set_hystartDelayMin 4294967295 c in
          (set_hystartDelayMax 0 c, socket)
      | CongestionEvent.ECN =>
          let '(_, c, socket) := GetSsThresh c (Some sk) 0 in
          let c := set_cwnd (m_ssthresh c) c in
          let socket := on_socket (set_cwnd_ (m_cwnd c)) socket in
          let socket := on_socket (set_tcp_state_ TCPState.CWR) socket in
          let c := set_epochStart now c in
          (set_lastTime d0 c, socket)
      | CongestionEvent.FastRecovery =>
          (c, Some (set_tcp_state_ TCPState.Recovery sk))
      | CongestionEvent.OtherEvent => (c, Some sk)
      end
  end.

(** [Cubic::CongControl]; [rtt] is [rtt.rtt.count()]. *)
Definition CongControl (now : Z) (c : State) (socket : option SocketState)
           (congestionEvent : CongestionEvent.t) (rtt : Z)
  : State * option SocketState :=
  match socket with
  | None => (c, None)
  | Some _ =>
      let '(c, socket) := CwndEvent now c socket congestionEvent in
      if 0 <? rtt then PktsAcked c socket 1 rtt else (c, socket)
  end.

End Libm.

End Cubic.

(** ** The Vegas decision rule *)

Module Vegas.

(** Modelled from the spec: the class declaration of [Vegas] is not part of
    the note.  These are the members read and written by the two listed
    functions, taken to be [uint32_t], as the casts
    [static_cast<int32_t>(m_alpha)] and [static_cast<int32_t>(m_beta)] of
    the listing suggest. *)
Record State : Type := mk {
  m_cwnd : Z;
  m_baseRTT : Z;
  m_currentRTT : Z;
  m_alpha : Z;
  m_beta : Z
}.

Definition set_cwnd (v : Z) (s : State) : State :=
  mk v (m_baseRTT s) (m_currentRTT s) (m_alpha s) (m_beta s).

(** [Vegas::CalculateDiff], the listed body.  The note leaves out the
    boundary checks that precede it; a zero [m_baseRTT] reaches the
    division and is the trap [None]. *)
Definition CalculateDiff (s : State) : option Z :=
  let rttDiff := to_int32 (sub32 (m_currentRTT s) (m_baseRTT s)) in
  let cwndSegments := m_cwnd s / 1460 in
  match div32 (mul32 cwndSegments (wrap32 rttDiff)) (m_baseRTT s) with
  | None => None
  | Some q => Some (to_int32 q)
  end.

(** The listed part of [VegasUpdate]; [mss] is its local variable. *)
Definition VegasUpdate (s : State) (mss : Z) : option State :=
  match CalculateDiff s with
  | None => None
  | Some diff =>
      if diff <? to_int32 (m_alpha s) then
        Some (set_cwnd (add32 (m_cwnd s) mss) s)
      else if to_int32 (m_beta s) <? diff then
        Some (set_cwnd (sub32 (m_cwnd s) mss) s)
      else Some s
  end.

End Vegas.

(** ** The strategy engine *)

(** The strategy bound to a connection: one of the two listed classes
    derived from [CongestionControl]. *)
Inductive Strategy : Type :=
  | UseBIC (b : BIC.State)
  | UseCubic (c : Cubic.State).

(** A strategy object together with the connection record it is called
    with. *)
Definition World : Type := (Strategy * option SocketState)%type.

(** The calls that the transport layer makes on the [CongestionControl]
    interface; [now] is the clock reading during the call.  An acknowledgment
    is [IncreaseWindow] (and [PktsAcked] for its RTT sample); a loss, a
    timeout and an ECN mark are [CwndEvent] with the event of that name. *)
Module Call.
Inductive t : Type :=
  | IncreaseWindow (now segmentsAcked : Z)
  | PktsAcked (segmentsAcked rtt : Z)
  | CwndEvent (now : Z) (congestionEvent : CongestionEvent.t)
  | CongestionStateSet (congestionState : TCPState.t)
  | CongControl (now : Z) (congestionEvent : CongestionEvent.t) (rtt : Z)
  | GetSsThresh (bytesInFlight : Z).
End Call.

Module Engine.

Definition m_maxCwnd (s : Strategy) : Z :=
  match s with
  | UseBIC b => BIC.m_maxCwnd b
  | UseCubic c => Cubic.m_maxCwnd c
  end.

Definition m_lastMaxCwnd (s : Strategy) : Z :=
  match s with
  | UseBIC b => BIC.m_lastMaxCwnd b
  | UseCubic c => Cubic.m_lastMaxCwnd c
  end.

Definition from_BIC (r : BIC.State * option SocketState) : World :=
  (UseBIC (fst r), snd r).
Definition from_Cubic (r : Cubic.State * option SocketState) : World :=
  (UseCubic (fst r), snd r).

Section Libm.

Variable cbrt : Double.double -> Double.double.

(** Virtual dispatch of one interface call. *)
Definition step (w : World) (call : Call.t) : option World :=
  let '(s, socket) := w in
  match s, call with
  | UseBIC b, Call.IncreaseWindow _ n =>
      option_map from_BIC (BIC.IncreaseWindow b socket n)
  | UseCubic c, Call.IncreaseWindow now n =>
      option_map from_Cubic (Cubic.IncreaseWindow now c socket n)
  | UseBIC b, Call.PktsAcked n rtt =>
      Some (from_BIC (BIC.PktsAcked b socket n rtt))
  | UseCubic c, Call.PktsAcked n rtt =>
      Some (from_Cubic (Cubic.PktsAcked c socket n rtt))
  | UseBIC b, Call.CwndEvent now e =>
      Some (from_BIC (BIC.CwndEvent now b socket e))
  | UseCubic c, Call.CwndEvent now e =>
      Some (from_Cubic (Cubic.CwndEvent cbrt now c socket e))
  | UseBIC b, Call.CongestionStateSet st =>
      Some (from_BIC (BIC.CongestionStateSet b socket st))
  | UseCubic c, Call.CongestionStateSet st =>
      Some (from_Cubic (Cubic.CongestionStateSet cbrt c socket st))
  | UseBIC b, Call.CongControl now e rtt =>
      Some (from_BIC (BIC.CongControl now b socket e rtt))
  | UseCubic c, Call.CongControl now e rtt =>
      Some (from_Cubic (Cubic.CongControl cbrt now c socket e rtt))
  | UseBIC b, Call.GetSsThresh n =>
      let '(_, b, socket) := BIC.GetSsThresh b socket n in
      Some (UseBIC b, socket)
  | UseCubic c, Call.GetSsThresh n =>
      let '(_, c, socket) := Cubic.GetSsThresh cbrt c socket n in
      Some (UseCubic c, socket)
  end.

(** A sequence of calls, in order; [None] as soon as one call traps. *)
Fixpoint run (w : World) (calls : list Call.t) : option World :=
  match calls with
  | [] => Some w
  | call :: calls =>
      match step w call with
      | None => None
      | Some w => run w calls
      end
  end.

End Libm.

(** The window reductions: the loss, timeout and ECN events. *)
Definition is_reduction (call : Call.t) : bool :=
  match call with
  | Call.CwndEvent _ CongestionEvent.PacketLoss
  | Call.CwndEvent _ CongestionEvent.Timeout
  | Call.CwndEvent _ CongestionEvent.ECN => true
  | _ => false
  end.

(** An initialized connection: a socket with a positive segment size that
    fits the strategy's window bound, and a window of at least one
    segment. *)
Definition initialized (w : World) : bool :=
  match snd w with
  | None => false
  | Some sk =>
      (0 <? mss_bytes_ sk) && (mss_bytes_ sk <=? m_maxCwnd (fst w))
      && (2 * mss_bytes_ sk <? modulus32) && (mss_bytes_ sk <=? cwnd_ sk)
  end.

(** The largest number of segments that one [IncreaseWindow] call
    acknowledging [n] segments can add to the window. *)
Definition max_segments (s : Strategy) (n : Z) : Z :=
  match s with
  | UseBIC b => Z.max n (Z.max (BIC.m_maxIncr b) (BIC.m_minIncr b))
  | UseCubic _ => n
  end.

Definition nonneg_increments (s : Strategy) : bool :=
  match s with
  | UseBIC b => (0 <=? BIC.m_maxIncr b) && (0 <=? BIC.m_minIncr b)
  | UseCubic _ => true
  end.

(** The call adds to the window without wrapping around [2^32]. *)
Definition no_wrap (w : World) (call : Call.t) : bool :=
  match call, snd w with
  | Call.IncreaseWindow _ n, Some sk =>
      (0 <=? n) && nonneg_increments (fst w)
      && (cwnd_ sk + max_segments (fst w) n * mss_bytes_ sk <? modulus32)
  | _, _ => true
  end.

(** The propositional content of [initialized], for a strategy whose
    window bound is [maxCwnd]. *)
Definition floor_ok (maxCwnd : Z) (sk : SocketState) : Prop :=
  0 < mss_bytes_ sk /\ mss_bytes_ sk <= maxCwnd /\
  2 * mss_bytes_ sk < modulus32 /\ mss_bytes_ sk <= cwnd_ sk.

(** What every call establishes: the window bound and the segment size
    are kept, and the window is at least one segment. *)
Definition kept (maxCwnd maxCwnd' : Z) (sk sk' : SocketState) : Prop :=
  maxCwnd' = maxCwnd /\ mss_bytes_ sk' = mss_bytes_ sk /\
  mss_bytes_ sk' <= cwnd_ sk'.

(** The persistent memory of a strategy is in the state in which
    [BicReset] (respectively [CubicReset]) leaves it, with the growth epoch
    restarted at [now]. *)
Definition memory_cleared (now : Z) (s : Strategy) : Prop :=
  match s with
  | UseBIC b =>
      BIC.m_lastMaxCwnd b = 0 /\ BIC.m_lastCwnd b = 0 /\
      BIC.m_minWin b = 0 /\ BIC.m_foundNewMax b = false /\
      BIC.m_ackCount b = 0 /\ BIC.m_smoothPart b = 0 /\
      BIC.m_epochStart b = now
  | UseCubic c =>
      Cubic.m_lastMaxCwnd c = 0 /\ Cubic.m_lastCwnd c = 0 /\
      Cubic.m_k c = Double.d0 /\ Cubic.m_ackCount c = 0 /\
      Cubic.m_cntRtt c = 0 /\ Cubic.m_lastTime c = Double.d0 /\
      Cubic.m_tcpCwnd c = 0 /\ Cubic.m_delayMin c = 4294967295 /\
      Cubic.m_hystartDelayMin c = 4294967295 /\
      Cubic.m_hystartDelayMax c = 0 /\ Cubic.m_epochStart c = now
  end.

(** The remembered maximum that [Cubic::GetSsThresh] stores for a window
    [cwnd]. *)
Definition cubic_new_maximum (c : Cubic.State) (cwnd : Z) : Z :=
  if Cubic.m_fastConvergence c && (cwnd <? Cubic.m_lastMaxCwnd c)
  then Double.to_uint32
         (Double.div
            (Double.mul (Double.of_Z cwnd)
                        (Double.sub Double.d2 (Cubic.m_cubicBeta c)))
            Double.d2)
  else cwnd.

Section WrapFree.

Variable cbrt : Double.double -> Double.double.

Fixpoint wrap_free (w : World) (calls : list Call.t) : bool :=
  match calls with
  | [] => true
  | call :: calls =>
      no_wrap w call &&
      match step cbrt w call with
      | None => true
      | Some w => wrap_free w calls
      end
  end.

End WrapFree.

(** The decrease factor that the constructor sets: 0.8 for BIC, 0.7 for
    CUBIC. *)
Definition default_decrease (s : Strategy) : Prop :=
  match s with
  | UseBIC b => BIC.m_beta b = Double.d0_8
  | UseCubic c => Cubic.m_cubicBeta c = Double.d0_7
  end.

(** The members that only the constructors assign are the same in both
    objects, which are of the same class. *)
Definition same_parameters (s s' : Strategy) : Prop :=
  match s, s' with
  | UseBIC b, UseBIC b' =>
      BIC.m_maxCwnd b' = BIC.m_maxCwnd b /\
      BIC.m_maxIncr b' = BIC.m_maxIncr b /\
      BIC.m_minIncr b' = BIC.m_minIncr b /\
      BIC.m_beta b' = BIC.m_beta b /\
      BIC.m_lowWindow b' = BIC.m_lowWindow b
  | UseCubic c, UseCubic c' =>
      Cubic.m_maxCwnd c' = Cubic.m_maxCwnd c /\
      Cubic.m_cubicBeta c' = Cubic.m_cubicBeta c /\
      Cubic.m_cubicC c' = Cubic.m_cubicC c /\
      Cubic.m_fastConvergence c' = Cubic.m_fastConvergence c /\
      Cubic.m_tcpFriendly c' = Cubic.m_tcpFriendly c /\
      Cubic.m_hystartEnabled c' = Cubic.m_hystartEnabled c /\
      Cubic.m_hystartAckDelta c' = Cubic.m_hystartAckDelta c
  | _, _ => False
  end.

(** The calls that do not name a phase or an event: the acknowledgment
    path and the threshold query. *)
Definition keeps_phase (call : Call.t) : bool :=
  match call with
  | Call.IncreaseWindow _ _ | Call.PktsAcked _ _ | Call.GetSsThresh _ => true
  | _ => false
  end.

(** The segments that one congestion-avoidance step of BIC adds while the
    new-maximum flag is unset. *)
Definition bic_linear_increment (b : BIC.State) : Z :=
  Z.max (BIC.m_maxIncr b / 2) (BIC.m_minIncr b).

(** What a call leaves of the socket: the segment size, and for the calls
    that name no phase or event, the phase and the event. *)
Definition socket_kept (call : Call.t) (socket socket' : option SocketState)
  : Prop :=
  option_map mss_bytes_ socket' = option_map mss_bytes_ socket /\
  (keeps_phase call = true ->
   option_map tcp_state_ socket' = option_map tcp_state_ socket /\
   option_map congestion_event_ socket'
   = option_map congestion_event_ socket).

End Engine.

(** ** Concrete states used by the examples below *)

Module Sample.
Import Double.

(** A connection with [MSS = 1460] whose window is [n] segments, in
    congestion avoidance. *)
Definition socket (n : Z) : SocketState :=
  mkSocket (n * 1460) (n * 1460) 1460 TCPState.CongestionAvoidance
           CongestionEvent.OtherEvent 100000 0 0.

(** A default BIC object that remembers a maximum of 1000 segments, as
    left by a loss (the new-maximum flag is reset). *)
Definition bic_after_loss : BIC.State :=
  BIC.set_cwnd (500 * 1460)
    (BIC.set_lastMaxCwnd (1000 * 1460) (BIC.init 0)).

(** A default BIC object that remembers a maximum of 2000 segments. *)
Definition bic_remembering : BIC.State :=
  BIC.set_lastMaxCwnd (2000 * 1460) (BIC.init 0).

(** A default CUBIC object that remembers a maximum of 2000 segments. *)
Definition cubic_remembering : Cubic.State :=
  Cubic.set_lastMaxCwnd (2000 * 1460) (Cubic.init 0).

(** A Vegas object with the classic thresholds [alpha = 2], [beta = 4],
    a window of [n] segments of 1460 bytes and RTTs in microseconds. *)
Definition vegas (n base current : Z) : Vegas.State :=
  Vegas.mk (n * 1460) base current 2 4.

(** A connection as the transport layer sets it up: one segment of 1460
    bytes in the window, slow start, no threshold yet. *)
Definition fresh_socket : SocketState :=
  mkSocket 1460 2147483647 1460 TCPState.SlowStart
           CongestionEvent.OtherEvent 0 0 0.

(** A sequence of calls through slow start, a loss, recovery, a timeout
    and an ECN mark. *)
Definition calls : list Call.t :=
  [ Call.IncreaseWindow 1000000 2;
    Call.PktsAcked 2 100000;
    Call.IncreaseWindow 2000000 3;
    Call.CwndEvent 3000000 CongestionEvent.PacketLoss;
    Call.IncreaseWindow 4000000 1;
    Call.CongestionStateSet TCPState.CongestionAvoidance;
    Call.IncreaseWindow 5000000 1;
    Call.CwndEvent 6000000 CongestionEvent.Timeout;
    Call.IncreaseWindow 7000000 1;
    Call.CongControl 8000000 CongestionEvent.ECN 120000;
    Call.IncreaseWindow 9000000 4 ].

(** A stand-in for [std::cbrt] in closed examples (any function does:
    no example below depends on its values). *)
Definition cbrt_stub (x : double) : double := x.

End Sample.

(** ** The streaming upload client

    A shallow embedding of [main] of 项目/minio-app/minio_stream.cpp.

    Conventions.
      - a file is the list of its bytes; an [std::ifstream] on it is the
        list of the bytes not read yet, with the state of the stream;
      - sizes ([size_t]) and the part number ([int]) are integers of [Z]:
        no file or buffer comes near the bounds of the types;
      - the MinIO server is known by its responses: a request of the
        client is answered by an error ([None]) or by the string of the
        response (an upload id or an ETag), which may depend on all the
        requests made so far;
      - the messages printed on [std::cout] and [std::cerr] are left out,
        and so is the [catch] block: no call throws;
      - a loop that does not terminate is [None]. *)

Module MinioStream.

Definition CHUNK_SIZE : Z := 32 * 1024.
Definition MIN_PART_SIZE : Z := 5 * 1024 * 1024.

Definition bytes : Type := list Byte.byte.

(** [v.size()]. *)
Definition size (v : bytes) : Z := Z.of_nat (length v).

(** An [std::ifstream] opened in binary mode. *)
Record ifstream : Type := mkStream {
  unread : bytes;
  good : bool
}.

Definition open (content : bytes) : ifstream := mkStream content true.

(** [file.read(buffer.data(), n)]: the bytes stored in the buffer (their
    number is [file.gcount()]), the stream converted to [bool] after the
    call, and the stream.  A read that meets the end of the file before
    [n] bytes fails; a stream that has failed reads nothing. *)
Definition read (n : Z) (file : ifstream) : bytes * bool * ifstream :=
  if good file then
    let got := firstn (Z.to_nat n) (unread file) in
    let ok := size got =? n in
    (got, ok, mkStream (skipn (Z.to_nat n) (unread file)) ok)
  else ([], false, file).

(** [minio::s3::Part]. *)
Record Part : Type := mkPart {
  number : Z;
  etag : String.string
}.

(** The requests that [main] sends (bucket and object name are the same
    in all of them). *)
Inductive Request : Type :=
  | PutObject (data : bytes)
  | CreateMultipartUpload
  | UploadPart (upload_id : String.string) (part_number : Z) (data : bytes)
  | CompleteMultipartUpload (upload_id : String.string) (parts : list Part).

(** The response to the last request of a history (oldest request
    first). *)
Definition Server : Type := list Request -> option String.string.

Section Client.

Variable server : Server.

(** [CHUNK_SIZE] and [MIN_PART_SIZE]. *)
Variables chunk min_part : Z.

(** The read loop of the small-file path (lines 99-110): [allData] after
    the loop. *)
Fixpoint read_all (fuel : nat) (file : ifstream) (allData : bytes)
  : option bytes :=
  match fuel with
  | O => None
  | S fuel =>
      let '(got, ok, file) := read chunk file in
      if ok || (0 <? size got)
      then read_all fuel file (allData ++ got)
      else Some allData
  end.

(** The small-file path (lines 85-137): the exit code of [main] and the
    requests sent. *)
Definition put_object (content : bytes) : option (Z * list Request) :=
  match read_all (S (length content)) (open content) [] with
  | None => None
  | Some allData =>
      let h := [PutObject allData] in
      match server h with
      | None => Some (1, h)
      | Some _ => Some (0, h)
      end
  end.

(** The read-and-upload loop of the large-file path (lines 171-222): the
    list [parts] after the loop ([None] when an [UploadPart] request has
    failed and [main] has returned) and the requests sent. *)
Fixpoint upload_parts (totalSize : Z) (uploadId : String.string)
         (fuel : nat) (file : ifstream) (parts : list Part)
         (partBuffer : bytes) (totalRead partNumber : Z)
         (h : list Request) : option (option (list Part) * list Request) :=
  match fuel with
  | O => None
  | S fuel =>
      let '(got, ok, file) := read chunk file in
      if ok || (0 <? size got) then
        let totalRead := totalRead + size got in
        let partBuffer := partBuffer ++ got in
        let isLastPart := totalSize <=? totalRead in
        if (min_part <=? size partBuffer) || isLastPart then
          let h := h ++ [UploadPart uploadId partNumber partBuffer] in
          match server h with
          | None => Some (None, h)
          | Some etag =>
              upload_parts totalSize uploadId fuel file
                (parts ++ [mkPart partNumber etag]) [] totalRead
                (partNumber + 1) h
          end
        else
          upload_parts totalSize uploadId fuel file parts partBuffer
            totalRead partNumber h
      else Some (Some parts, h)
  end.

(** The large-file path (lines 138-244). *)
Definition multipart_upload (content : bytes) (totalSize : Z)
  : option (Z * list Request) :=
  let h := [CreateMultipartUpload] in
  match server h with
  | None => Some (1, h)
  | Some uploadId =>
      match upload_parts totalSize uploadId (S (length content))
              (open content) [] [] 0 1 h with
      | None => None
      | Some (None, h) => Some (1, h)
      | Some (Some parts, h) =>
          let h := h ++ [CompleteMultipartUpload uploadId parts] in
          match server h with
          | None => Some (1, h)
          | Some _ => Some (0, h)
          end
      end
  end.

End Client.

(** [main], after the check of the command line: [source] is the content
    of the file named there ([None] when it cannot be opened) and
    [totalSize] the size that [tellg] reports for it. *)
Definition main (server : Server) (source : option bytes) (totalSize : Z)
  : option (Z * list Request) :=
  match source with
  | None => Some (1, [])
  | Some content =>
      if totalSize <? MIN_PART_SIZE
      then put_object server CHUNK_SIZE content
      else multipart_upload server CHUNK_SIZE MIN_PART_SIZE content totalSize
  end.

(** The bytes that a stream can still deliver. *)
Definition remaining (file : ifstream) : bytes :=
  if good file then unread file else [].

(** The [UploadPart] requests for the parts [datas], numbered from
    [partNumber]. *)
Fixpoint uploads (uploadId : String.string) (partNumber : Z)
         (datas : list bytes) : list Request :=
  match datas with
  | [] => []
  | data :: datas =>
      UploadPart uploadId partNumber data
      :: uploads uploadId (partNumber + 1) datas
  end.

(** The [k] numbers from [partNumber] on. *)
Fixpoint numbers (partNumber : Z) (k : nat) : list Z :=
  match k with
  | O => []
  | S k => partNumber :: numbers (partNumber + 1) k
  end.

(** The sizes of the parts [datas] that follow [base] uploaded bytes: a
    part is not empty and stays below [min_part + chunk]; it has reached
    [min_part] or the announced size of the file; a part followed by
    another is a whole number of chunks. *)
Fixpoint parts_ok (chunk min_part totalSize base : Z) (datas : list bytes)
  : Prop :=
  match datas with
  | [] => True
  | data :: datas =>
      0 < size data < min_part + chunk /\
      (min_part <= size data \/ totalSize <= base + size data) /\
      (datas <> [] -> size data mod chunk = 0) /\
      parts_ok chunk min_part totalSize (base + size data) datas
  end.

(** Every request of the history but the last has been answered without
    an error. *)
Definition answered (server : Server) (h : list Request) : Prop :=
  forall h1 h2, h = h1 ++ h2 -> h1 <> [] -> h2 <> [] -> server h1 <> None.

Definition is_upload (r : Request) : bool :=
  match r with
  | UploadPart _ _ _ => true
  | _ => false
  end.

End MinioStream.

(** * Properties *)

(** ** Facts on machine integers *)

Module WordFacts.

Lemma wrap32_range z : 0 <= wrap32 z < modulus32.
Proof. unfold wrap32, modulus32. apply Z.mod_pos_bound. lia. Qed.

Lemma wrap32_small z : 0 <= z < modulus32 -> wrap32 z = z.
Proof. intros H. unfold wrap32. now apply Z.mod_small. Qed.

Lemma to_int32_small z : 0 <= z < 2 ^ 31 -> to_int32 z = z.
Proof.
  intros H. unfold to_int32.
  rewrite wrap32_small by (unfold modulus32; lia).
  destruct (z <? 2 ^ 31) eqn:E; [reflexivity|].
  apply Z.ltb_ge in E. lia.
Qed.

Lemma to_int32_le z : 0 <= z < modulus32 -> to_int32 z <= z.
Proof.
  intros H. unfold to_int32. rewrite wrap32_small by assumption.
  destruct (z <? 2 ^ 31); unfold modulus32; lia.
Qed.

Lemma add32_small a b : 0 <= a + b < modulus32 -> add32 a b = a + b.
Proof. apply wrap32_small. Qed.

Lemma sub32_small a b : 0 <= a - b < modulus32 -> sub32 a b = a - b.
Proof. apply wrap32_small. Qed.

Lemma mul32_small a b : 0 <= a * b < modulus32 -> mul32 a b = a * b.
Proof. apply wrap32_small. Qed.

End WordFacts.
Import WordFacts.

(** ** Facts on binary64 arithmetic *)

Module DoubleFacts.
Import Double.

(** *** Bit lengths *)

Lemma digits2_pos_bounds p :
  2 ^ (Zpos (digits2_pos p) - 1) <= Zpos p < 2 ^ Zpos (digits2_pos p).
Proof.
  induction p as [p IH|p IH|]; cbn [digits2_pos].
  - rewrite Pos2Z.inj_succ.
    replace (Z.succ (Zpos (digits2_pos p)) - 1)
      with (Z.succ (Zpos (digits2_pos p) - 1)) by lia.
    rewrite !Z.pow_succ_r by lia. lia.
  - rewrite Pos2Z.inj_succ.
    replace (Z.succ (Zpos (digits2_pos p)) - 1)
      with (Z.succ (Zpos (digits2_pos p) - 1)) by lia.
    rewrite !Z.pow_succ_r by lia. lia.
  - cbn. lia.
Qed.

Lemma Zdigits2_bounds m :
  0 < m -> 2 ^ (Zdigits2 m - 1) <= m < 2 ^ Zdigits2 m.
Proof.
  destruct m as [|p|p]; try lia. intros _. apply digits2_pos_bounds.
Qed.

Lemma Zdigits2_unique m d :
  2 ^ (d - 1) <= m < 2 ^ d -> 0 < d -> Zdigits2 m = d.
Proof.
  intros [Hlo Hhi] Hd.
  assert (Hm : 0 < m) by (pose proof (Z.pow_pos_nonneg 2 (d - 1)); lia).
  pose proof (Zdigits2_bounds m Hm) as [Hlo' Hhi'].
  assert (Hdm : 0 < Zdigits2 m) by (destruct m; try lia; reflexivity).
  destruct (Z.lt_trichotomy (Zdigits2 m) d) as [Hlt | [Heq | Hgt]];
    [exfalso | exact Heq | exfalso].
  - assert (2 ^ Zdigits2 m <= 2 ^ (d - 1))
      by (apply Z.pow_le_mono_r; lia).
    lia.
  - assert (2 ^ d <= 2 ^ (Zdigits2 m - 1))
      by (apply Z.pow_le_mono_r; lia).
    lia.
Qed.

(** *** Right shifts *)

Lemma shr_1_m mrs : 0 <= shr_m mrs -> shr_m (shr_1 mrs) = shr_m mrs / 2.
Proof.
  destruct mrs as [m r s]. cbn [shr_m]. intros Hm.
  destruct m as [|[p|p|]|p]; cbn [shr_1 shr_m]; try lia.
  - reflexivity.
  - apply Z.div_unique with 1; lia.
  - apply Z.div_unique with 0; lia.
  - reflexivity.
Qed.

Lemma iter_pos_shr_m p : forall mrs,
  0 <= shr_m mrs ->
  shr_m (iter_pos shr_1 p mrs) = shr_m mrs / 2 ^ Zpos p.
Proof.
  induction p as [p IH|p IH|]; intros mrs Hm; cbn [iter_pos].
  - assert (H1 : 0 <= shr_m (shr_1 mrs))
      by (rewrite shr_1_m by assumption; apply Z.div_pos; lia).
    assert (H2 : 0 <= shr_m (iter_pos shr_1 p (shr_1 mrs)))
      by (rewrite IH by assumption; apply Z.div_pos;
          [assumption | apply Z.pow_pos_nonneg; lia]).
    rewrite IH, IH, shr_1_m by assumption.
    rewrite !Z.div_div by (try apply Z.pow_pos_nonneg; lia).
    f_equal. change 2 with (2 ^ 1) at 1.
    rewrite <- !Z.pow_add_r by lia. f_equal. lia.
  - assert (H2 : 0 <= shr_m (iter_pos shr_1 p mrs))
      by (rewrite IH by assumption; apply Z.div_pos;
          [assumption | apply Z.pow_pos_nonneg; lia]).
    rewrite IH, IH by assumption.
    rewrite !Z.div_div by (try apply Z.pow_pos_nonneg; lia).
    f_equal. rewrite <- !Z.pow_add_r by lia. f_equal. lia.
  - rewrite shr_1_m by assumption. reflexivity.
Qed.


Lemma shr_record_of_loc_m m l : shr_m (shr_record_of_loc m l) = m.
Proof. destruct l as [|[]]; reflexivity. Qed.

Lemma shr_fexp_none m e l :
  excess m e <= 0 -> shr_fexp prec emax m e l = (shr_record_of_loc m l, e).
Proof.
  unfold shr_fexp, excess, shr. intros Hk.
  destruct (fexp prec emax (Zdigits2 m + e) - e); try reflexivity. lia.
Qed.

Lemma shr_fexp_some m e l :
  0 <= m -> 0 < excess m e ->
  shr_m (fst (shr_fexp prec emax m e l)) = m / 2 ^ excess m e /\
  snd (shr_fexp prec emax m e l) = e + excess m e.
Proof.
  unfold shr_fexp, excess, shr. intros Hm Hk.
  destruct (fexp prec emax (Zdigits2 m + e) - e) as [|k|k]; try lia.
  cbn [fst snd]. split; [|reflexivity].
  rewrite iter_pos_shr_m; rewrite shr_record_of_loc_m; auto.
Qed.

Lemma round_nearest_even_range m l :
  m <= round_nearest_even m l <= m + 1.
Proof.
  destruct l as [|[]]; cbn; try lia. destruct (Z.even m); lia.
Qed.

Lemma excess_normal m e :
  - 1074 <= Zdigits2 m - 53 + e -> excess m e = Zdigits2 m - 53.
Proof.
  intros H. unfold excess, fexp, emin, prec, emax. lia.
Qed.

(** *** Rounding of a long mantissa in the normal range

    A mantissa [mx] that is [k >= 1] bits longer than the precision, at an
    exponent [ex] with [ex + k] in the normal range, rounds to [m2] at
    exponent [ex + k], where [m2] is the mantissa cut to 53 bits or its
    successor; a successor of 54 bits is halved. *)

Lemma binary_round_aux_normal sx mx ex l :
  0 < mx ->
  0 < Zdigits2 mx - 53 ->
  - 1074 <= ex + (Zdigits2 mx - 53) ->
  ex + (Zdigits2 mx - 53) < 971 ->
  exists m2 m3 e3,
    mx / 2 ^ (Zdigits2 mx - 53) <= m2 <= mx / 2 ^ (Zdigits2 mx - 53) + 1 /\
    binary_round_aux prec emax sx mx ex l = S754_finite sx m3 e3 /\
    2 ^ 52 <= Zpos m3 < 2 ^ 53 /\
    (e3 = ex + (Zdigits2 mx - 53) /\ Zpos m3 = m2 \/
     e3 = ex + (Zdigits2 mx - 53) + 1 /\ 2 * Zpos m3 = m2).
Proof.
  intros Hmx Hk Hlo Hhi.
  set (k := Zdigits2 mx - 53) in *.
  assert (Hex : excess mx ex = k) by (apply excess_normal; lia).
  unfold binary_round_aux.
  destruct (shr_fexp_some mx ex l) as [Hm1 He1]; [lia | lia |].
  destruct (shr_fexp prec emax mx ex l) as [mrs1 e1].
  cbn [fst snd] in Hm1, He1. rewrite Hex in Hm1, He1. subst e1.
  set (m2 := round_nearest_even (shr_m mrs1) (loc_of_shr_record mrs1)).
  pose proof (round_nearest_even_range (shr_m mrs1) (loc_of_shr_record mrs1))
    as Hm2.
  fold m2 in Hm2. rewrite Hm1 in Hm2.
  exists m2.
  pose proof (Zdigits2_bounds mx Hmx) as [Hmlo Hmhi].
  assert (Hp : 0 < 2 ^ k) by (apply Z.pow_pos_nonneg; lia).
  assert (H52 : 2 ^ 52 <= mx / 2 ^ k).
  { apply Z.div_le_lower_bound; [lia|].
    replace (Zdigits2 mx - 1) with (k + 52) in Hmlo by lia.
    rewrite Z.pow_add_r in Hmlo by lia. lia. }
  assert (H53 : mx / 2 ^ k < 2 ^ 53).
  { apply Z.div_lt_upper_bound; [lia|].
    replace (Zdigits2 mx) with (k + 53) in Hmhi by lia.
    rewrite Z.pow_add_r in Hmhi by lia. lia. }
  destruct (Z.eq_dec m2 (2 ^ 53)) as [Heq | Hne].
  - assert (Hd : Zdigits2 m2 = 54)
      by (apply Zdigits2_unique; [rewrite Heq; cbn; lia | lia]).
    assert (Hex2 : excess m2 (ex + k) = 1)
      by (rewrite excess_normal; lia).
    destruct (shr_fexp_some m2 (ex + k) loc_Exact) as [Hm3 He3];
      [lia | lia |].
    destruct (shr_fexp prec emax m2 (ex + k) loc_Exact) as [mrs3 e3].
    cbn [fst snd] in Hm3, He3. rewrite Hex2 in Hm3, He3. subst e3.
    rewrite Hm3, Heq. change (2 ^ 53 / 2 ^ 1) with (Zpos 4503599627370496).
    cbv beta iota.
    replace (ex + k + 1 <=? emax - prec) with true
      by (symmetry; apply Z.leb_le; unfold emax, prec; lia).
    do 2 eexists. split; [lia|]. split; [reflexivity|].
    split; [cbn; lia|]. right. split; reflexivity.
  - assert (Hd : Zdigits2 m2 = 53)
      by (apply Zdigits2_unique; [change (53 - 1) with 52; lia | lia]).
    assert (Hex2 : excess m2 (ex + k) <= 0)
      by (rewrite excess_normal; lia).
    rewrite (shr_fexp_none m2 (ex + k) loc_Exact Hex2).
    cbn [shr_record_of_loc shr_m].
    destruct m2 as [|p|p] eqn:Ep; try lia.
    replace (ex + k <=? emax - prec) with true
      by (symmetry; apply Z.leb_le; unfold emax, prec; lia).
    do 2 eexists. split; [lia|]. split; [reflexivity|].
    split; [lia|]. left. split; reflexivity.
Qed.

Lemma Zdigits2_gt m a : 0 <= a -> 2 ^ a <= m -> a < Zdigits2 m.
Proof.
  intros Ha Hm.
  assert (H0 : 0 < m) by (pose proof (Z.pow_pos_nonneg 2 a); lia).
  pose proof (Zdigits2_bounds m H0) as [_ Hhi].
  apply (Z.pow_lt_mono_r_iff 2); [lia | | lia].
  destruct m; try lia; cbn; lia.
Qed.

Lemma Zdigits2_le m a : 0 <= a -> 0 < m < 2 ^ a -> Zdigits2 m <= a.
Proof.
  intros Ha [H0 Hm].
  pose proof (Zdigits2_bounds m H0) as [Hlo _].
  assert (Zdigits2 m - 1 < a); [|lia].
  apply (Z.pow_lt_mono_r_iff 2); lia.
Qed.

Lemma Pos_iter_xO p q : Zpos (Pos.iter xO p q) = Zpos p * 2 ^ Zpos q.
Proof.
  induction q as [|q IH] using Pos.peano_ind.
  - cbn [Pos.iter]. rewrite Pos2Z.inj_xO. change (2 ^ 1) with 2. lia.
  - rewrite Pos.iter_succ, Pos2Z.inj_xO, IH, Pos2Z.inj_succ.
    rewrite Z.pow_succ_r by lia. lia.
Qed.

(** *** Conversion of integers *)

(** A positive integer below [2^52] converts exactly: the mantissa is the
    integer shifted to 53 bits. *)
Lemma of_Z_finite n :
  0 < n < 2 ^ 52 ->
  exists N,
    of_Z n = S754_finite false N (Zdigits2 n - 53) /\
    Zpos N = n * 2 ^ (53 - Zdigits2 n) /\
    2 ^ 52 <= Zpos N < 2 ^ 53.
Proof.
  intros [H0 Hn]. destruct n as [|p|p]; try lia.
  pose proof (Zdigits2_bounds (Zpos p) H0) as [Hlo Hhi].
  assert (Hb : 0 < Zdigits2 (Zpos p) <= 52).
  { split; [cbn; lia|]. apply Zdigits2_le; lia. }
  set (b := Zdigits2 (Zpos p)) in *.
  unfold of_Z, binary_normalize, binary_round.
  change (Zpos (digits2_pos p)) with b.
  assert (He : fexp prec emax (b + 0) = b - 53)
    by (unfold fexp, emin, prec, emax; lia).
  rewrite He. unfold shl_align.
  destruct (b - 53 - 0) as [|q|q] eqn:Eq; try lia.
  pose proof (Pos_iter_xO p q) as HN.
  set (N := Pos.iter xO p q) in *.
  assert (Hq : Zpos q = 53 - b) by lia.
  rewrite Hq in HN.
  assert (HN52 : 2 ^ 52 <= Zpos N < 2 ^ 53).
  { rewrite HN.
    replace 52 with ((b - 1) + (53 - b)) at 1 by lia.
    replace 53 with (b + (53 - b)) at 4 by lia.
    rewrite !Z.pow_add_r by lia.
    assert (0 < 2 ^ (53 - b)) by (apply Z.pow_pos_nonneg; lia).
    nia. }
  exists N. split; [|split; assumption].
  assert (Hd : Zdigits2 (Zpos N) = 53)
    by (apply Zdigits2_unique; [change (53 - 1) with 52; lia | lia]).
  assert (Hex : excess (Zpos N) (b - 53) <= 0)
    by (rewrite excess_normal; lia).
  unfold binary_round_aux.
  rewrite (shr_fexp_none _ _ loc_Exact Hex).
  cbn [shr_record_of_loc shr_m loc_of_shr_record round_nearest_even].
  rewrite (shr_fexp_none _ _ loc_Exact Hex).
  cbn [shr_record_of_loc shr_m].
  replace (b - 53 <=? emax - prec) with true
    by (symmetry; apply Z.leb_le; unfold emax, prec; lia).
  reflexivity.
Qed.

(** Every [uint32_t] survives the round trip through [double]. *)
Lemma to_uint32_of_Z n : 0 <= n < modulus32 -> to_uint32 (of_Z n) = n.
Proof.
  intros [H0 Hn]. unfold modulus32 in Hn.
  destruct (Z.eq_dec n 0) as [-> | Hnz]; [reflexivity|].
  destruct (of_Z_finite n) as (N & -> & HN & _); [lia|].
  pose proof (Zdigits2_bounds n ltac:(lia)) as [Hlo Hhi].
  assert (Hb : 0 < Zdigits2 n <= 32).
  { split; [destruct n; try lia; cbn; lia|]. apply Zdigits2_le; lia. }
  unfold to_uint32, trunc.
  replace (0 <=? Zdigits2 n - 53) with false
    by (symmetry; apply Z.leb_gt; lia).
  replace (- (Zdigits2 n - 53)) with (53 - Zdigits2 n) by lia.
  rewrite HN, Z.div_mul
    by (apply Z.pow_nonzero; lia).
  replace ((- 2 ^ 63 <? n) && (n <? 2 ^ 63)) with true.
  - apply wrap32_small. unfold modulus32. lia.
  - symmetry. apply andb_true_intro. split; apply Z.ltb_lt; lia.
Qed.

(** *** Products of normal numbers *)

(** The product of two 53-bit mantissas in the normal range. *)
Lemma mul_normal N eN M eM :
  2 ^ 52 <= Zpos N < 2 ^ 53 ->
  2 ^ 52 <= Zpos M < 2 ^ 53 ->
  - 1074 <= eN + eM + 52 ->
  eN + eM + 53 < 971 ->
  exists k m2 m3 e3,
    (k = 52 \/ k = 53) /\
    2 ^ (k + 52) <= Zpos N * Zpos M < 2 ^ (k + 53) /\
    Zpos N * Zpos M / 2 ^ k <= m2 <= Zpos N * Zpos M / 2 ^ k + 1 /\
    mul (S754_finite false N eN) (S754_finite false M eM)
    = S754_finite false m3 e3 /\
    2 ^ 52 <= Zpos m3 < 2 ^ 53 /\
    (e3 = eN + eM + k /\ Zpos m3 = m2 \/
     e3 = eN + eM + k + 1 /\ 2 * Zpos m3 = m2).
Proof.
  intros HN HM Hlo Hhi.
  unfold mul, SFmul. cbn [xorb]. rewrite Pos2Z.inj_mul.
  set (mx := Zpos N * Zpos M).
  assert (Hmx : 2 ^ 104 <= mx < 2 ^ 106).
  { change (2 ^ 104) with (2 ^ 52 * 2 ^ 52).
    change (2 ^ 106) with (2 ^ 53 * 2 ^ 53). unfold mx. nia. }
  assert (H0 : 0 < mx) by lia.
  assert (Hd1 : 104 < Zdigits2 mx) by (apply Zdigits2_gt; lia).
  assert (Hd2 : Zdigits2 mx <= 106) by (apply Zdigits2_le; lia).
  pose proof (Zdigits2_bounds mx H0) as Hb.
  destruct (binary_round_aux_normal false mx (eN + eM) loc_Exact)
    as (m2 & m3 & e3 & Hm2 & Hr & Hm3 & Hcase); [lia | lia | lia | lia |].
  exists (Zdigits2 mx - 53), m2, m3, e3.
  split; [lia|]. split.
  - replace (Zdigits2 mx - 53 + 52) with (Zdigits2 mx - 1) by lia.
    replace (Zdigits2 mx - 53 + 53) with (Zdigits2 mx) by lia.
    exact Hb.
  - split; [exact Hm2|]. split; [exact Hr|]. split; [exact Hm3|].
    destruct Hcase as [[-> ->] | [-> <-]]; [left | right]; split; lia.
Qed.

(** The integral part of such a product, when it lies below [2^53]. *)
Lemma trunc_mul_normal N eN M eM :
  2 ^ 52 <= Zpos N < 2 ^ 53 ->
  2 ^ 52 <= Zpos M < 2 ^ 53 ->
  - 1074 <= eN + eM + 52 ->
  eN + eM + 53 < 0 ->
  exists k m2,
    (k = 52 \/ k = 53) /\
    2 ^ (k + 52) <= Zpos N * Zpos M < 2 ^ (k + 53) /\
    Zpos N * Zpos M / 2 ^ k <= m2 <= Zpos N * Zpos M / 2 ^ k + 1 /\
    trunc (mul (S754_finite false N eN) (S754_finite false M eM))
    = Some (m2 / 2 ^ (- (eN + eM + k))).
Proof.
  intros HN HM Hlo Hhi.
  destruct (mul_normal N eN M eM HN HM Hlo ltac:(lia))
    as (k & m2 & m3 & e3 & Hk & Hprod & Hm2 & -> & Hm3 & Hcase).
  exists k, m2. split; [exact Hk|]. split; [exact Hprod|].
  split; [exact Hm2|].
  unfold trunc. f_equal.
  destruct Hcase as [[-> ->] | [-> <-]].
  - replace (0 <=? eN + eM + k) with false
      by (symmetry; apply Z.leb_gt; lia).
    reflexivity.
  - destruct (0 <=? eN + eM + k + 1) eqn:E0;
      [apply Z.leb_le in E0 | apply Z.leb_gt in E0].
    + replace (eN + eM + k + 1) with 0 by lia.
      replace (- (eN + eM + k)) with 1 by lia.
      change (2 ^ 0) with 1. change (2 ^ 1) with 2.
      rewrite Z.mul_1_r, Z.mul_comm, Z.div_mul by lia. reflexivity.
    + replace (- (eN + eM + k)) with (1 + - (eN + eM + k + 1)) by lia.
      rewrite Z.pow_add_r by lia. change (2 ^ 1) with 2.
      rewrite Z.div_mul_cancel_l; [reflexivity | | lia].
      apply Z.pow_nonzero; lia.
Qed.

(** Division by [2.0] of a normal number lowers the exponent by one. *)
Lemma div_d2 m e :
  2 ^ 52 <= Zpos m < 2 ^ 53 ->
  - 1072 <= e <= 971 ->
  div (S754_finite false m e) d2 = S754_finite false m (e - 1).
Proof.
  intros Hm He.
  assert (Hd : Zdigits2 (Zpos m) = 53)
    by (apply Zdigits2_unique; [change (53 - 1) with 52; lia | lia]).
  unfold div, SFdiv, d2, SFdiv_core_binary. cbn [xorb].
  rewrite Hd. change (Zdigits2 4503599627370496) with 53.
  replace (Z.min (fexp prec emax (53 + e - (53 + -51))) (e - -51))
    with (e - 2) by (unfold fexp, emin, prec, emax; lia).
  replace (e - -51 - (e - 2)) with 53 by lia.
  rewrite Z.shiftl_mul_pow2 by lia.
  assert (Hq : Z.div_eucl (Zpos m * 2 ^ 53) 4503599627370496
               = (Zpos m~0, 0)).
  { pose proof (Z.div_eucl_eq (Zpos m * 2 ^ 53) 4503599627370496
                  ltac:(lia)) as Heq.
    pose proof (Z.mod_pos_bound (Zpos m * 2 ^ 53) 4503599627370496
                  ltac:(lia)) as Hr.
    unfold Z.modulo in Hr.
    destruct (Z.div_eucl (Zpos m * 2 ^ 53) 4503599627370496) as [q r].
    change (2 ^ 53) with 9007199254740992 in Heq.
    f_equal; lia. }
  rewrite Hq.
  change (new_location 4503599627370496 0) with loc_Exact.
  unfold binary_round_aux.
  assert (Hd2 : Zdigits2 (Zpos m~0) = 54)
    by (apply Zdigits2_unique; [change (54 - 1) with 53; lia | lia]).
  unfold shr_fexp at 1. rewrite Hd2.
  replace (fexp prec emax (54 + (e - 2)) - (e - 2)) with 1
    by (unfold fexp, emin, prec, emax; lia).
  cbn [shr_record_of_loc shr iter_pos shr_1 shr_m loc_of_shr_record orb
       round_nearest_even].
  assert (Hex : excess (Zpos m) (e - 2 + 1) <= 0)
    by (rewrite excess_normal; lia).
  rewrite (shr_fexp_none _ _ loc_Exact Hex).
  cbn [shr_record_of_loc shr_m].
  replace (e - 2 + 1 <=? emax - prec) with true
    by (symmetry; apply Z.leb_le; unfold emax, prec; lia).
  f_equal. lia.
Qed.

(** *** The BIC decrease factor *)

(** [0.8] is slightly above 4/5, and a window of [1000 * mss] bytes
    multiplied by it truncates to exactly [800 * mss]. *)
Lemma to_uint32_mul_0_8 mss :
  0 <= mss -> 1000 * mss < modulus32 ->
  to_uint32 (mul (of_Z (1000 * mss)) d0_8) = 800 * mss.
Proof.
  intros H0 Hfit. unfold modulus32 in Hfit.
  destruct (Z.eq_dec mss 0) as [-> | Hnz]; [reflexivity|].
  set (n := 1000 * mss) in *.
  destruct (of_Z_finite n) as (N & -> & HN & HN52); [lia|].
  set (b := Zdigits2 n) in *.
  assert (Hb : 0 < b <= 32).
  { split; [apply (Zdigits2_gt n 0); lia | apply Zdigits2_le; lia]. }
  unfold d0_8.
  destruct (trunc_mul_normal N (b - 53) 7205759403792794 (-53))
    as (k & m2 & Hk & Hprod & Hm2 & Ht); [lia | lia | lia | lia |].
  unfold to_uint32. rewrite Ht. clear Ht.
  set (A := 2 ^ (53 - b)) in *.
  set (t := mss * A).
  assert (HNt : Zpos N = 1000 * t) by (unfold t, n in *; lia).
  set (q := - (b - 53 + -53 + k)) in *.
  assert (Hq : 0 < q) by lia.
  assert (Hkq : 2 ^ k * 2 ^ q = A * 2 ^ 53).
  { unfold A, q. rewrite <- !Z.pow_add_r by lia. f_equal. lia. }
  assert (Hk52 : 2 ^ 52 <= 2 ^ k) by (apply Z.pow_le_mono_r; lia).
  assert (Hq2 : 2 <= 2 ^ q)
    by (change 2 with (2 ^ 1) at 1; apply Z.pow_le_mono_r; lia).
  assert (Hcut : Zpos N * 7205759403792794 / 2 ^ k = 800 * mss * 2 ^ q).
  { symmetry. apply Z.div_unique with (400 * t).
    - left. lia.
    - replace (2 ^ k * (800 * mss * 2 ^ q))
        with (800 * mss * (2 ^ k * 2 ^ q)) by ring.
      rewrite Hkq, HNt. unfold t. change (2 ^ 53) with 9007199254740992.
      ring. }
  rewrite Hcut in Hm2.
  assert (Hv : m2 / 2 ^ q = 800 * mss).
  { symmetry. apply Z.div_unique with (m2 - 800 * mss * 2 ^ q).
    - left. lia.
    - ring. }
  rewrite Hv.
  replace ((- 2 ^ 63 <? 800 * mss) && (800 * mss <? 2 ^ 63)) with true.
  - apply wrap32_small. unfold modulus32. lia.
  - symmetry. apply andb_true_intro. split; apply Z.ltb_lt; lia.
Qed.

(** *** The fast-convergence factor of CUBIC *)

(** With [beta = 0.7] the binary64 computation of [cwnd * (2 - beta) / 2]
    truncates to the integral part of [13 * cwnd / 20], for every
    [uint32_t] window. *)
Lemma to_uint32_fast_convergence c :
  0 <= c < modulus32 ->
  to_uint32 (div (mul (of_Z c) (sub d2 d0_7)) d2) = 13 * c / 20.
Proof.
  intros [H0 Hc]. unfold modulus32 in Hc.
  destruct (Z.eq_dec c 0) as [-> | Hnz]; [reflexivity|].
  destruct (of_Z_finite c) as (N & -> & HN & HN52); [lia|].
  set (b := Zdigits2 c) in *.
  assert (Hb : 0 < b <= 32).
  { split; [apply (Zdigits2_gt c 0); lia | apply Zdigits2_le; lia]. }
  change (sub d2 d0_7) with (S754_finite false 5854679515581645 (-52)).
  destruct (mul_normal N (b - 53) 5854679515581645 (-52))
    as (k & m2 & m3 & e3 & Hk & Hprod & Hm2 & -> & Hm3 & Hcase);
    [lia | lia | lia | lia |].
  rewrite div_d2 by (destruct Hcase as [[-> _] | [-> _]]; lia).
  set (A := 2 ^ (53 - b)) in *.
  set (t := Zpos N) in *.
  set (q := 106 - b - k).
  assert (Hq : 0 < q) by (unfold q; lia).
  set (K := 2 ^ k) in *. set (Q := 2 ^ q).
  assert (HKQ : K * Q = A * 2 ^ 53).
  { unfold K, Q, A, q. rewrite <- !Z.pow_add_r by lia. f_equal. lia. }
  assert (HA : 2 ^ 21 <= A) by (apply Z.pow_le_mono_r; lia).
  assert (HK : 0 < K <= 2 ^ 53).
  { split; [apply Z.pow_pos_nonneg; lia | apply Z.pow_le_mono_r; lia]. }
  assert (HQ : 0 < Q) by (apply Z.pow_pos_nonneg; lia).
  set (v := 13 * c / 20).
  assert (Hv : 20 * v <= 13 * c <= 20 * v + 19).
  { unfold v. pose proof (Z.mul_div_le (13 * c) 20 ltac:(lia)).
    pose proof (Z.mul_succ_div_gt (13 * c) 20 ltac:(lia)). lia. }
  set (u := v * A).
  assert (Hu : 20 * u <= 13 * t <= 20 * u + 19 * A).
  { unfold u. rewrite HN. nia. }
  change (2 ^ 52) with 4503599627370496 in *.
  change (2 ^ 53) with 9007199254740992 in *.
  change (2 ^ 21) with 2097152 in *.
  assert (HvQK : K * (v * Q) = u * 9007199254740992).
  { unfold u. replace (K * (v * Q)) with (v * (K * Q)) by ring.
    rewrite HKQ. ring. }
  assert (Hlow : v * Q <= t * 5854679515581645 / K).
  { apply Z.div_le_lower_bound; [lia|]. rewrite HvQK. lia. }
  assert (Hupp : t * 5854679515581645 / K < (v + 1) * Q - 1).
  { apply Z.div_lt_upper_bound; [lia|].
    replace (K * ((v + 1) * Q - 1)) with (K * (v * Q) + K * Q - K) by ring.
    rewrite HvQK, HKQ. lia. }
  assert (Hm2Q : m2 / Q = v).
  { symmetry. apply Z.div_unique with (m2 - v * Q); [left; lia | ring]. }
  assert (Ht : trunc (S754_finite false m3 (e3 - 1)) = Some v).
  { unfold trunc.
    replace (0 <=? e3 - 1) with false
      by (symmetry; apply Z.leb_gt;
          destruct Hcase as [[-> _] | [-> _]]; lia).
    f_equal. rewrite <- Hm2Q.
    destruct Hcase as [[-> ->] | [-> <-]].
    - f_equal. unfold Q, q. f_equal. lia.
    - unfold Q.
      replace q with (1 + - (b - 53 + -52 + k + 1 - 1)) by (unfold q; lia).
      rewrite Z.pow_add_r by lia. change (2 ^ 1) with 2.
      rewrite Z.div_mul_cancel_l; [reflexivity | | lia].
      apply Z.pow_nonzero; lia. }
  unfold to_uint32. rewrite Ht.
  assert (Hvr : 0 <= v < 4294967296) by lia.
  replace ((- 2 ^ 63 <? v) && (v <? 2 ^ 63)) with true.
  - apply wrap32_small. unfold modulus32. lia.
  - symmetry. apply andb_true_intro. split; apply Z.ltb_lt; lia.
Qed.

(** *** Signs and zeros *)

Lemma binary_round_aux_not_negative mx ex l :
  not_negative (binary_round_aux prec emax false mx ex l).
Proof.
  unfold binary_round_aux, not_negative.
  destruct (shr_fexp prec emax mx ex l) as [mrs1 e1].
  destruct (shr_fexp prec emax _ e1 loc_Exact) as [mrs2 e2].
  destruct (shr_m mrs2); try reflexivity.
  destruct (e2 <=? emax - prec); reflexivity.
Qed.

Lemma of_Z_not_negative n : 0 <= n -> not_negative (of_Z n).
Proof.
  intros Hn. destruct n as [|p|p]; try lia; [reflexivity|].
  unfold of_Z, binary_normalize, binary_round.
  destruct (shl_align _ _ _) as [mz ez].
  apply binary_round_aux_not_negative.
Qed.

Lemma div_not_negative x M e :
  not_negative x -> not_negative (div x (S754_finite false M e)).
Proof.
  unfold div, SFdiv. destruct x as [s|s| |s m ex]; try reflexivity.
  - destruct s; [discriminate | reflexivity].
  - destruct s; [discriminate | intros _]. cbn [xorb].
    destruct (SFdiv_core_binary _ _ _ _ _ _) as [[mz ez] lz].
    apply binary_round_aux_not_negative.
Qed.

Lemma mul_not_negative x M e :
  not_negative x -> not_negative (mul x (S754_finite false M e)).
Proof.
  unfold mul, SFmul. destruct x as [s|s| |s m ex]; try reflexivity.
  - destruct s; [discriminate | reflexivity].
  - destruct s; [discriminate | intros _]. cbn [xorb].
    apply binary_round_aux_not_negative.
Qed.

Lemma sub_diag x : is_finite x = true -> sub x x = S754_zero false.
Proof.
  unfold sub, SFsub. destruct x as [s|s| |s m e]; try discriminate.
  - destruct s; reflexivity.
  - intros _. cbv zeta. rewrite Z.sub_diag. reflexivity.
Qed.

Lemma mul_zero_r x s :
  is_finite x = true -> exists s', mul x (S754_zero s) = S754_zero s'.
Proof.
  unfold mul, SFmul. destruct x as [sx|sx| |sx m e]; try discriminate;
    intros _; eexists; reflexivity.
Qed.

End DoubleFacts.

(** ** The Vegas decision rule *)

Module VegasFacts.
Import Vegas.

Lemma VegasUpdate_eq s mss diff :
  CalculateDiff s = Some diff ->
  VegasUpdate s mss =
    Some (if diff <? to_int32 (m_alpha s)
          then set_cwnd (add32 (m_cwnd s) mss) s
          else if to_int32 (m_beta s) <? diff
               then set_cwnd (sub32 (m_cwnd s) mss) s
               else s).
Proof.
  intros H. unfold VegasUpdate. rewrite H.
  destruct (diff <? to_int32 (m_alpha s)); [reflexivity|].
  destruct (to_int32 (m_beta s) <? diff); reflexivity.
Qed.

(** With equal RTTs the estimated backlog is zero. *)
Lemma CalculateDiff_equal_rtt s :
  m_currentRTT s = m_baseRTT s -> m_baseRTT s <> 0 ->
  CalculateDiff s = Some 0.
Proof.
  intros Heq Hnz. unfold CalculateDiff, div32.
  rewrite Heq. unfold sub32. rewrite Z.sub_diag.
  apply Z.eqb_neq in Hnz. rewrite Hnz.
  change (to_int32 (wrap32 0)) with 0. change (wrap32 0) with 0.
  unfold mul32. rewrite Z.mul_0_r. change (wrap32 0) with 0.
  rewrite Z.div_0_l by (apply Z.eqb_neq; assumption).
  reflexivity.
Qed.

End VegasFacts.

(** C4. The congestion-avoidance step of Vegas follows the three-way rule
    on the computed [diff], for thresholds [0 <= alpha <= beta] (below
    [2^31], so that their casts to [int32_t] are exact): below [alpha] the
    window grows by exactly one MSS, above [beta] it shrinks by exactly one
    MSS, in between it is unchanged.  The additions are those of
    [uint32_t]; they are the plain sum and difference whenever these fit the
    type. *)
Theorem vegas_three_way_rule (s : Vegas.State) (mss diff : Z) :
  Vegas.CalculateDiff s = Some diff ->
  0 <= Vegas.m_alpha s <= Vegas.m_beta s ->
  Vegas.m_beta s < 2 ^ 31 ->
  exists s',
    Vegas.VegasUpdate s mss = Some s' /\
    (diff < Vegas.m_alpha s ->
       Vegas.m_cwnd s' = add32 (Vegas.m_cwnd s) mss /\
       (0 <= Vegas.m_cwnd s + mss < modulus32 ->
          Vegas.m_cwnd s' = Vegas.m_cwnd s + mss)) /\
    (Vegas.m_beta s < diff ->
       Vegas.m_cwnd s' = sub32 (Vegas.m_cwnd s) mss /\
       (0 <= Vegas.m_cwnd s - mss < modulus32 ->
          Vegas.m_cwnd s' = Vegas.m_cwnd s - mss)) /\
    (Vegas.m_alpha s <= diff <= Vegas.m_beta s -> s' = s).
Proof.
  intros Hdiff Hab Hb.
  rewrite (VegasFacts.VegasUpdate_eq s mss diff Hdiff).
  rewrite (to_int32_small (Vegas.m_alpha s)) by lia.
  rewrite (to_int32_small (Vegas.m_beta s)) by lia.
  eexists; split; [reflexivity|].
  destruct (diff <? Vegas.m_alpha s) eqn:Ea;
    [apply Z.ltb_lt in Ea | apply Z.ltb_ge in Ea].
  - repeat split; try lia.
    intros Hfit. simpl. now apply add32_small.
  - destruct (Vegas.m_beta s <? diff) eqn:Eb;
      [apply Z.ltb_lt in Eb | apply Z.ltb_ge in Eb].
    + repeat split; try lia.
      intros Hfit. simpl. now apply sub32_small.
    + repeat split; try lia.
Qed.

Lemma vegas_three_way_rule_witness :
  exists s',
    Vegas.VegasUpdate (Sample.vegas 10 100000 150000) 1460 = Some s' /\
    Vegas.m_cwnd s' = 10 * 1460 - 1460.
Proof.
  destruct (vegas_three_way_rule (Sample.vegas 10 100000 150000) 1460 5)
    as (s' & Hrun & _ & Hdec & _).
  - reflexivity.
  - vm_compute. split; discriminate.
  - reflexivity.
  - exists s'. split; [exact Hrun|].
    apply Hdec; [reflexivity | vm_compute; split; discriminate || reflexivity].
Defined.

(** C5 (as stated, refuted).  With [baseRTT = currentRTT = 100 ms] and the
    thresholds [alpha = 2], [beta = 4], one step takes a window of ten
    segments to eleven segments: the window is not unchanged. *)
Lemma vegas_equal_rtt_counterexample :
  Vegas.CalculateDiff (Sample.vegas 10 100000 100000) = Some 0 /\
  exists s',
    Vegas.VegasUpdate (Sample.vegas 10 100000 100000) 1460 = Some s' /\
    Vegas.m_cwnd s' = 11 * 1460 /\
    Vegas.m_cwnd s' <> Vegas.m_cwnd (Sample.vegas 10 100000 100000).
Proof.
  split; [reflexivity|].
  eexists; split; [reflexivity|]. split; [reflexivity|].
  vm_compute. discriminate.
Qed.

(** C5 (amended).  With [baseRTT = currentRTT] (for instance 100 ms) the
    computed [diff] is zero, which is below any positive [alpha], and one
    congestion-avoidance step increases the window by exactly one MSS. *)
Theorem vegas_equal_rtt_grows (s : Vegas.State) (mss : Z) :
  Vegas.m_currentRTT s = Vegas.m_baseRTT s ->
  Vegas.m_baseRTT s <> 0 ->
  0 < Vegas.m_alpha s < 2 ^ 31 ->
  Vegas.CalculateDiff s = Some 0 /\
  Vegas.VegasUpdate s mss = Some (Vegas.set_cwnd (add32 (Vegas.m_cwnd s) mss) s)
  /\ (0 <= Vegas.m_cwnd s + mss < modulus32 ->
      add32 (Vegas.m_cwnd s) mss = Vegas.m_cwnd s + mss).
Proof.
  intros Heq Hnz Ha.
  pose proof (VegasFacts.CalculateDiff_equal_rtt s Heq Hnz) as Hd.
  split; [exact Hd|]. split.
  - rewrite (VegasFacts.VegasUpdate_eq s mss 0 Hd).
    rewrite to_int32_small by lia.
    replace (0 <? Vegas.m_alpha s) with true
      by (symmetry; apply Z.ltb_lt; lia).
    reflexivity.
  - apply add32_small.
Qed.

Lemma vegas_equal_rtt_grows_witness :
  Vegas.VegasUpdate (Sample.vegas 10 100000 100000) 1460
  = Some (Vegas.set_cwnd (add32 (10 * 1460) 1460)
            (Sample.vegas 10 100000 100000)).
Proof.
  apply (vegas_equal_rtt_grows (Sample.vegas 10 100000 100000) 1460).
  - reflexivity.
  - discriminate.
  - vm_compute. split; reflexivity.
Defined.

(** ** Frame properties of the two window-growth strategies *)

Ltac break_if :=
  match goal with
  | |- context [if ?c then _ else _] => destruct c eqn:?
  end.

Ltac break_let :=
  match goal with
  | |- context [let '(_, _) := ?e in _] => destruct e eqn:?
  end.

Module BICFacts.
Import BIC.

Lemma grow_maxCwnd b mss dist : m_maxCwnd (grow b mss dist) = m_maxCwnd b.
Proof. unfold grow. repeat break_if; reflexivity. Qed.

Lemma BicUpdate_maxCwnd b socket b' :
  BicUpdate b socket = Some b' -> m_maxCwnd b' = m_maxCwnd b.
Proof.
  unfold BicUpdate. destruct socket as [sk|].
  - destruct (div32 _ _); [|discriminate].
    intros [= <-]. now rewrite grow_maxCwnd.
  - now intros [= <-].
Qed.

Lemma BicUpdate_returns b sk :
  mss_bytes_ sk <> 0 -> exists b', BicUpdate b (Some sk) = Some b'.
Proof.
  intros Hnz. unfold BicUpdate, div32.
  apply Z.eqb_neq in Hnz. rewrite Hnz. eauto.
Qed.

(** What a call with a live socket and a positive count does: the grown
    window [g] is capped by [m_maxCwnd] and stored. *)
Lemma BIC_IncreaseWindow_inv b sk n b' socket' :
  n <> 0 ->
  IncreaseWindow b (Some sk) n = Some (b', socket') ->
  m_maxCwnd b' = m_maxCwnd b /\
  socket' = Some (set_cwnd_ (m_cwnd b') sk) /\
  m_cwnd b' <= m_maxCwnd b'.
Proof.
  intros Hn. unfold IncreaseWindow.
  apply Z.eqb_neq in Hn. rewrite Hn.
  match goal with
  | |- match ?e with _ => _ end = _ -> _ => destruct e as [g|] eqn:Eg
  end; [|discriminate].
  intros [= <- <-]. cbn [m_maxCwnd m_cwnd set_cwnd].
  assert (Hmax : m_maxCwnd g = m_maxCwnd b).
  { revert Eg. repeat break_if; try (intros [= <-]; reflexivity).
    unfold CongestionAvoidance. rewrite Hn.
    destruct (BicUpdate _ _) as [b1|] eqn:Eu; [|discriminate].
    intros [= <-]. apply BicUpdate_maxCwnd in Eu. exact Eu. }
  rewrite Hmax. repeat split. apply Z.le_min_r.
Qed.

Lemma BIC_IncreaseWindow_returns b sk n :
  mss_bytes_ sk <> 0 -> exists w', IncreaseWindow b (Some sk) n = Some w'.
Proof.
  intros Hnz. unfold IncreaseWindow.
  destruct (n =? 0) eqn:Hn; [eauto|].
  repeat break_if; eauto.
  unfold CongestionAvoidance. rewrite Hn.
  destruct (BicUpdate_returns
              (set_ssthresh (ssthresh_ sk) (set_cwnd (cwnd_ sk) b)) sk Hnz)
    as [b1 Hb1].
  rewrite Hb1. eauto.
Qed.

End BICFacts.

Module CubicFacts.
Import Cubic.

Lemma tcp_friendly_frame c sk t target c' target' :
  tcp_friendly c sk t target = (c', target') ->
  m_maxCwnd c' = m_maxCwnd c /\ m_cwnd c' = m_cwnd c.
Proof.
  unfold tcp_friendly. repeat break_if; intros [= <- <-]; split; reflexivity.
Qed.

(** One CUBIC update leaves the window alone or adds one MSS to it. *)
Lemma CubicUpdate_inv now c sk c' :
  CubicUpdate now c (Some sk) = Some c' ->
  m_maxCwnd c' = m_maxCwnd c /\
  (m_cwnd c' = m_cwnd c \/ m_cwnd c' = add32 (m_cwnd c) (mss_bytes_ sk)).
Proof.
  unfold CubicUpdate.
  destruct (tcp_friendly _ _ _ _) as [c1 target] eqn:Et.
  apply tcp_friendly_frame in Et. cbn in Et. destruct Et as [Hm Hc].
  unfold div32.
  repeat break_if; try discriminate; intros [= <-]; cbn;
    rewrite ?Hm, ?Hc; auto.
Qed.

Lemma CubicUpdate_returns now c sk :
  mss_bytes_ sk <> 0 -> exists c', CubicUpdate now c (Some sk) = Some c'.
Proof.
  intros Hnz. unfold CubicUpdate, div32.
  apply Z.eqb_neq in Hnz. rewrite Hnz.
  destruct (tcp_friendly _ _ _ _) as [c1 target].
  repeat break_if; eauto.
Qed.

Lemma SlowStart_frame c socket n w c' :
  SlowStart c socket n = (w, c') ->
  m_maxCwnd c' = m_maxCwnd c /\ m_cwnd c' = m_cwnd c
  /\ m_ssthresh c' = m_ssthresh c.
Proof.
  unfold SlowStart. destruct socket as [sk|].
  - repeat break_if; intros [= <- <-]; repeat split; reflexivity.
  - intros [= <- <-]. repeat split; reflexivity.
Qed.

Lemma Cubic_IncreaseWindow_inv now c sk n c' socket' :
  n <> 0 ->
  IncreaseWindow now c (Some sk) n = Some (c', socket') ->
  m_maxCwnd c' = m_maxCwnd c /\
  socket' = Some (set_cwnd_ (m_cwnd c') sk) /\
  m_cwnd c' <= m_maxCwnd c'.
Proof.
  intros Hn. unfold IncreaseWindow.
  apply Z.eqb_neq in Hn. rewrite Hn.
  match goal with
  | |- match ?e with _ => _ end = _ -> _ => destruct e as [g|] eqn:Eg
  end; [|discriminate].
  intros [= <- <-]. cbn [m_maxCwnd m_cwnd set_cwnd].
  assert (Hmax : m_maxCwnd g = m_maxCwnd c).
  { revert Eg. destruct (TCPState.eqb _ _).
    - intros [= <-]. reflexivity.
    - break_if.
      + destruct (SlowStart _ _ _) as [w c1] eqn:Es.
        apply SlowStart_frame in Es. intros [= <-]. cbn. apply Es.
      + unfold CongestionAvoidance. rewrite Hn.
        destruct (CubicUpdate _ _ _) as [c1|] eqn:Eu; [|discriminate].
        intros [= <-]. apply CubicUpdate_inv in Eu. cbn. apply Eu. }
  rewrite Hmax. repeat split. apply Z.le_min_r.
Qed.

Lemma Cubic_IncreaseWindow_returns now c sk n :
  mss_bytes_ sk <> 0 ->
  exists w', IncreaseWindow now c (Some sk) n = Some w'.
Proof.
  intros Hnz. unfold IncreaseWindow.
  destruct (n =? 0) eqn:Hn; [eauto|].
  destruct (TCPState.eqb _ _); [eauto|].
  break_if.
  - destruct (SlowStart _ _ _). eauto.
  - unfold CongestionAvoidance. rewrite Hn.
    destruct (CubicUpdate_returns now
                (set_ssthresh (ssthresh_ sk) (set_cwnd (cwnd_ sk) c)) sk Hnz)
      as [c1 Hc1].
    rewrite Hc1. eauto.
Qed.

End CubicFacts.

(** C9. For BIC and for CUBIC, [IncreaseWindow] with zero acknowledged
    segments returns at once: the socket ([cwnd], [ssthresh] and the rest)
    and the whole strategy object are unchanged. *)
Theorem increase_window_zero_segments_noop
        (cbrt : Double.double -> Double.double) (w : World) (now : Z) :
  Engine.step cbrt w (Call.IncreaseWindow now 0) = Some w.
Proof. destruct w as [[b|c] [sk|]]; reflexivity. Qed.

(** C10 (as stated, refuted).  A default BIC object with [m_maxCwnd = 65535]
    is called with a window of 1000 segments and zero acknowledged
    segments: the call returns early and the window stays above the bound. *)
Lemma increase_window_cap_counterexample :
  BIC.IncreaseWindow (BIC.init 0) (Some (Sample.socket 1000)) 0
  = Some (BIC.init 0, Some (Sample.socket 1000)) /\
  BIC.m_maxCwnd (BIC.init 0) = 65535 /\
  BIC.m_maxCwnd (BIC.init 0) < cwnd_ (Sample.socket 1000).
Proof. repeat split. Qed.

(** C10 (amended).  For BIC and for CUBIC, a call of [IncreaseWindow] on a
    live socket that acknowledges at least one segment leaves [cwnd] at most
    [m_maxCwnd] (65535 after construction, and never changed by the call);
    the call returns whenever the MSS is not zero. *)
Theorem increase_window_caps_cwnd
        (cbrt : Double.double -> Double.double)
        (s : Strategy) (sk : SocketState) (now n : Z) :
  n <> 0 ->
  (mss_bytes_ sk <> 0 ->
   exists w', Engine.step cbrt (s, Some sk) (Call.IncreaseWindow now n)
              = Some w') /\
  (forall s' socket',
     Engine.step cbrt (s, Some sk) (Call.IncreaseWindow now n)
     = Some (s', socket') ->
     exists sk',
       socket' = Some sk' /\
       cwnd_ sk' <= Engine.m_maxCwnd s' /\
       Engine.m_maxCwnd s' = Engine.m_maxCwnd s) /\
  Engine.m_maxCwnd (UseBIC (BIC.init now)) = 65535 /\
  Engine.m_maxCwnd (UseCubic (Cubic.init now)) = 65535.
Proof.
  intros Hn. split; [|split; [|split; reflexivity]].
  - intros Hnz. destruct s as [b|c]; unfold Engine.step.
    + destruct (BICFacts.BIC_IncreaseWindow_returns b sk n Hnz) as [w' ->].
      cbn. eauto.
    + destruct (CubicFacts.Cubic_IncreaseWindow_returns now c sk n Hnz)
        as [w' ->].
      cbn. eauto.
  - intros s' socket'. destruct s as [b|c]; unfold Engine.step.
    + destruct (BIC.IncreaseWindow b (Some sk) n) as [[b' so]|] eqn:E;
        [|discriminate].
      cbn. intros [= <- <-].
      destruct (BICFacts.BIC_IncreaseWindow_inv _ _ _ _ _ Hn E)
        as (Hm & -> & Hle).
      eexists; split; [reflexivity|]. cbn. auto.
    + destruct (Cubic.IncreaseWindow now c (Some sk) n) as [[c' so]|] eqn:E;
        [|discriminate].
      cbn. intros [= <- <-].
      destruct (CubicFacts.Cubic_IncreaseWindow_inv _ _ _ _ _ _ Hn E)
        as (Hm & -> & Hle).
      eexists; split; [reflexivity|]. cbn. auto.
Qed.

Lemma increase_window_caps_cwnd_witness :
  exists w',
    Engine.step Sample.cbrt_stub
      (UseBIC (BIC.init 0), Some (Sample.socket 1000))
      (Call.IncreaseWindow 0 1) = Some w'.
Proof.
  apply (increase_window_caps_cwnd Sample.cbrt_stub
           (UseBIC (BIC.init 0)) (Sample.socket 1000) 0 1).
  - discriminate.
  - discriminate.
Defined.

(** ** Loss and timeout handling *)

Arguments Double.mul : simpl never.
Arguments Double.div : simpl never.
Arguments Double.add : simpl never.
Arguments Double.sub : simpl never.
Arguments Double.ltb : simpl never.
Arguments Double.eqb : simpl never.
Arguments Double.of_Z : simpl never.
Arguments Double.to_uint32 : simpl never.
Arguments wrap32 : simpl never.
Arguments add32 : simpl never.
Arguments sub32 : simpl never.
Arguments mul32 : simpl never.
Arguments Z.max : simpl never.
Arguments Z.min : simpl never.
Arguments Z.mul : simpl never.

Module LossFacts.

Lemma CalculateK_frame cbrt c :
  Cubic.set_k (Cubic.m_k (Cubic.CalculateK cbrt c)) c
  = Cubic.CalculateK cbrt c.
Proof. unfold Cubic.CalculateK. repeat break_if; reflexivity. Qed.

Lemma CalculateK_lastMaxCwnd cbrt c :
  Cubic.m_lastMaxCwnd (Cubic.CalculateK cbrt c) = Cubic.m_lastMaxCwnd c.
Proof. rewrite <- CalculateK_frame. reflexivity. Qed.

Lemma CalculateK_ssthresh cbrt c :
  Cubic.m_ssthresh (Cubic.CalculateK cbrt c) = Cubic.m_ssthresh c.
Proof. rewrite <- CalculateK_frame. reflexivity. Qed.

(** The remembered maximum after [Cubic::GetSsThresh]. *)
Lemma Cubic_GetSsThresh_lastMaxCwnd cbrt c sk n :
  Cubic.m_lastMaxCwnd (snd (fst (Cubic.GetSsThresh cbrt c (Some sk) n)))
  = Engine.cubic_new_maximum c (cwnd_ sk).
Proof.
  unfold Cubic.GetSsThresh, Engine.cubic_new_maximum. cbn [fst snd].
  rewrite CalculateK_lastMaxCwnd. cbn.
  break_if; reflexivity.
Qed.

Lemma Cubic_GetSsThresh_socket cbrt c sk n :
  exists v,
    snd (Cubic.GetSsThresh cbrt c (Some sk) n) = Some (set_ssthresh_ v sk)
    /\ Cubic.m_ssthresh (snd (fst (Cubic.GetSsThresh cbrt c (Some sk) n)))
       = v
    /\ mul32 2 (mss_bytes_ sk) <= v.
Proof.
  unfold Cubic.GetSsThresh. cbn [fst snd].
  rewrite CalculateK_ssthresh. cbn.
  eexists; repeat split. apply Z.le_max_r.
Qed.

Lemma BIC_GetSsThresh_socket b sk n :
  exists v,
    snd (BIC.GetSsThresh b (Some sk) n) = Some (set_ssthresh_ v sk)
    /\ BIC.m_ssthresh (snd (fst (BIC.GetSsThresh b (Some sk) n))) = v
    /\ BIC.m_lastMaxCwnd (snd (fst (BIC.GetSsThresh b (Some sk) n)))
       = cwnd_ sk
    /\ mul32 2 (mss_bytes_ sk) <= v.
Proof.
  unfold BIC.GetSsThresh. cbn.
  eexists; repeat split. apply Z.le_max_r.
Qed.

End LossFacts.

(** C2 (as stated, refuted).  A default CUBIC object that remembers a
    maximum of 2000 segments handles [PacketLoss] with a window of 1000
    segments: fast convergence replaces the remembered maximum by
    [cwnd * (2 - beta) / 2 = 949000] bytes, which is neither
    [max(lastMaxCwnd, cwnd) = 2920000] nor the old value. *)
Lemma packet_loss_maximum_counterexample :
  let after :=
    Cubic.CwndEvent Sample.cbrt_stub 0 Sample.cubic_remembering
      (Some (Sample.socket 1000)) CongestionEvent.PacketLoss in
  Cubic.m_lastMaxCwnd (fst after) = 949000 /\
  Z.max (Cubic.m_lastMaxCwnd Sample.cubic_remembering)
        (cwnd_ (Sample.socket 1000)) = 2920000 /\
  Cubic.m_lastMaxCwnd (fst after)
  <> Z.max (Cubic.m_lastMaxCwnd Sample.cubic_remembering)
           (cwnd_ (Sample.socket 1000)) /\
  Cubic.m_lastMaxCwnd (fst after)
  <> Cubic.m_lastMaxCwnd Sample.cubic_remembering.
Proof. vm_compute. repeat split; try reflexivity; discriminate. Qed.

(** The same loss under BIC: [GetSsThresh] overwrites the maximum that
    [CwndEvent] has just kept, so the remembered maximum drops from 2000 to
    1000 segments. *)
Remark bic_packet_loss_overwrites_maximum :
  let after :=
    BIC.CwndEvent 0 Sample.bic_remembering
      (Some (Sample.socket 1000)) CongestionEvent.PacketLoss in
  BIC.m_lastMaxCwnd (fst after) = 1000 * 1460 /\
  BIC.m_lastMaxCwnd Sample.bic_remembering = 2000 * 1460.
Proof. vm_compute. split; reflexivity. Qed.

(** C2 (amended).  For BIC and for CUBIC and every prior state, a [Timeout]
    sets [cwnd] to exactly one MSS, the phase to [Loss], and clears the
    strategy memory (remembered maximum, counters, epoch restarted at the
    current time).  A [PacketLoss] does not clear the remembered maximum:
    when the window has reached it ([lastMaxCwnd <= cwnd]) the new value is
    [max(lastMaxCwnd, cwnd)], and under CUBIC with [cwnd < lastMaxCwnd] it is
    [cwnd * (2 - beta) / 2] if fast convergence is enabled and [cwnd]
    otherwise. *)
Theorem timeout_clears_packet_loss_remembers
        (cbrt : Double.double -> Double.double)
        (s : Strategy) (sk : SocketState) (now : Z) :
  (exists s' sk',
     Engine.step cbrt (s, Some sk)
       (Call.CwndEvent now CongestionEvent.Timeout) = Some (s', Some sk') /\
     cwnd_ sk' = mss_bytes_ sk /\
     tcp_state_ sk' = TCPState.Loss /\
     Engine.memory_cleared now s') /\
  (exists s' sk',
     Engine.step cbrt (s, Some sk)
       (Call.CwndEvent now CongestionEvent.PacketLoss) = Some (s', Some sk') /\
     (Engine.m_lastMaxCwnd s <= cwnd_ sk ->
      Engine.m_lastMaxCwnd s' = Z.max (Engine.m_lastMaxCwnd s) (cwnd_ sk)) /\
     (forall c, s = UseCubic c ->
      Engine.m_lastMaxCwnd s' = Engine.cubic_new_maximum c (cwnd_ sk))).
Proof.
  split.
  - destruct s as [b|c]; unfold Engine.step.
    + unfold BIC.CwndEvent.
      destruct (LossFacts.BIC_GetSsThresh_socket
                  (if BIC.m_lastMaxCwnd b
                      <? cwnd_ (set_congestion_event_ CongestionEvent.Timeout sk)
                   then BIC.set_lastMaxCwnd
                          (cwnd_ (set_congestion_event_
                                    CongestionEvent.Timeout sk)) b
                   else b)
                  (set_congestion_event_ CongestionEvent.Timeout sk) 0)
        as (v & Hs & _).
      destruct (BIC.GetSsThresh _ _ _) as [[r b1] so]. cbn in Hs. subst so.
      cbn. do 2 eexists. split; [reflexivity|]. cbn. repeat split.
    + unfold Cubic.CwndEvent.
      destruct (LossFacts.Cubic_GetSsThresh_socket cbrt c
                  (set_congestion_event_ CongestionEvent.Timeout sk) 0)
        as (v & Hs & _).
      destruct (Cubic.GetSsThresh _ _ _ _) as [[r c1] so]. cbn in Hs. subst so.
      cbn. do 2 eexists. split; [reflexivity|]. cbn. repeat split.
  - destruct s as [b|c]; unfold Engine.step.
    + unfold BIC.CwndEvent.
      destruct (LossFacts.BIC_GetSsThresh_socket
                  (if BIC.m_lastMaxCwnd b
                      <? cwnd_ (set_congestion_event_
                                  CongestionEvent.PacketLoss sk)
                   then BIC.set_lastMaxCwnd
                          (cwnd_ (set_congestion_event_
                                    CongestionEvent.PacketLoss sk)) b
                   else b)
                  (set_congestion_event_ CongestionEvent.PacketLoss sk) 0)
        as (v & Hs & _ & Hl & _).
      destruct (BIC.GetSsThresh _ _ _) as [[r b1] so].
      cbn in Hs, Hl. subst so.
      cbn. do 2 eexists. split; [reflexivity|]. cbn. split.
      * intros Hle. rewrite Hl. symmetry. now apply Z.max_r.
      * intros c [=].
    + unfold Cubic.CwndEvent.
      destruct (LossFacts.Cubic_GetSsThresh_socket cbrt c
                  (set_congestion_event_ CongestionEvent.PacketLoss sk) 0)
        as (v & Hs & _).
      pose proof (LossFacts.Cubic_GetSsThresh_lastMaxCwnd cbrt c
                  (set_congestion_event_ CongestionEvent.PacketLoss sk) 0)
        as Hl.
      destruct (Cubic.GetSsThresh _ _ _ _) as [[r c1] so].
      cbn in Hs, Hl. subst so.
      cbn. do 2 eexists. split; [reflexivity|]. cbn. split.
      * intros Hle. rewrite Hl. unfold Engine.cubic_new_maximum.
        replace (cwnd_ sk <? Cubic.m_lastMaxCwnd c) with false
          by (symmetry; apply Z.ltb_ge; exact Hle).
        rewrite andb_false_r. symmetry. now apply Z.max_r.
      * intros c' [= <-]. exact Hl.
Qed.

Lemma timeout_clears_packet_loss_remembers_witness :
  exists s' sk',
    Engine.step Sample.cbrt_stub
      (UseCubic Sample.cubic_remembering, Some (Sample.socket 3000))
      (Call.CwndEvent 7 CongestionEvent.PacketLoss) = Some (s', Some sk') /\
    Engine.m_lastMaxCwnd s' = 3000 * 1460.
Proof.
  destruct (timeout_clears_packet_loss_remembers Sample.cbrt_stub
              (UseCubic Sample.cubic_remembering) (Sample.socket 3000) 7)
    as (_ & s' & sk' & Hstep & Hmax & _).
  exists s', sk'. split; [exact Hstep|].
  rewrite Hmax; [reflexivity | vm_compute; discriminate].
Defined.

(** C8. When CUBIC reduces the window ([Cubic::GetSsThresh], called by the
    loss, timeout and ECN handlers), the remembered maximum becomes
    [cwnd * (2 - beta) / 2] (in binary64, truncated to [uint32_t]) if fast
    convergence is enabled and [cwnd < lastMaxCwnd], and [cwnd] otherwise.
    With the default [beta = 0.7] the binary64 value is exactly the integral
    part of [cwnd * 1.3 / 2 = 13 * cwnd / 20]. *)
Theorem cubic_fast_convergence
        (cbrt : Double.double -> Double.double)
        (c : Cubic.State) (sk : SocketState) (bytesInFlight : Z) :
  let lastMaxCwnd' :=
    Cubic.m_lastMaxCwnd
      (snd (fst (Cubic.GetSsThresh cbrt c (Some sk) bytesInFlight))) in
  lastMaxCwnd'
  = (if Cubic.m_fastConvergence c && (cwnd_ sk <? Cubic.m_lastMaxCwnd c)
     then Double.to_uint32
            (Double.div
               (Double.mul (Double.of_Z (cwnd_ sk))
                           (Double.sub Double.d2 (Cubic.m_cubicBeta c)))
               Double.d2)
     else cwnd_ sk) /\
  (Cubic.m_cubicBeta c = Double.d0_7 ->
   0 <= cwnd_ sk < modulus32 ->
   lastMaxCwnd'
   = if Cubic.m_fastConvergence c && (cwnd_ sk <? Cubic.m_lastMaxCwnd c)
     then 13 * cwnd_ sk / 20
     else cwnd_ sk).
Proof.
  cbv zeta.
  rewrite LossFacts.Cubic_GetSsThresh_lastMaxCwnd.
  unfold Engine.cubic_new_maximum. split; [reflexivity|].
  intros Hb Hc. rewrite Hb.
  destruct (Cubic.m_fastConvergence c && (cwnd_ sk <? Cubic.m_lastMaxCwnd c));
    [|reflexivity].
  apply DoubleFacts.to_uint32_fast_convergence. exact Hc.
Qed.

Lemma cubic_fast_convergence_witness :
  Cubic.m_lastMaxCwnd
    (snd (fst (Cubic.GetSsThresh Sample.cbrt_stub Sample.cubic_remembering
                 (Some (Sample.socket 1000)) 0)))
  = 13 * (1000 * 1460) / 20.
Proof.
  apply (cubic_fast_convergence Sample.cbrt_stub Sample.cubic_remembering
           (Sample.socket 1000) 0).
  - reflexivity.
  - vm_compute. split; [discriminate | reflexivity].
Defined.

(** ** The binary-search step of BIC *)


(** The state of the failing input is reached through the interface: a
    constructed object whose [GetSsThresh] has seen a window of 1000
    segments remembers it with the flag unset, and is then in the state
    [Sample.bic_after_loss] up to the threshold, which the growth step
    does not read. *)
Remark bic_midpoint_state_is_reached :
  BIC.set_ssthresh 2147483647
    (BIC.set_cwnd (500 * 1460)
       (snd (fst (BIC.GetSsThresh (BIC.init 0) (Some (Sample.socket 1000))
                    0))))
  = Sample.bic_after_loss.
Proof. reflexivity. Qed.

(** ** Multiplicative decrease under BIC *)

(** C3. Under BIC with [beta = 0.8], a [PacketLoss] handled with
    [cwnd = 1000 * MSS] sets [ssthresh] to exactly [800 * MSS] (the binary64
    product truncates to it, and it is above the floor of [2 * MSS]), sets
    [cwnd] to [ssthresh] and the phase to [Recovery]. *)
Theorem bic_packet_loss_1000_segments
        (b : BIC.State) (sk : SocketState) (now : Z) :
  0 <= mss_bytes_ sk ->
  1000 * mss_bytes_ sk < modulus32 ->
  cwnd_ sk = 1000 * mss_bytes_ sk ->
  BIC.m_beta b = Double.d0_8 ->
  exists b' sk',
    BIC.CwndEvent now b (Some sk) CongestionEvent.PacketLoss = (b', Some sk')
    /\ ssthresh_ sk' = 800 * mss_bytes_ sk
    /\ cwnd_ sk' = ssthresh_ sk'
    /\ tcp_state_ sk' = TCPState.Recovery
    /\ BIC.m_ssthresh b' = 800 * mss_bytes_ sk
    /\ BIC.m_cwnd b' = 800 * mss_bytes_ sk.
Proof.
  intros H0 Hfit Hcwnd Hbeta.
  assert (Hm32 : modulus32 = 4294967296) by reflexivity.
  assert (Hss :
    Z.max (Double.to_uint32
             (Double.mul (Double.of_Z (cwnd_ sk)) (BIC.m_beta b)))
          (mul32 2 (mss_bytes_ sk)) = 800 * mss_bytes_ sk).
  { rewrite Hcwnd, Hbeta, DoubleFacts.to_uint32_mul_0_8 by assumption.
    rewrite mul32_small by lia. apply Z.max_l. lia. }
  unfold BIC.CwndEvent, BIC.GetSsThresh.
  destruct (BIC.m_lastMaxCwnd b <? _); cbn; rewrite Hss;
    do 2 eexists; (split; [reflexivity|]); cbn; repeat split.
Qed.

Lemma bic_packet_loss_1000_segments_witness :
  exists b' sk',
    BIC.CwndEvent 0 (BIC.init 0) (Some (Sample.socket 1000))
      CongestionEvent.PacketLoss = (b', Some sk')
    /\ ssthresh_ sk' = 800 * 1460.
Proof.
  destruct (bic_packet_loss_1000_segments (BIC.init 0) (Sample.socket 1000) 0)
    as (b' & sk' & Hrun & Hss & _);
    try reflexivity; [vm_compute; discriminate |].
  exists b', sk'. split; [exact Hrun | exact Hss].
Defined.

(** ** The cubic window function *)

Module CubicCurve.
Import Double DoubleFacts.

Lemma to_uint32_range x : 0 <= to_uint32 x < modulus32.
Proof.
  unfold to_uint32. destruct (trunc x) as [z|].
  - destruct ((- 2 ^ 63 <? z) && (z <? 2 ^ 63)).
    + apply wrap32_range.
    + unfold modulus32. lia.
  - unfold modulus32. lia.
Qed.

Lemma add_of_Z_zero n :
  0 <= n < 2 ^ 52 -> add (of_Z n) (S754_zero false) = of_Z n.
Proof.
  intros Hn. destruct (Z.eq_dec n 0) as [-> | Hnz]; [reflexivity|].
  destruct (of_Z_finite n) as (N & -> & _); [lia|]. reflexivity.
Qed.

(** The window that [Cubic::GetSsThresh] remembers is a [uint32_t]. *)
Lemma cubic_new_maximum_range c cwnd :
  0 <= cwnd < modulus32 ->
  0 <= Engine.cubic_new_maximum c cwnd < modulus32.
Proof.
  intros H. unfold Engine.cubic_new_maximum.
  break_if; [apply to_uint32_range | exact H].
Qed.

(** At [t = K] the cubic term vanishes and the target window is the
    remembered maximum, for the default constant [C = 0.4]. *)
Lemma CubicWindowCalculation_at_K c :
  Cubic.m_cubicC c = d0_4 ->
  0 <= Cubic.m_lastMaxCwnd c < modulus32 ->
  is_finite (Cubic.m_k c) = true ->
  Cubic.CubicWindowCalculation c (Cubic.m_k c) = Cubic.m_lastMaxCwnd c.
Proof.
  intros HC HW HK. unfold Cubic.CubicWindowCalculation.
  rewrite (sub_diag _ HK), HC.
  change (mul (mul (mul (mul d0_4 (S754_zero false)) (S754_zero false))
                   (S754_zero false)) d1460)
    with (S754_zero false).
  unfold modulus32 in HW.
  rewrite add_of_Z_zero by lia.
  rewrite (of_Z_not_negative (Cubic.m_lastMaxCwnd c)) by lia.
  apply to_uint32_of_Z. exact HW.
Qed.

(** [K] as [Cubic::CalculateK] computes it for the default constants,
    from a remembered maximum that is not zero. *)
Lemma CalculateK_default cbrt c :
  Cubic.m_cubicBeta c = d0_7 ->
  Cubic.m_cubicC c = d0_4 ->
  0 < Cubic.m_lastMaxCwnd c ->
  Cubic.m_k (Cubic.CalculateK cbrt c)
  = cbrt (div (mul (div (of_Z (Cubic.m_lastMaxCwnd c)) d1460)
                   (sub d1 d0_7))
              d0_4).
Proof.
  intros Hb HC HW. unfold Cubic.CalculateK. rewrite Hb, HC.
  replace (Cubic.m_lastMaxCwnd c =? 0) with false
    by (symmetry; apply Z.eqb_neq; lia).
  change (eqb d0_4 d0) with false. cbn [orb].
  assert (Hneg :
    not_negative (div (mul (div (of_Z (Cubic.m_lastMaxCwnd c)) d1460)
                           (sub d1 d0_7)) d0_4)).
  { apply div_not_negative.
    change (sub d1 d0_7)
      with (S754_finite false 5404319552844596 (-54)).
    apply mul_not_negative. apply div_not_negative.
    apply of_Z_not_negative. lia. }
  unfold not_negative in Hneg. rewrite Hneg. reflexivity.
Qed.

End CubicCurve.

(** C7. Under CUBIC with [beta = 0.7] and [C = 0.4], after a window
    reduction ([Cubic::GetSsThresh]) that leaves the remembered maximum
    [W = lastMaxCwnd], the inflection time is
    [K = cbrt ((W / 1460.0) * (1.0 - 0.7) / 0.4)] ([W] in segments of 1460
    bytes) when [W] is not zero, and the cubic target window evaluated at
    [t = K] is exactly [W]: the cubic term is zero. *)
Theorem cubic_inflection_point
        (cbrt : Double.double -> Double.double)
        (c : Cubic.State) (sk : SocketState) (bytesInFlight : Z) :
  0 <= cwnd_ sk < modulus32 ->
  Cubic.m_cubicBeta c = Double.d0_7 ->
  Cubic.m_cubicC c = Double.d0_4 ->
  let c' := snd (fst (Cubic.GetSsThresh cbrt c (Some sk) bytesInFlight)) in
  let W := Cubic.m_lastMaxCwnd c' in
  (W <> 0 ->
   Cubic.m_k c'
   = cbrt (Double.div
             (Double.mul (Double.div (Double.of_Z W) Double.d1460)
                         (Double.sub Double.d1 Double.d0_7))
             Double.d0_4)) /\
  (Double.is_finite (Cubic.m_k c') = true ->
   Cubic.CubicWindowCalculation c' (Cubic.m_k c') = W).
Proof.
  intros Hcwnd Hb HC c' W.
  assert (HW : W = Engine.cubic_new_maximum c (cwnd_ sk))
    by apply LossFacts.Cubic_GetSsThresh_lastMaxCwnd.
  pose proof (CubicCurve.cubic_new_maximum_range c (cwnd_ sk) Hcwnd) as Hr.
  rewrite <- HW in Hr.
  (* the object after the call is [CalculateK] applied to an object [c1]
     that holds the new maximum and the unchanged constants *)
  assert (Hc' : exists c1,
             c' = Cubic.CalculateK cbrt c1 /\
             Cubic.m_cubicBeta c1 = Double.d0_7 /\
             Cubic.m_cubicC c1 = Double.d0_4 /\
             Cubic.m_lastMaxCwnd c1 = W).
  { subst W. unfold c', Cubic.GetSsThresh. cbn [fst snd].
    eexists. split; [reflexivity|].
    rewrite LossFacts.CalculateK_lastMaxCwnd.
    destruct (Cubic.m_fastConvergence _ && _); cbn; auto. }
  destruct Hc' as (c1 & Ec' & Hb1 & HC1 & HW1).
  split.
  - intros Hnz. rewrite Ec'.
    rewrite CubicCurve.CalculateK_default by (try assumption; lia).
    rewrite HW1. reflexivity.
  - intros HK. apply CubicCurve.CubicWindowCalculation_at_K.
    + rewrite Ec', <- LossFacts.CalculateK_frame. exact HC1.
    + exact Hr.
    + exact HK.
Qed.

Lemma cubic_inflection_point_witness :
  let c' :=
    snd (fst (Cubic.GetSsThresh Sample.cbrt_stub (Cubic.init 0)
                (Some (Sample.socket 1000)) 0)) in
  Cubic.m_lastMaxCwnd c' = 1000 * 1460 /\
  Cubic.CubicWindowCalculation c' (Cubic.m_k c') = 1000 * 1460.
Proof.
  destruct (cubic_inflection_point Sample.cbrt_stub (Cubic.init 0)
              (Sample.socket 1000) 0) as [_ Hat];
    try reflexivity; [vm_compute; split; discriminate || reflexivity |].
  split; [reflexivity|].
  cbv zeta in Hat. rewrite Hat; reflexivity.
Defined.

(** ** Floors of the window and of the threshold *)

Module FloorFacts.

Import Engine.

Lemma update_rtt_frame rtt sk :
  cwnd_ (update_rtt rtt sk) = cwnd_ sk /\
  mss_bytes_ (update_rtt rtt sk) = mss_bytes_ sk /\
  ssthresh_ (update_rtt rtt sk) = ssthresh_ sk.
Proof. unfold update_rtt. cbn. break_if; cbn; auto. Qed.

(** *** BIC *)

Lemma BIC_GetSsThresh_post b sk n :
  exists b1 v,
    BIC.GetSsThresh b (Some sk) n = (v, b1, Some (set_ssthresh_ v sk)) /\
    BIC.m_ssthresh b1 = v /\
    BIC.m_maxCwnd b1 = BIC.m_maxCwnd b /\
    mul32 2 (mss_bytes_ sk) <= v.
Proof.
  unfold BIC.GetSsThresh. cbn. do 2 eexists.
  split; [reflexivity|]. repeat split. apply Z.le_max_r.
Qed.

Lemma BIC_grow_cwnd b mss dist :
  0 < mss -> 0 <= BIC.m_cwnd b ->
  0 <= BIC.m_maxIncr b -> 0 <= BIC.m_minIncr b ->
  BIC.m_cwnd b + BIC.m_maxIncr b * mss < modulus32 ->
  BIC.m_cwnd b + BIC.m_minIncr b * mss < modulus32 ->
  BIC.m_cwnd b <= BIC.m_cwnd (BIC.grow b mss dist).
Proof.
  intros Hmss Hc Hmax Hmin Hwmax Hwmin.
  assert (Hm32 : modulus32 = 4294967296) by reflexivity.
  assert (Hmaxm : mul32 (BIC.m_maxIncr b) mss = BIC.m_maxIncr b * mss)
    by (apply mul32_small; nia).
  assert (Hminm : mul32 (BIC.m_minIncr b) mss = BIC.m_minIncr b * mss)
    by (apply mul32_small; nia).
  assert (Hi : to_int32 (BIC.m_maxIncr b) <= BIC.m_maxIncr b)
    by (apply to_int32_le; nia).
  unfold BIC.grow.
  match goal with
  | |- context [if BIC.m_cwnd ?x <? BIC.m_minWin ?x then _ else _] =>
      set (b1 := x)
  end.
  assert (H1 : BIC.m_cwnd b <= BIC.m_cwnd b1).
  { unfold b1. clear b1.
    destruct (to_int32 (BIC.m_maxIncr b) <? dist) eqn:E1.
    - cbn. rewrite Hmaxm, add32_small; nia.
    - apply Z.ltb_ge in E1.
      destruct (0 <? dist) eqn:E2.
      + apply Z.ltb_lt in E2.
        assert (Hhalf : 0 <= dist / 2 <= BIC.m_maxIncr b).
        { split; [apply Z.div_pos; lia|].
          apply Z.le_trans with dist; [|lia].
          apply Z.div_le_upper_bound; lia. }
        assert (Hhm : mul32 (dist / 2) mss = dist / 2 * mss)
          by (apply mul32_small; nia).
        cbn. rewrite Hhm, Hminm.
        repeat break_if; rewrite add32_small; nia.
      + destruct (negb (BIC.m_foundNewMax b)); cbn;
          rewrite Hmaxm, Hminm; repeat break_if; cbn;
          rewrite ?add32_small; nia. }
  break_if; cbn; [|exact H1].
  match goal with H : (_ <? _) = true |- _ => apply Z.ltb_lt in H end.
  lia.
Qed.

Lemma BIC_IncreaseWindow_floor b sk n :
  floor_ok (BIC.m_maxCwnd b) sk ->
  0 <= n -> 0 <= BIC.m_maxIncr b -> 0 <= BIC.m_minIncr b ->
  cwnd_ sk + Z.max n (Z.max (BIC.m_maxIncr b) (BIC.m_minIncr b))
             * mss_bytes_ sk < modulus32 ->
  exists b' sk',
    BIC.IncreaseWindow b (Some sk) n = Some (b', Some sk') /\
    kept (BIC.m_maxCwnd b) (BIC.m_maxCwnd b') sk sk'.
Proof.
  intros (Hmss & Hcap & H2 & Hfl) Hn Hmax Hmin Hw.
  assert (Hm32 : modulus32 = 4294967296) by reflexivity.
  set (mss := mss_bytes_ sk) in *.
  assert (Hwn : cwnd_ sk + n * mss < modulus32) by nia.
  assert (Hwmax : cwnd_ sk + BIC.m_maxIncr b * mss < modulus32) by nia.
  assert (Hwmin : cwnd_ sk + BIC.m_minIncr b * mss < modulus32) by nia.
  assert (Hnm : mul32 n mss = n * mss) by (apply mul32_small; nia).
  assert (Hadd : add32 (cwnd_ sk) (n * mss) = cwnd_ sk + n * mss)
    by (apply add32_small; nia).
  unfold BIC.IncreaseWindow, kept.
  destruct (n =? 0) eqn:En.
  { do 2 eexists. split; [reflexivity|]. auto. }
  destruct (TCPState.eqb (tcp_state_ sk) TCPState.Recovery).
  { cbn. fold mss. rewrite Hnm, Hadd.
    do 2 eexists. split; [reflexivity|]. cbn. fold mss.
    repeat split. lia. }
  cbn [BIC.m_cwnd BIC.m_ssthresh BIC.set_cwnd BIC.set_ssthresh].
  destruct (cwnd_ sk <? ssthresh_ sk) eqn:Ess.
  { apply Z.ltb_lt in Ess. cbn. rewrite En. fold mss. rewrite Hnm, Hadd.
    do 2 eexists. split; [reflexivity|]. cbn. fold mss.
    repeat split. break_if; lia. }
  unfold BIC.CongestionAvoidance. rewrite En.
  unfold BIC.BicUpdate, div32. fold mss.
  replace (mss =? 0) with false by (symmetry; apply Z.eqb_neq; lia).
  match goal with
  | |- context [BIC.grow ?x ?m ?d] =>
      pose proof (BIC_grow_cwnd x m d) as Hg;
      pose proof (BICFacts.grow_maxCwnd x m d) as Hk;
      set (g := BIC.grow x m d) in *
  end.
  cbn in Hg, Hk. specialize (Hg ltac:(lia) ltac:(lia) Hmax Hmin Hwmax Hwmin).
  do 2 eexists. split; [reflexivity|]. cbn. fold mss.
  rewrite Hk. repeat split. lia.
Qed.

Lemma kept_trans M M' M'' sk sk' sk'' :
  kept M M' sk sk' -> kept M' M'' sk' sk'' -> kept M M'' sk sk''.
Proof. unfold kept. intuition congruence. Qed.

Ltac use_BIC_GetSsThresh :=
  match goal with
  | |- context [BIC.GetSsThresh ?x (Some ?y) ?z] =>
      let b1 := fresh "b1" in
      let v := fresh "v" in
      let Hv := fresh "Hv" in
      let Hk := fresh "Hk" in
      let Hfloor := fresh "Hfloor" in
      destruct (BIC_GetSsThresh_post x y z)
        as (b1 & v & -> & Hv & Hk & Hfloor)
  end.

Lemma BIC_CwndEvent_floor now b sk e :
  floor_ok (BIC.m_maxCwnd b) sk ->
  exists b' sk',
    BIC.CwndEvent now b (Some sk) e = (b', Some sk') /\
    kept (BIC.m_maxCwnd b) (BIC.m_maxCwnd b') sk sk' /\
    (Engine.is_reduction (Call.CwndEvent now e) = true ->
     2 * mss_bytes_ sk' <= ssthresh_ sk').
Proof.
  intros (Hmss & Hcap & H2 & Hfl).
  assert (Hm2 : mul32 2 (mss_bytes_ sk) = 2 * mss_bytes_ sk)
    by (apply mul32_small; lia).
  unfold BIC.CwndEvent, kept.
  destruct e; try use_BIC_GetSsThresh; cbn in *; rewrite ?Hv;
    do 2 eexists; (split; [reflexivity|]); cbn; rewrite ?Hk;
    repeat split; try (break_if; reflexivity); try discriminate; lia.
Qed.

Lemma BIC_PktsAcked_floor b sk n rtt :
  floor_ok (BIC.m_maxCwnd b) sk ->
  exists b' sk',
    BIC.PktsAcked b (Some sk) n rtt = (b', Some sk') /\
    kept (BIC.m_maxCwnd b) (BIC.m_maxCwnd b') sk sk'.
Proof.
  intros (Hmss & Hcap & H2 & Hfl).
  unfold BIC.PktsAcked, kept.
  destruct (update_rtt_frame rtt sk) as (Hc & Hm & _).
  do 2 eexists. split; [reflexivity|].
  rewrite Hc, Hm. repeat split. assumption.
Qed.

Lemma kept_floor_ok M M' sk sk' :
  floor_ok M sk -> kept M M' sk sk' -> floor_ok M' sk'.
Proof.
  unfold floor_ok, kept. intros (? & ? & ? & ?) (-> & Hm & ?).
  repeat split; lia.
Qed.

Lemma BIC_step_floor cbrt b sk call :
  floor_ok (BIC.m_maxCwnd b) sk ->
  Engine.no_wrap (UseBIC b, Some sk) call = true ->
  exists b' sk',
    Engine.step cbrt (UseBIC b, Some sk) call = Some (UseBIC b', Some sk')
    /\ kept (BIC.m_maxCwnd b) (BIC.m_maxCwnd b') sk sk'
    /\ (Engine.is_reduction call = true ->
        2 * mss_bytes_ sk' <= ssthresh_ sk').
Proof.
  intros Hok Hnw.
  destruct call as [now n | n rtt | now e | st | now e rtt | n];
    unfold Engine.step.
  - cbn in Hnw.
    apply andb_true_iff in Hnw as [Hnw Hw].
    apply andb_true_iff in Hnw as [Hn Hnw].
    apply andb_true_iff in Hnw as [Hmax Hmin].
    apply Z.leb_le in Hn, Hmax, Hmin. apply Z.ltb_lt in Hw.
    destruct (BIC_IncreaseWindow_floor b sk n Hok Hn Hmax Hmin Hw)
      as (b' & sk' & -> & Hkept).
    cbn. do 2 eexists. split; [reflexivity|]. split; [exact Hkept|].
    discriminate.
  - destruct (BIC_PktsAcked_floor b sk n rtt Hok) as (b' & sk' & -> & Hk).
    cbn. do 2 eexists. split; [reflexivity|]. split; [exact Hk|].
    discriminate.
  - destruct (BIC_CwndEvent_floor now b sk e Hok)
      as (b' & sk' & -> & Hk & Hr).
    cbn. do 2 eexists. split; [reflexivity|]. split; assumption.
  - pose proof Hok as (Hmss & Hcap & H2 & Hfl).
    unfold BIC.CongestionStateSet, kept.
    break_if; try use_BIC_GetSsThresh; cbn in *;
      do 2 eexists; (split; [reflexivity|]); cbn; rewrite ?Hk;
      repeat split; try discriminate; assumption.
  - unfold BIC.CongControl.
    destruct (BIC_CwndEvent_floor now b sk e Hok)
      as (b1 & sk1 & -> & Hk1 & _).
    destruct (0 <? rtt).
    + destruct (BIC_PktsAcked_floor b1 sk1 1 rtt
                  (kept_floor_ok _ _ _ _ Hok Hk1))
        as (b' & sk' & -> & Hk).
      cbn. do 2 eexists. split; [reflexivity|].
      split; [exact (kept_trans _ _ _ _ _ _ Hk1 Hk) | discriminate].
    + cbn. do 2 eexists. split; [reflexivity|].
      split; [exact Hk1 | discriminate].
  - pose proof Hok as (Hmss & Hcap & H2 & Hfl).
    unfold kept. use_BIC_GetSsThresh. cbn in *.
    do 2 eexists. split; [reflexivity|]. cbn. rewrite Hk.
    repeat split; try discriminate; assumption.
Qed.

(** *** CUBIC *)

Lemma Cubic_GetSsThresh_post cbrt c sk n :
  exists c1 v,
    Cubic.GetSsThresh cbrt c (Some sk) n
    = (v, c1, Some (set_ssthresh_ v sk)) /\
    Cubic.m_ssthresh c1 = v /\
    Cubic.m_maxCwnd c1 = Cubic.m_maxCwnd c /\
    mul32 2 (mss_bytes_ sk) <= v.
Proof.
  unfold Cubic.GetSsThresh.
  rewrite LossFacts.CalculateK_ssthresh.
  do 2 eexists. split; [reflexivity|].
  rewrite LossFacts.CalculateK_ssthresh.
  rewrite <- LossFacts.CalculateK_frame.
  break_if; cbn; repeat split; apply Z.le_max_r.
Qed.

Ltac use_Cubic_GetSsThresh :=
  match goal with
  | |- context [Cubic.GetSsThresh ?f ?x (Some ?y) ?z] =>
      let c1 := fresh "c1" in
      let v := fresh "v" in
      let Hv := fresh "Hv" in
      let Hk := fresh "Hk" in
      let Hfloor := fresh "Hfloor" in
      destruct (Cubic_GetSsThresh_post f x y z)
        as (c1 & v & -> & Hv & Hk & Hfloor)
  end.

Lemma Cubic_IncreaseWindow_floor now c sk n :
  floor_ok (Cubic.m_maxCwnd c) sk ->
  0 <= n ->
  cwnd_ sk + n * mss_bytes_ sk < modulus32 ->
  exists c' sk',
    Cubic.IncreaseWindow now c (Some sk) n = Some (c', Some sk') /\
    kept (Cubic.m_maxCwnd c) (Cubic.m_maxCwnd c') sk sk'.
Proof.
  intros (Hmss & Hcap & H2 & Hfl) Hn Hw.
  assert (Hm32 : modulus32 = 4294967296) by reflexivity.
  set (mss := mss_bytes_ sk) in *.
  assert (Hnm : mul32 n mss = n * mss) by (apply mul32_small; nia).
  assert (Hadd : add32 (cwnd_ sk) (n * mss) = cwnd_ sk + n * mss)
    by (apply add32_small; nia).
  unfold Cubic.IncreaseWindow, kept.
  destruct (n =? 0) eqn:En.
  { do 2 eexists. split; [reflexivity|]. auto. }
  apply Z.eqb_neq in En.
  destruct (TCPState.eqb (tcp_state_ sk) TCPState.Recovery).
  { cbn. fold mss. rewrite Hnm, Hadd.
    do 2 eexists. split; [reflexivity|]. cbn. fold mss.
    repeat split. lia. }
  cbn [Cubic.m_cwnd Cubic.m_ssthresh Cubic.set_cwnd Cubic.set_ssthresh].
  destruct (cwnd_ sk <? ssthresh_ sk) eqn:Ess.
  { apply Z.ltb_lt in Ess. unfold Cubic.SlowStart.
    replace (n =? 0) with false by (symmetry; apply Z.eqb_neq; lia).
    cbn. fold mss. rewrite Hnm, Hadd.
    destruct (ssthresh_ sk <? cwnd_ sk + n * mss) eqn:Ecap;
      do 2 eexists; (split; [reflexivity|]); cbn; fold mss;
      repeat split; lia. }
  unfold Cubic.CongestionAvoidance.
  replace (n =? 0) with false by (symmetry; apply Z.eqb_neq; lia).
  match goal with
  | |- context [Cubic.CubicUpdate ?t ?x (Some sk)] =>
      destruct (CubicFacts.CubicUpdate_returns t x sk ltac:(lia))
        as [c1 Hc1];
      rewrite Hc1;
      apply CubicFacts.CubicUpdate_inv in Hc1 as [Hk Hc]
  end.
  cbn in Hk, Hc. fold mss in Hc.
  rewrite add32_small in Hc by nia.
  do 2 eexists. split; [reflexivity|]. cbn. fold mss.
  rewrite Hk. repeat split. lia.
Qed.

Lemma Cubic_PktsAcked_floor c sk n rtt :
  floor_ok (Cubic.m_maxCwnd c) sk ->
  exists c' sk',
    Cubic.PktsAcked c (Some sk) n rtt = (c', Some sk') /\
    kept (Cubic.m_maxCwnd c) (Cubic.m_maxCwnd c') sk sk'.
Proof.
  intros (Hmss & Hcap & H2 & Hfl).
  unfold Cubic.PktsAcked, kept.
  destruct (update_rtt_frame rtt sk) as (Hc & Hm & _).
  repeat break_if; cbn -[update_rtt];
    do 2 eexists; (split; [reflexivity|]); cbn -[update_rtt];
    rewrite ?Hc, ?Hm; repeat split; assumption.
Qed.

Lemma Cubic_CwndEvent_floor cbrt now c sk e :
  floor_ok (Cubic.m_maxCwnd c) sk ->
  exists c' sk',
    Cubic.CwndEvent cbrt now c (Some sk) e = (c', Some sk') /\
    kept (Cubic.m_maxCwnd c) (Cubic.m_maxCwnd c') sk sk' /\
    (Engine.is_reduction (Call.CwndEvent now e) = true ->
     2 * mss_bytes_ sk' <= ssthresh_ sk').
Proof.
  intros (Hmss & Hcap & H2 & Hfl).
  assert (Hm2 : mul32 2 (mss_bytes_ sk) = 2 * mss_bytes_ sk)
    by (apply mul32_small; lia).
  unfold Cubic.CwndEvent, kept.
  destruct e; try use_Cubic_GetSsThresh; cbn in *; rewrite ?Hv;
    do 2 eexists; (split; [reflexivity|]); cbn; rewrite ?Hk;
    repeat split; try discriminate; lia.
Qed.

Lemma Cubic_step_floor cbrt c sk call :
  floor_ok (Cubic.m_maxCwnd c) sk ->
  Engine.no_wrap (UseCubic c, Some sk) call = true ->
  exists c' sk',
    Engine.step cbrt (UseCubic c, Some sk) call
    = Some (UseCubic c', Some sk')
    /\ kept (Cubic.m_maxCwnd c) (Cubic.m_maxCwnd c') sk sk'
    /\ (Engine.is_reduction call = true ->
        2 * mss_bytes_ sk' <= ssthresh_ sk').
Proof.
  intros Hok Hnw.
  destruct call as [now n | n rtt | now e | st | now e rtt | n];
    unfold Engine.step.
  - cbn in Hnw.
    apply andb_true_iff in Hnw as [Hn Hw].
    apply andb_true_iff in Hn as [Hn _].
    apply Z.leb_le in Hn. apply Z.ltb_lt in Hw.
    destruct (Cubic_IncreaseWindow_floor now c sk n Hok Hn Hw)
      as (c' & sk' & -> & Hkept).
    cbn. do 2 eexists. split; [reflexivity|]. split; [exact Hkept|].
    discriminate.
  - destruct (Cubic_PktsAcked_floor c sk n rtt Hok)
      as (c' & sk' & -> & Hk).
    cbn. do 2 eexists. split; [reflexivity|]. split; [exact Hk|].
    discriminate.
  - destruct (Cubic_CwndEvent_floor cbrt now c sk e Hok)
      as (c' & sk' & -> & Hk & Hr).
    cbn. do 2 eexists. split; [reflexivity|]. split; assumption.
  - pose proof Hok as (Hmss & Hcap & H2 & Hfl).
    unfold Cubic.CongestionStateSet, kept.
    break_if; try use_Cubic_GetSsThresh; cbn in *;
      do 2 eexists; (split; [reflexivity|]); cbn; rewrite ?Hk;
      repeat split; try discriminate; assumption.
  - unfold Cubic.CongControl.
    destruct (Cubic_CwndEvent_floor cbrt now c sk e Hok)
      as (c1 & sk1 & -> & Hk1 & _).
    destruct (0 <? rtt).
    + destruct (Cubic_PktsAcked_floor c1 sk1 1 rtt
                  (kept_floor_ok _ _ _ _ Hok Hk1))
        as (c' & sk' & -> & Hk).
      cbn. do 2 eexists. split; [reflexivity|].
      split; [exact (kept_trans _ _ _ _ _ _ Hk1 Hk) | discriminate].
    + cbn. do 2 eexists. split; [reflexivity|].
      split; [exact Hk1 | discriminate].
  - pose proof Hok as (Hmss & Hcap & H2 & Hfl).
    unfold kept. use_Cubic_GetSsThresh. cbn in *.
    do 2 eexists. split; [reflexivity|]. cbn. rewrite Hk.
    repeat split; try discriminate; assumption.
Qed.

(** *** Any strategy, any sequence of calls *)

Lemma initialized_floor_ok w :
  Engine.initialized w = true <->
  exists sk, snd w = Some sk /\ floor_ok (Engine.m_maxCwnd (fst w)) sk.
Proof.
  unfold Engine.initialized, floor_ok. destruct (snd w) as [sk|].
  - rewrite !andb_true_iff, !Z.ltb_lt, !Z.leb_le. split.
    + intros H. exists sk. intuition.
    + intros (sk' & [= <-] & H). intuition.
  - split; [discriminate | intros (sk & [=] & _)].
Qed.

Lemma step_floor cbrt s sk call :
  floor_ok (Engine.m_maxCwnd s) sk ->
  Engine.no_wrap (s, Some sk) call = true ->
  exists s' sk',
    Engine.step cbrt (s, Some sk) call = Some (s', Some sk')
    /\ kept (Engine.m_maxCwnd s) (Engine.m_maxCwnd s') sk sk'
    /\ (Engine.is_reduction call = true ->
        2 * mss_bytes_ sk' <= ssthresh_ sk').
Proof.
  intros Hok Hnw. destruct s as [b|c].
  - destruct (BIC_step_floor cbrt b sk call Hok Hnw)
      as (b' & sk' & H1 & H2 & H3).
    exists (UseBIC b'), sk'. auto.
  - destruct (Cubic_step_floor cbrt c sk call Hok Hnw)
      as (c' & sk' & H1 & H2 & H3).
    exists (UseCubic c'), sk'. auto.
Qed.

Lemma run_floor cbrt calls : forall s sk,
  floor_ok (Engine.m_maxCwnd s) sk ->
  Engine.wrap_free cbrt (s, Some sk) calls = true ->
  exists s' sk',
    Engine.run cbrt (s, Some sk) calls = Some (s', Some sk') /\
    floor_ok (Engine.m_maxCwnd s') sk'.
Proof.
  induction calls as [|call calls IH]; intros s sk Hok Hwf.
  - exists s, sk. split; [reflexivity | exact Hok].
  - cbn [Engine.wrap_free] in Hwf.
    apply andb_true_iff in Hwf as [Hnw Hwf].
    destruct (step_floor cbrt s sk call Hok Hnw)
      as (s1 & sk1 & Hstep & Hk & _).
    cbn [Engine.run]. rewrite Hstep in *.
    apply IH; [exact (kept_floor_ok _ _ _ _ Hok Hk) | exact Hwf].
Qed.

Lemma run_app cbrt l1 : forall w l2,
  Engine.run cbrt w (l1 ++ l2)
  = match Engine.run cbrt w l1 with
    | Some w1 => Engine.run cbrt w1 l2
    | None => None
    end.
Proof.
  induction l1 as [|call l1 IH]; intros w l2; cbn [Engine.run app].
  - reflexivity.
  - destruct (Engine.step cbrt w call); [apply IH | reflexivity].
Qed.

Lemma wrap_free_app cbrt l1 : forall w l2,
  Engine.wrap_free cbrt w (l1 ++ l2) = true ->
  Engine.wrap_free cbrt w l1 = true /\
  forall w1, Engine.run cbrt w l1 = Some w1 ->
             Engine.wrap_free cbrt w1 l2 = true.
Proof.
  induction l1 as [|call l1 IH]; intros w l2 H;
    cbn [Engine.wrap_free Engine.run app] in *.
  - split; [reflexivity|]. now intros w1 [= <-].
  - apply andb_true_iff in H as [Hnw H]. rewrite Hnw. cbn [andb].
    destruct (Engine.step cbrt w call) as [w'|].
    + apply IH. exact H.
    + split; [reflexivity | discriminate].
Qed.

(** A Vegas step from a window of at least two segments. *)
Lemma VegasUpdate_floor v mss :
  0 < mss -> 2 * mss <= Vegas.m_cwnd v ->
  Vegas.m_cwnd v + mss < modulus32 ->
  Vegas.m_baseRTT v <> 0 ->
  exists v', Vegas.VegasUpdate v mss = Some v' /\ mss <= Vegas.m_cwnd v'.
Proof.
  intros Hmss Hc Hw Hb.
  assert (Hm32 : modulus32 = 4294967296) by reflexivity.
  unfold Vegas.VegasUpdate, Vegas.CalculateDiff, div32.
  apply Z.eqb_neq in Hb. rewrite Hb.
  repeat break_if; eexists; (split; [reflexivity|]); cbn;
    rewrite ?add32_small, ?sub32_small by lia; lia.
Qed.

End FloorFacts.

(** C1 (as stated, refuted).  A Vegas connection with a window of one
    segment ([cwnd = MSS = 1460]) whose RTT has grown from 100 ms to 600 ms
    computes [diff = 5 > beta = 4]; the congestion-avoidance step subtracts
    one MSS without any floor and leaves [cwnd = 0 < MSS]. *)
Lemma vegas_window_floor_counterexample :
  Vegas.m_cwnd (Sample.vegas 1 100000 600000) = 1460 /\
  Vegas.CalculateDiff (Sample.vegas 1 100000 600000) = Some 5 /\
  exists v',
    Vegas.VegasUpdate (Sample.vegas 1 100000 600000) 1460 = Some v' /\
    Vegas.m_cwnd v' = 0 /\
    ~ 1460 <= Vegas.m_cwnd v'.
Proof.
  split; [reflexivity|]. split; [reflexivity|].
  eexists. split; [reflexivity|]. split; [reflexivity|].
  vm_compute. intros H. apply H. reflexivity.
Qed.

(** C1 (amended).  For BIC and for CUBIC, on an initialized connection (a
    live socket with [0 < MSS <= m_maxCwnd], [2 * MSS < 2^32] and
    [cwnd >= MSS]) and for every sequence of interface calls
    ([IncreaseWindow] for acknowledgments, [PktsAcked], [CwndEvent] with
    [PacketLoss], [Timeout], [ECN] or another event, [CongestionStateSet],
    [CongControl], [GetSsThresh]) in which no window addition wraps around
    [2^32]: every call returns, [cwnd >= MSS] holds after each call, and
    [ssthresh >= 2 * MSS] holds after each [PacketLoss], [Timeout] and [ECN]
    event.  For Vegas, a congestion-avoidance step that starts from
    [cwnd >= 2 * MSS] (and does not wrap) leaves [cwnd >= MSS]. *)
Theorem window_floor_invariants :
  (forall (cbrt : Double.double -> Double.double) (w : World)
          (calls : list Call.t),
     Engine.initialized w = true ->
     Engine.wrap_free cbrt w calls = true ->
     (exists w', Engine.run cbrt w calls = Some w') /\
     (forall pre call post,
        calls = pre ++ call :: post ->
        exists s' sk',
          Engine.run cbrt w (pre ++ [call]) = Some (s', Some sk') /\
          mss_bytes_ sk' <= cwnd_ sk' /\
          (Engine.is_reduction call = true ->
           2 * mss_bytes_ sk' <= ssthresh_ sk'))) /\
  (forall (v : Vegas.State) (mss : Z),
     0 < mss ->
     2 * mss <= Vegas.m_cwnd v ->
     Vegas.m_cwnd v + mss < modulus32 ->
     Vegas.m_baseRTT v <> 0 ->
     exists v', Vegas.VegasUpdate v mss = Some v' /\ mss <= Vegas.m_cwnd v').
Proof.
  split; [|exact FloorFacts.VegasUpdate_floor].
  intros cbrt [s socket] calls Hinit Hwf.
  apply FloorFacts.initialized_floor_ok in Hinit as (sk & Hs & Hok).
  cbn [fst snd] in Hs, Hok. subst socket.
  split.
  - destruct (FloorFacts.run_floor cbrt calls s sk Hok Hwf)
      as (s' & sk' & Hrun & _).
    eauto.
  - intros pre call post ->.
    apply FloorFacts.wrap_free_app in Hwf as [Hpre Hrest].
    destruct (FloorFacts.run_floor cbrt pre s sk Hok Hpre)
      as (s1 & sk1 & Hrun1 & Hok1).
    specialize (Hrest _ Hrun1). cbn [Engine.wrap_free] in Hrest.
    apply andb_true_iff in Hrest as [Hnw _].
    destruct (FloorFacts.step_floor cbrt s1 sk1 call Hok1 Hnw)
      as (s2 & sk2 & Hstep & (_ & _ & Hfl) & Hred).
    exists s2, sk2. rewrite FloorFacts.run_app, Hrun1.
    cbn [Engine.run]. rewrite Hstep. auto.
Qed.

Lemma window_floor_invariants_witness :
  exists s' sk',
    Engine.run Sample.cbrt_stub
      (UseCubic (Cubic.init 0), Some Sample.fresh_socket)
      (firstn 8 Sample.calls ++ [Call.IncreaseWindow 7000000 1])
    = Some (s', Some sk') /\
    mss_bytes_ sk' <= cwnd_ sk'.
Proof.
  destruct (proj1 window_floor_invariants Sample.cbrt_stub
              (UseCubic (Cubic.init 0), Some Sample.fresh_socket)
              Sample.calls eq_refl eq_refl) as [_ Hafter].
  destruct (Hafter (firstn 8 Sample.calls) (Call.IncreaseWindow 7000000 1)
              (skipn 9 Sample.calls) eq_refl)
    as (s' & sk' & Hrun & Hfloor & _).
  exists s', sk'. split; [exact Hrun | exact Hfloor].
Defined.

(** ** Multiplicative decrease for every window *)

Module DecreaseFacts.
Import Double DoubleFacts.

(** The integral part of the product of a positive [uint32_t] [c] with a
    constant [M * 2^-53] of the interval [1/2, 1): it is [m2 / Q], where
    [K * Q = A * 2^53], [c * A] is the 53-bit mantissa of [c], and [m2] is
    the product of the mantissas cut by [K] or its successor. *)
Lemma trunc_mul_fraction c M :
  0 < c < modulus32 ->
  2 ^ 52 <= Zpos M < 2 ^ 53 ->
  exists A K Q m2,
    2 ^ 21 <= A /\ c * A < 2 ^ 53 /\
    0 < K <= 2 ^ 53 /\ 2 <= Q /\ K * Q = A * 2 ^ 53 /\
    c * A * Zpos M / K <= m2 <= c * A * Zpos M / K + 1 /\
    trunc (mul (of_Z c) (S754_finite false M (-53))) = Some (m2 / Q).
Proof.
  intros [H0 Hc] HM. unfold modulus32 in Hc.
  destruct (of_Z_finite c) as (N & -> & HN & HN52); [lia|].
  set (b := Zdigits2 c) in *.
  assert (Hb : 0 < b <= 32).
  { split; [apply (Zdigits2_gt c 0); lia | apply Zdigits2_le; lia]. }
  destruct (trunc_mul_normal N (b - 53) M (-53))
    as (k & m2 & Hk & Hprod & Hm2 & Ht); [lia | lia | lia | lia |].
  exists (2 ^ (53 - b)), (2 ^ k), (2 ^ (- (b - 53 + -53 + k))), m2.
  rewrite <- HN.
  split; [apply Z.pow_le_mono_r; lia|].
  split; [lia|].
  split; [split; [apply Z.pow_pos_nonneg; lia | apply Z.pow_le_mono_r; lia]|].
  split; [change 2 with (2 ^ 1) at 1; apply Z.pow_le_mono_r; lia|].
  split; [rewrite <- !Z.pow_add_r by lia; f_equal; lia|].
  split; [exact Hm2 | exact Ht].
Qed.

Lemma to_uint32_of_trunc x v :
  trunc x = Some v -> 0 <= v < modulus32 -> to_uint32 x = v.
Proof.
  intros Ht Hv. unfold to_uint32. rewrite Ht. unfold modulus32 in Hv.
  replace ((- 2 ^ 63 <? v) && (v <? 2 ^ 63)) with true.
  - apply wrap32_small. unfold modulus32. lia.
  - symmetry. apply andb_true_intro. split; apply Z.ltb_lt; lia.
Qed.

(** [0.8] is slightly above 4/5: the decrease of BIC is the integral part
    of [4 * cwnd / 5] for every window. *)
Lemma to_uint32_mul_0_8_floor c :
  0 <= c < modulus32 -> to_uint32 (mul (of_Z c) d0_8) = 4 * c / 5.
Proof.
  intros [H0 Hc].
  destruct (Z.eq_dec c 0) as [-> | Hnz]; [reflexivity|].
  unfold d0_8.
  destruct (trunc_mul_fraction c 7205759403792794)
    as (A & K & Q & m2 & HA & HcA & HK & HQ & HKQ & Hm2 & Ht); [lia | lia |].
  unfold modulus32 in Hc.
  set (t := c * A) in *.
  set (v := 4 * c / 5).
  assert (Hv : 5 * v <= 4 * c <= 5 * v + 4).
  { unfold v. pose proof (Z.mul_div_le (4 * c) 5 ltac:(lia)).
    pose proof (Z.mul_succ_div_gt (4 * c) 5 ltac:(lia)). lia. }
  set (u := v * A).
  assert (Hu : 5 * u <= 4 * t <= 5 * u + 4 * A) by (unfold u, t; nia).
  change (2 ^ 53) with 9007199254740992 in *.
  change (2 ^ 21) with 2097152 in *.
  assert (HvQK : K * (v * Q) = u * 9007199254740992).
  { unfold u. replace (K * (v * Q)) with (v * (K * Q)) by ring.
    rewrite HKQ. ring. }
  assert (Hlow : v * Q <= t * 7205759403792794 / K).
  { apply Z.div_le_lower_bound; [lia|]. rewrite HvQK. lia. }
  assert (Hupp : t * 7205759403792794 / K < (v + 1) * Q - 1).
  { apply Z.div_lt_upper_bound; [lia|].
    replace (K * ((v + 1) * Q - 1)) with (K * (v * Q) + K * Q - K) by ring.
    rewrite HvQK, HKQ. lia. }
  assert (Hm2Q : m2 / Q = v).
  { symmetry. apply Z.div_unique with (m2 - v * Q); [left; lia | ring]. }
  apply to_uint32_of_trunc; [rewrite Ht, Hm2Q; reflexivity|].
  unfold modulus32. lia.
Qed.

(** [0.7] is slightly below 7/10: the decrease of CUBIC is the integral
    part of [7 * cwnd / 10], or one less when [cwnd] is a multiple of 10. *)
Lemma to_uint32_mul_0_7_bounds c :
  0 <= c < modulus32 ->
  7 * c / 10 - 1 <= to_uint32 (mul (of_Z c) d0_7) <= 7 * c / 10 /\
  0 <= to_uint32 (mul (of_Z c) d0_7) /\
  (c mod 10 <> 0 -> to_uint32 (mul (of_Z c) d0_7) = 7 * c / 10).
Proof.
  intros [H0 Hc].
  destruct (Z.eq_dec c 0) as [-> | Hnz].
  { vm_compute. repeat split; discriminate. }
  unfold d0_7.
  destruct (trunc_mul_fraction c 6305039478318694)
    as (A & K & Q & m2 & HA & HcA & HK & HQ & HKQ & Hm2 & Ht); [lia | lia |].
  unfold modulus32 in Hc.
  set (t := c * A) in *.
  set (v := 7 * c / 10).
  assert (Hv : 10 * v <= 7 * c <= 10 * v + 9).
  { unfold v. pose proof (Z.mul_div_le (7 * c) 10 ltac:(lia)).
    pose proof (Z.mul_succ_div_gt (7 * c) 10 ltac:(lia)). lia. }
  set (u := v * A).
  assert (Hu : 10 * u <= 7 * t <= 10 * u + 9 * A) by (unfold u, t; nia).
  change (2 ^ 53) with 9007199254740992 in *.
  change (2 ^ 21) with 2097152 in *.
  assert (HvQK : K * (v * Q) = u * 9007199254740992).
  { unfold u. replace (K * (v * Q)) with (v * (K * Q)) by ring.
    rewrite HKQ. ring. }
  assert (Hlow1 : (v - 1) * Q <= t * 6305039478318694 / K).
  { apply Z.div_le_lower_bound; [lia|].
    replace (K * ((v - 1) * Q)) with (K * (v * Q) - K * Q) by ring.
    rewrite HvQK, HKQ. lia. }
  assert (Hupp : t * 6305039478318694 / K < (v + 1) * Q - 1).
  { apply Z.div_lt_upper_bound; [lia|].
    replace (K * ((v + 1) * Q - 1)) with (K * (v * Q) + K * Q - K) by ring.
    rewrite HvQK, HKQ. lia. }
  assert (Hr : v - 1 <= m2 / Q <= v).
  { split.
    - apply Z.div_le_lower_bound; lia.
    - assert (m2 / Q < v + 1); [|lia].
      apply Z.div_lt_upper_bound; lia. }
  assert (Hpos : 0 <= m2 / Q).
  { apply Z.div_pos; [|lia].
    assert (0 <= t * 6305039478318694 / K)
      by (apply Z.div_pos; [unfold t; nia | lia]).
    lia. }
  assert (Hto : to_uint32
                  (mul (of_Z c) (S754_finite false 6305039478318694 (-53)))
                = m2 / Q).
  { apply to_uint32_of_trunc; [exact Ht | unfold modulus32; lia]. }
  rewrite Hto. split; [exact Hr|]. split; [exact Hpos|].
  intros Hmod.
  assert (Hv1 : 10 * v + 1 <= 7 * c).
  { assert (7 * c <> 10 * v); [|lia].
    intros E. apply Hmod.
    pose proof (Z.div_mod c 10 ltac:(lia)) as Hd.
    pose proof (Z.mod_pos_bound c 10 ltac:(lia)) as Hb.
    assert (Hdiv : (7 * (c mod 10)) mod 10 = 0).
    { replace (7 * (c mod 10)) with ((v - 7 * (c / 10)) * 10) by lia.
      apply Z.mod_mul. lia. }
    remember (c mod 10) as r.
    assert (Hcases : r = 0 \/ r = 1 \/ r = 2 \/ r = 3 \/ r = 4 \/ r = 5 \/
                     r = 6 \/ r = 7 \/ r = 8 \/ r = 9) by lia.
    destruct Hcases as [-> | [-> | [-> | [-> | [-> | [-> | [-> | [-> |
                        [-> | ->]]]]]]]]]; try reflexivity;
      vm_compute in Hdiv; discriminate. }
  assert (Hu1 : 10 * u + A <= 7 * t) by (unfold u, t; nia).
  assert (Hlow : v * Q <= t * 6305039478318694 / K).
  { apply Z.div_le_lower_bound; [lia|]. rewrite HvQK. lia. }
  symmetry. apply Z.div_unique with (m2 - v * Q); [left; lia | ring].
Qed.

End DecreaseFacts.

Module ReductionFacts.

(** [BIC::GetSsThresh] in closed form. *)
Lemma BIC_GetSsThresh_eq b sk n :
  let v := Z.max (Double.to_uint32
                    (Double.mul (Double.of_Z (cwnd_ sk)) (BIC.m_beta b)))
                 (mul32 2 (mss_bytes_ sk)) in
  BIC.GetSsThresh b (Some sk) n
  = (v, BIC.set_ssthresh v (BIC.set_lastMaxCwnd (cwnd_ sk) b),
     Some (set_ssthresh_ v sk)).
Proof. reflexivity. Qed.

(** [Cubic::GetSsThresh] in closed form. *)
Lemma Cubic_GetSsThresh_eq cbrt c sk n :
  let v := Z.max (Double.to_uint32
                    (Double.mul (Double.of_Z (cwnd_ sk)) (Cubic.m_cubicBeta c)))
                 (mul32 2 (mss_bytes_ sk)) in
  Cubic.GetSsThresh cbrt c (Some sk) n
  = (v,
     Cubic.CalculateK cbrt
       (Cubic.set_ssthresh v
          (Cubic.set_lastMaxCwnd (Engine.cubic_new_maximum c (cwnd_ sk))
             (Cubic.set_lastCwnd (cwnd_ sk) c))),
     Some (set_ssthresh_ v sk)).
Proof.
  unfold Cubic.GetSsThresh, Engine.cubic_new_maximum.
  rewrite LossFacts.CalculateK_ssthresh.
  cbn. break_if; reflexivity.
Qed.

End ReductionFacts.

(** X1. [BIC::GetSsThresh] on a live socket, with the decrease factor 0.8
    that the constructor sets, for every [uint32_t] window: the threshold is
    the larger of the integral part of [4 * cwnd / 5] and of [2 * MSS] (a
    [uint32_t] product); it is returned, stored in the object and in the
    socket; the window is remembered as [m_lastMaxCwnd]; the window itself
    and everything else are unchanged. *)
Theorem bic_decrease_four_fifths
        (b : BIC.State) (sk : SocketState) (bytesInFlight : Z) :
  BIC.m_beta b = Double.d0_8 ->
  0 <= cwnd_ sk < modulus32 ->
  let v := Z.max (4 * cwnd_ sk / 5) (mul32 2 (mss_bytes_ sk)) in
  BIC.GetSsThresh b (Some sk) bytesInFlight
  = (v, BIC.set_ssthresh v (BIC.set_lastMaxCwnd (cwnd_ sk) b),
     Some (set_ssthresh_ v sk)).
Proof.
  intros Hbeta Hc v. rewrite ReductionFacts.BIC_GetSsThresh_eq.
  rewrite Hbeta, DecreaseFacts.to_uint32_mul_0_8_floor by exact Hc.
  reflexivity.
Qed.

Lemma bic_decrease_four_fifths_witness :
  BIC.GetSsThresh (BIC.init 0) (Some (Sample.socket 37)) 0
  = (43216,
     BIC.set_ssthresh 43216 (BIC.set_lastMaxCwnd 54020 (BIC.init 0)),
     Some (set_ssthresh_ 43216 (Sample.socket 37))).
Proof.
  apply (bic_decrease_four_fifths (BIC.init 0) (Sample.socket 37) 0).
  - reflexivity.
  - unfold modulus32. cbn. lia.
Defined.

(** X2. [Cubic::GetSsThresh] on a live socket, with the decrease factor
    0.7 that the constructor sets, for every [uint32_t] window: the
    threshold is the larger of [r] and of [2 * MSS], where [r] is the
    integral part of [7 * cwnd / 10] or one less; it is that integral part
    whenever [cwnd] is not a multiple of 10.  The lower value does occur:
    for a window of 1000 segments of 1460 bytes the threshold is one byte
    below [7 * cwnd / 10] (the double nearest to 0.7 lies below 7/10). *)
Theorem cubic_decrease_seven_tenths :
  (forall (cbrt : Double.double -> Double.double)
          (c : Cubic.State) (sk : SocketState) (bytesInFlight : Z),
     Cubic.m_cubicBeta c = Double.d0_7 ->
     0 <= cwnd_ sk < modulus32 ->
     exists r c',
       Cubic.GetSsThresh cbrt c (Some sk) bytesInFlight
       = (Z.max r (mul32 2 (mss_bytes_ sk)), c',
          Some (set_ssthresh_ (Z.max r (mul32 2 (mss_bytes_ sk))) sk)) /\
       Cubic.m_ssthresh c' = Z.max r (mul32 2 (mss_bytes_ sk)) /\
       7 * cwnd_ sk / 10 - 1 <= r <= 7 * cwnd_ sk / 10 /\
       (cwnd_ sk mod 10 <> 0 -> r = 7 * cwnd_ sk / 10)) /\
  (forall cbrt : Double.double -> Double.double,
     fst (fst (Cubic.GetSsThresh cbrt (Cubic.init 0)
                 (Some (Sample.socket 1000)) 0))
     = 7 * cwnd_ (Sample.socket 1000) / 10 - 1).
Proof.
  split.
  - intros cbrt c sk n Hbeta Hc.
    rewrite ReductionFacts.Cubic_GetSsThresh_eq. rewrite Hbeta.
    destruct (DecreaseFacts.to_uint32_mul_0_7_bounds (cwnd_ sk) Hc)
      as (Hr & _ & Hex).
    do 2 eexists. split; [reflexivity|].
    rewrite LossFacts.CalculateK_ssthresh.
    split; [reflexivity|]. split; [exact Hr | exact Hex].
  - intros cbrt. rewrite ReductionFacts.Cubic_GetSsThresh_eq.
    vm_compute. reflexivity.
Qed.

Lemma cubic_decrease_seven_tenths_witness :
  exists r c',
    Cubic.GetSsThresh Sample.cbrt_stub (Cubic.init 0)
      (Some (Sample.socket 37)) 0
    = (Z.max r (mul32 2 1460), c',
       Some (set_ssthresh_ (Z.max r (mul32 2 1460)) (Sample.socket 37))) /\
    Cubic.m_ssthresh c' = Z.max r (mul32 2 1460) /\
    7 * 54020 / 10 - 1 <= r <= 7 * 54020 / 10 /\
    (54020 mod 10 <> 0 -> r = 7 * 54020 / 10).
Proof.
  apply (proj1 cubic_decrease_seven_tenths Sample.cbrt_stub (Cubic.init 0)
           (Sample.socket 37) 0).
  - reflexivity.
  - unfold modulus32. cbn. lia.
Defined.

(** X3. For BIC and for CUBIC and every state, [CwndEvent] with [ECN]
    reduces as [CwndEvent] with [PacketLoss] does: both set the window to
    the new threshold, both leave the same window, the same threshold and
    the same remembered maximum.  The two results differ in this and
    nothing else: the socket records the phase [Recovery] and the event
    [PacketLoss] after the loss, [CWR] and [ECN] after the mark; and the
    loss path alone restarts [m_epochStart] and clears [m_ackCount] under
    BIC, and clears [m_ackCount] and [m_tcpCwnd] and resets the hystart
    delay bounds under CUBIC. *)
Theorem ecn_reduces_like_packet_loss
        (cbrt : Double.double -> Double.double)
        (s : Strategy) (sk : SocketState) (now : Z) :
  exists s1 sk1 s2 sk2,
    Engine.step cbrt (s, Some sk)
      (Call.CwndEvent now CongestionEvent.PacketLoss) = Some (s1, Some sk1) /\
    Engine.step cbrt (s, Some sk)
      (Call.CwndEvent now CongestionEvent.ECN) = Some (s2, Some sk2) /\
    cwnd_ sk1 = ssthresh_ sk1 /\
    cwnd_ sk2 = cwnd_ sk1 /\
    ssthresh_ sk2 = ssthresh_ sk1 /\
    Engine.m_lastMaxCwnd s2 = Engine.m_lastMaxCwnd s1 /\
    tcp_state_ sk1 = TCPState.Recovery /\
    tcp_state_ sk2 = TCPState.CWR /\
    sk1 = set_tcp_state_ TCPState.Recovery
            (set_congestion_event_ CongestionEvent.PacketLoss sk2) /\
    s1 = match s2 with
         | UseBIC b2 =>
             UseBIC (BIC.set_ackCount 0 (BIC.set_epochStart now b2))
         | UseCubic c2 =>
             UseCubic
               (Cubic.set_hystartDelayMax 0
                  (Cubic.set_hystartDelayMin 4294967295
                     (Cubic.set_tcpCwnd 0 (Cubic.set_ackCount 0 c2))))
         end.
Proof.
  destruct s as [b|c]; unfold Engine.step.
  - unfold BIC.CwndEvent. rewrite !ReductionFacts.BIC_GetSsThresh_eq.
    cbn. do 4 eexists. do 2 (split; [reflexivity|]). cbn.
    repeat split; break_if; reflexivity.
  - unfold Cubic.CwndEvent. rewrite !ReductionFacts.Cubic_GetSsThresh_eq.
    cbn. do 4 eexists. do 2 (split; [reflexivity|]). cbn.
    rewrite !LossFacts.CalculateK_ssthresh, !LossFacts.CalculateK_lastMaxCwnd.
    repeat split.
Qed.

(** X4. For BIC and for CUBIC with the decrease factor of their
    constructor, a [PacketLoss] or [ECN] event on a [uint32_t] window (with
    [2 * MSS] fitting the type) leaves [cwnd = ssthresh], at least [2 * MSS]
    and at most the larger of the old window and [2 * MSS]; a window that is
    at most [2 * MSS] becomes exactly [2 * MSS], so that a smaller window is
    raised by the event. *)
Theorem reduction_window_bounds
        (cbrt : Double.double -> Double.double)
        (s : Strategy) (sk : SocketState) (now : Z)
        (e : CongestionEvent.t) :
  Engine.default_decrease s ->
  0 <= cwnd_ sk < modulus32 ->
  0 <= 2 * mss_bytes_ sk < modulus32 ->
  e = CongestionEvent.PacketLoss \/ e = CongestionEvent.ECN ->
  exists s' sk',
    Engine.step cbrt (s, Some sk) (Call.CwndEvent now e)
    = Some (s', Some sk') /\
    cwnd_ sk' = ssthresh_ sk' /\
    2 * mss_bytes_ sk <= cwnd_ sk' <= Z.max (cwnd_ sk) (2 * mss_bytes_ sk) /\
    (cwnd_ sk <= 2 * mss_bytes_ sk -> cwnd_ sk' = 2 * mss_bytes_ sk).
Proof.
  intros Hbeta Hc Hm He.
  assert (Hm2 : mul32 2 (mss_bytes_ sk) = 2 * mss_bytes_ sk)
    by (apply mul32_small; lia).
  destruct s as [b|c]; cbn in Hbeta; unfold Engine.step.
  - assert (Hv : 0 <= 4 * cwnd_ sk / 5 <= cwnd_ sk).
    { split; [apply Z.div_pos; lia|].
      apply Z.div_le_upper_bound; lia. }
    unfold BIC.CwndEvent.
    destruct He as [-> | ->];
      rewrite !ReductionFacts.BIC_GetSsThresh_eq; cbn;
      rewrite ?Hbeta, ?Hm2;
      (assert (Hcut : forall l,
          Double.to_uint32
            (Double.mul (Double.of_Z (cwnd_ sk))
               (BIC.m_beta (if l <? cwnd_ sk
                            then BIC.set_lastMaxCwnd (cwnd_ sk) b else b)))
          = 4 * cwnd_ sk / 5)
        by (intros l; destruct (l <? cwnd_ sk); cbn; rewrite Hbeta;
            apply DecreaseFacts.to_uint32_mul_0_8_floor; exact Hc));
      rewrite ?Hcut, ?DecreaseFacts.to_uint32_mul_0_8_floor by exact Hc;
      do 2 eexists; (split; [reflexivity|]); cbn; lia.
  - destruct (DecreaseFacts.to_uint32_mul_0_7_bounds (cwnd_ sk) Hc)
      as (Hr & Hr0 & _).
    assert (Hv : 7 * cwnd_ sk / 10 <= cwnd_ sk)
      by (apply Z.div_le_upper_bound; lia).
    unfold Cubic.CwndEvent.
    destruct He as [-> | ->];
      rewrite !ReductionFacts.Cubic_GetSsThresh_eq; cbn;
      rewrite ?LossFacts.CalculateK_ssthresh; cbn;
      rewrite ?Hbeta, ?Hm2;
      do 2 eexists; (split; [reflexivity|]); cbn; lia.
Qed.

Lemma reduction_window_bounds_witness :
  exists s' sk',
    Engine.step Sample.cbrt_stub
      (UseCubic (Cubic.init 0), Some Sample.fresh_socket)
      (Call.CwndEvent 5 CongestionEvent.PacketLoss)
    = Some (s', Some sk') /\
    cwnd_ sk' = ssthresh_ sk' /\
    2 * 1460 <= cwnd_ sk' <= Z.max 1460 (2 * 1460) /\
    (1460 <= 2 * 1460 -> cwnd_ sk' = 2 * 1460).
Proof.
  apply (reduction_window_bounds Sample.cbrt_stub (UseCubic (Cubic.init 0))
           Sample.fresh_socket 5 CongestionEvent.PacketLoss).
  - reflexivity.
  - unfold modulus32. cbn. lia.
  - unfold modulus32. cbn. lia.
  - left. reflexivity.
Defined.


(** ** The acknowledgment path *)

Module AckFacts.

Lemma not_Recovery st :
  st <> TCPState.Recovery -> TCPState.eqb st TCPState.Recovery = false.
Proof. destruct st; intros H; try reflexivity. now elim H. Qed.

Lemma min_min a b : Z.min (Z.min a b) b = Z.min a b.
Proof. lia. Qed.

Lemma if_ltb_min a b : (if a <? b then a else b) = Z.min b a.
Proof.
  destruct (a <? b) eqn:E;
    [apply Z.ltb_lt in E | apply Z.ltb_ge in E]; lia.
Qed.

(** An acknowledgment of [n] segments in slow start, for either
    strategy. *)
Lemma slow_start_step cbrt s sk now n :
  TCPState.eqb (tcp_state_ sk) TCPState.Recovery = false ->
  cwnd_ sk < ssthresh_ sk ->
  0 <= cwnd_ sk -> 0 <= mss_bytes_ sk -> 0 < n ->
  cwnd_ sk + n * mss_bytes_ sk < modulus32 ->
  exists s',
    Engine.step cbrt (s, Some sk) (Call.IncreaseWindow now n)
    = Some (s', Some (set_cwnd_
                        (Z.min (Z.min (cwnd_ sk + n * mss_bytes_ sk)
                                      (ssthresh_ sk))
                               (Engine.m_maxCwnd s)) sk)) /\
    Engine.m_maxCwnd s' = Engine.m_maxCwnd s.
Proof.
  intros Hst Hss Hc Hmss Hn Hw.
  assert (Hnm : mul32 n (mss_bytes_ sk) = n * mss_bytes_ sk)
    by (apply mul32_small; nia).
  assert (Hadd : add32 (cwnd_ sk) (n * mss_bytes_ sk)
                 = cwnd_ sk + n * mss_bytes_ sk)
    by (apply add32_small; nia).
  assert (En : (n =? 0) = false) by (apply Z.eqb_neq; lia).
  apply Z.ltb_lt in Hss.
  destruct s as [b|c]; unfold Engine.step.
  - unfold BIC.IncreaseWindow. rewrite En, Hst. cbn. rewrite Hss, En.
    cbn. rewrite Hnm, Hadd, min_min, if_ltb_min.
    eexists. split; reflexivity.
  - unfold Cubic.IncreaseWindow. rewrite En, Hst.
    cbn [Cubic.m_cwnd Cubic.m_ssthresh Cubic.set_cwnd Cubic.set_ssthresh].
    rewrite Hss. unfold Cubic.SlowStart. rewrite En.
    cbn [Cubic.m_cwnd Cubic.m_ssthresh Cubic.set_cwnd Cubic.set_ssthresh].
    rewrite Hnm, Hadd.
    destruct (ssthresh_ sk <? cwnd_ sk + n * mss_bytes_ sk) eqn:E;
      [apply Z.ltb_lt in E; rewrite (Z.min_r _ (ssthresh_ sk)) by lia
      | apply Z.ltb_ge in E; rewrite (Z.min_l _ (ssthresh_ sk)) by lia];
      cbn; rewrite min_min; eexists; split; reflexivity.
Qed.

(** An acknowledgment of [n] segments during recovery. *)
Lemma recovery_step cbrt s sk now n :
  tcp_state_ sk = TCPState.Recovery ->
  0 <= cwnd_ sk -> 0 <= mss_bytes_ sk -> 0 < n ->
  cwnd_ sk + n * mss_bytes_ sk < modulus32 ->
  exists s',
    Engine.step cbrt (s, Some sk) (Call.IncreaseWindow now n)
    = Some (s', Some (set_cwnd_
                        (Z.min (cwnd_ sk + n * mss_bytes_ sk)
                               (Engine.m_maxCwnd s)) sk)) /\
    Engine.m_maxCwnd s' = Engine.m_maxCwnd s.
Proof.
  intros Hst Hc Hmss Hn Hw.
  assert (Hnm : mul32 n (mss_bytes_ sk) = n * mss_bytes_ sk)
    by (apply mul32_small; nia).
  assert (Hadd : add32 (cwnd_ sk) (n * mss_bytes_ sk)
                 = cwnd_ sk + n * mss_bytes_ sk)
    by (apply add32_small; nia).
  assert (En : (n =? 0) = false) by (apply Z.eqb_neq; lia).
  destruct s as [b|c]; unfold Engine.step.
  - unfold BIC.IncreaseWindow. rewrite En, Hst. cbn.
    rewrite Hnm, Hadd, min_min. eexists. split; reflexivity.
  - unfold Cubic.IncreaseWindow. rewrite En, Hst. cbn.
    rewrite Hnm, Hadd, min_min. eexists. split; reflexivity.
Qed.

(** The socket after a timeout. *)
Lemma timeout_step cbrt s sk now :
  exists s' v,
    Engine.step cbrt (s, Some sk)
      (Call.CwndEvent now CongestionEvent.Timeout)
    = Some (s', Some (set_tcp_state_ TCPState.Loss
                        (set_cwnd_ (mss_bytes_ sk)
                           (set_ssthresh_ v
                              (set_congestion_event_
                                 CongestionEvent.Timeout sk))))) /\
    mul32 2 (mss_bytes_ sk) <= v /\
    Engine.m_maxCwnd s' = Engine.m_maxCwnd s.
Proof.
  destruct s as [b|c]; unfold Engine.step.
  - unfold BIC.CwndEvent. rewrite ReductionFacts.BIC_GetSsThresh_eq.
    cbn. do 2 eexists. split; [reflexivity|].
    split; [apply Z.le_max_r | break_if; reflexivity].
  - unfold Cubic.CwndEvent. rewrite ReductionFacts.Cubic_GetSsThresh_eq.
    cbn. do 2 eexists. split; [reflexivity|].
    split; [apply Z.le_max_r|].
    rewrite <- LossFacts.CalculateK_frame. reflexivity.
Qed.

(** The socket after a packet loss. *)
Lemma packet_loss_step cbrt s sk now :
  exists s' v,
    Engine.step cbrt (s, Some sk)
      (Call.CwndEvent now CongestionEvent.PacketLoss)
    = Some (s', Some (set_tcp_state_ TCPState.Recovery
                        (set_cwnd_ v
                           (set_ssthresh_ v
                              (set_congestion_event_
                                 CongestionEvent.PacketLoss sk))))) /\
    0 <= v /\
    Engine.m_maxCwnd s' = Engine.m_maxCwnd s /\
    Engine.nonneg_increments s' = Engine.nonneg_increments s /\
    Engine.max_segments s' = Engine.max_segments s.
Proof.
  assert (Hpos : forall x,
             0 <= Z.max (Double.to_uint32 x) (mul32 2 (mss_bytes_ sk))).
  { intros x. pose proof (wrap32_range (2 * mss_bytes_ sk)).
    unfold mul32. lia. }
  destruct s as [b|c]; unfold Engine.step.
  - unfold BIC.CwndEvent. rewrite ReductionFacts.BIC_GetSsThresh_eq.
    cbn. do 2 eexists. split; [reflexivity|].
    split; [apply Hpos|]. repeat split; break_if; reflexivity.
  - unfold Cubic.CwndEvent. rewrite ReductionFacts.Cubic_GetSsThresh_eq.
    cbn. rewrite !LossFacts.CalculateK_ssthresh. cbn.
    do 2 eexists. split; [reflexivity|].
    split; [apply Hpos|].
    rewrite <- LossFacts.CalculateK_frame. repeat split.
Qed.

End AckFacts.

(** X5. For BIC and for CUBIC, [IncreaseWindow] for [n > 0] acknowledged
    segments on a socket that is not in [Recovery] and whose window is below
    the threshold (slow start) stores the window
    [min (cwnd + n * MSS, ssthresh, m_maxCwnd)], when the sum fits 32 bits;
    nothing else of the socket changes. *)
Theorem slow_start_exact
        (cbrt : Double.double -> Double.double)
        (s : Strategy) (sk : SocketState) (now n : Z) :
  tcp_state_ sk <> TCPState.Recovery ->
  cwnd_ sk < ssthresh_ sk ->
  0 <= cwnd_ sk -> 0 <= mss_bytes_ sk -> 0 < n ->
  cwnd_ sk + n * mss_bytes_ sk < modulus32 ->
  exists s',
    Engine.step cbrt (s, Some sk) (Call.IncreaseWindow now n)
    = Some (s', Some (set_cwnd_
                        (Z.min (Z.min (cwnd_ sk + n * mss_bytes_ sk)
                                      (ssthresh_ sk))
                               (Engine.m_maxCwnd s)) sk)).
Proof.
  intros Hst Hss Hc Hmss Hn Hw.
  destruct (AckFacts.slow_start_step cbrt s sk now n
              (AckFacts.not_Recovery _ Hst) Hss Hc Hmss Hn Hw)
    as (s' & Hstep & _).
  exists s'. exact Hstep.
Qed.

Lemma slow_start_exact_witness :
  exists s',
    Engine.step Sample.cbrt_stub
      (UseBIC (BIC.init 0), Some Sample.fresh_socket)
      (Call.IncreaseWindow 7 3)
    = Some (s', Some (set_cwnd_ 5840 Sample.fresh_socket)).
Proof.
  apply (slow_start_exact Sample.cbrt_stub (UseBIC (BIC.init 0))
           Sample.fresh_socket 7 3).
  - discriminate.
  - reflexivity.
  - discriminate.
  - discriminate.
  - reflexivity.
  - reflexivity.
Defined.

(** X6. For BIC and for CUBIC and every state with a positive MSS: after
    [CwndEvent] with [Timeout], the next [IncreaseWindow] for [n > 0]
    segments is a slow-start step from one segment; it leaves the window at
    [min ((n + 1) * MSS, ssthresh, m_maxCwnd)], with the threshold of the
    timeout (at least [2 * MSS]) and the phase [Loss]. *)
Theorem timeout_then_ack_restarts_slow_start
        (cbrt : Double.double -> Double.double)
        (s : Strategy) (sk : SocketState) (now now' n : Z) :
  0 < mss_bytes_ sk -> 0 < n ->
  (n + 1) * mss_bytes_ sk < modulus32 ->
  exists s' sk',
    Engine.run cbrt (s, Some sk)
      [Call.CwndEvent now CongestionEvent.Timeout;
       Call.IncreaseWindow now' n]
    = Some (s', Some sk') /\
    2 * mss_bytes_ sk <= ssthresh_ sk' /\
    cwnd_ sk' = Z.min (Z.min ((n + 1) * mss_bytes_ sk) (ssthresh_ sk'))
                      (Engine.m_maxCwnd s) /\
    tcp_state_ sk' = TCPState.Loss.
Proof.
  intros Hmss Hn Hw.
  assert (Hm32 : modulus32 = 4294967296) by reflexivity.
  assert (Hm2 : mul32 2 (mss_bytes_ sk) = 2 * mss_bytes_ sk)
    by (apply mul32_small; nia).
  destruct (AckFacts.timeout_step cbrt s sk now) as (s1 & v & Hstep & Hv & Hk).
  cbn [Engine.run]. rewrite Hstep. rewrite Hm2 in Hv.
  match goal with
  | |- context [Engine.step cbrt (s1, Some ?x) _] => set (sk1 := x)
  end.
  destruct (AckFacts.slow_start_step cbrt s1 sk1 now' n eq_refl
              ltac:(unfold sk1; cbn; nia) ltac:(unfold sk1; cbn; nia)
              ltac:(unfold sk1; cbn; nia) Hn ltac:(unfold sk1; cbn; nia))
    as (s2 & Hstep2 & _).
  rewrite Hstep2. do 2 eexists. split; [reflexivity|]. cbn.
  rewrite Hk. repeat split; [lia | f_equal; f_equal; ring].
Qed.

Lemma timeout_then_ack_restarts_slow_start_witness :
  exists s' sk',
    Engine.run Sample.cbrt_stub
      (UseCubic (Cubic.init 0), Some (Sample.socket 20))
      [Call.CwndEvent 5 CongestionEvent.Timeout; Call.IncreaseWindow 9 1]
    = Some (s', Some sk') /\
    2 * 1460 <= ssthresh_ sk' /\
    cwnd_ sk' = Z.min (Z.min ((1 + 1) * 1460) (ssthresh_ sk')) 65535 /\
    tcp_state_ sk' = TCPState.Loss.
Proof.
  apply (timeout_then_ack_restarts_slow_start Sample.cbrt_stub
           (UseCubic (Cubic.init 0)) (Sample.socket 20) 5 9 1).
  - cbn. lia.
  - lia.
  - unfold modulus32. cbn. lia.
Defined.

(** X7. For BIC and for CUBIC on an initialized connection: after
    [CwndEvent] with [PacketLoss], the next [IncreaseWindow] for [n <> 0]
    segments (without wrap-around) sets the window to
    [min (ssthresh + n * MSS, m_maxCwnd)], with the threshold of the loss,
    and the phase stays [Recovery].  The window is then above the
    threshold whenever the threshold is below [m_maxCwnd]; otherwise it is
    [m_maxCwnd], which may lie below the threshold. *)
Theorem packet_loss_then_ack_inflates
        (cbrt : Double.double -> Double.double)
        (w : World) (now now' n : Z) :
  Engine.initialized w = true ->
  Engine.wrap_free cbrt w
    [Call.CwndEvent now CongestionEvent.PacketLoss;
     Call.IncreaseWindow now' n] = true ->
  n <> 0 ->
  exists s' sk',
    Engine.run cbrt w
      [Call.CwndEvent now CongestionEvent.PacketLoss;
       Call.IncreaseWindow now' n]
    = Some (s', Some sk') /\
    cwnd_ sk' = Z.min (ssthresh_ sk' + n * mss_bytes_ sk')
                      (Engine.m_maxCwnd s') /\
    tcp_state_ sk' = TCPState.Recovery /\
    (ssthresh_ sk' < Engine.m_maxCwnd s' -> ssthresh_ sk' < cwnd_ sk').
Proof.
  intros Hinit Hwf Hn. destruct w as [s socket].
  apply FloorFacts.initialized_floor_ok in Hinit as (sk & Hs & Hok).
  cbn [fst snd] in Hs, Hok. subst socket.
  destruct Hok as (Hmss & _).
  destruct (AckFacts.packet_loss_step cbrt s sk now)
    as (s1 & v & Hstep & Hv & Hk & Hnn & Hms).
  cbn [Engine.wrap_free Engine.run] in *. rewrite Hstep in *.
  match goal with
  | |- context [Engine.step cbrt (s1, Some ?x) _] => set (sk1 := x) in *
  end.
  apply andb_true_iff in Hwf as [_ Hwf].
  apply andb_true_iff in Hwf as [Hwf _].
  cbn [Engine.no_wrap fst snd] in Hwf.
  apply andb_true_iff in Hwf as [Hwf Hw].
  apply andb_true_iff in Hwf as [Hn0 Hinc].
  apply Z.leb_le in Hn0. apply Z.ltb_lt in Hw.
  assert (Hseg : n <= Engine.max_segments s1 n)
    by (destruct s1; cbn; lia).
  assert (Hn1 : 0 < n) by lia.
  assert (Hw1 : v + n * mss_bytes_ sk < modulus32).
  { unfold sk1 in Hw.
    cbn [cwnd_ mss_bytes_ set_tcp_state_ set_cwnd_ set_ssthresh_
         set_congestion_event_] in Hw.
    pose proof (Z.mul_le_mono_nonneg_r n (Engine.max_segments s1 n)
                  (mss_bytes_ sk) ltac:(lia) Hseg).
    lia. }
  assert (H1 : 0 <= cwnd_ sk1) by (unfold sk1; cbn; lia).
  assert (H2 : 0 <= mss_bytes_ sk1) by (unfold sk1; cbn; lia).
  assert (H3 : cwnd_ sk1 + n * mss_bytes_ sk1 < modulus32)
    by (unfold sk1; cbn; exact Hw1).
  destruct (AckFacts.recovery_step cbrt s1 sk1 now' n eq_refl H1 H2 Hn1 H3)
    as (s2 & Hstep2 & Hk2).
  rewrite Hstep2. do 2 eexists. split; [reflexivity|].
  cbn [cwnd_ ssthresh_ mss_bytes_ tcp_state_ set_cwnd_ set_tcp_state_
       set_ssthresh_ set_congestion_event_].
  unfold sk1.
  cbn [cwnd_ ssthresh_ mss_bytes_ tcp_state_ set_cwnd_ set_tcp_state_
       set_ssthresh_ set_congestion_event_].
  rewrite Hk2. split; [reflexivity|]. split; [reflexivity|].
  intros Hbelow.
  assert (0 < n * mss_bytes_ sk) by (apply Z.mul_pos_pos; lia).
  lia.
Qed.

Lemma packet_loss_then_ack_inflates_witness :
  exists s' sk',
    Engine.run Sample.cbrt_stub
      (UseBIC (BIC.init 0), Some (Sample.socket 20))
      [Call.CwndEvent 5 CongestionEvent.PacketLoss;
       Call.IncreaseWindow 9 2]
    = Some (s', Some sk') /\
    cwnd_ sk' = Z.min (ssthresh_ sk' + 2 * mss_bytes_ sk')
                      (Engine.m_maxCwnd s') /\
    tcp_state_ sk' = TCPState.Recovery /\
    (ssthresh_ sk' < Engine.m_maxCwnd s' -> ssthresh_ sk' < cwnd_ sk').
Proof.
  apply (packet_loss_then_ack_inflates Sample.cbrt_stub
           (UseBIC (BIC.init 0), Some (Sample.socket 20)) 5 9 2).
  - reflexivity.
  - vm_compute. reflexivity.
  - discriminate.
Defined.

Module GrowthFacts.
Import Engine.

Lemma set_cwnd_same sk : set_cwnd_ (cwnd_ sk) sk = sk.
Proof. destruct sk; reflexivity. Qed.

(** While the new-maximum flag is unset, the target of [BIC::BicUpdate]
    is [m_maxIncr] segments away and the step is linear. *)
Lemma BicUpdate_linear b sk :
  BIC.m_foundNewMax b = false ->
  0 < mss_bytes_ sk -> 0 <= BIC.m_cwnd b ->
  0 < BIC.m_maxIncr b < 2 ^ 31 -> 0 <= BIC.m_minIncr b ->
  BIC.m_cwnd b + Z.max (BIC.m_maxIncr b) (BIC.m_minIncr b) * mss_bytes_ sk
  < modulus32 ->
  exists b',
    BIC.BicUpdate b (Some sk) = Some b' /\
    BIC.m_cwnd b'
    = Z.max (BIC.m_cwnd b + bic_linear_increment b * mss_bytes_ sk)
            (BIC.m_minWin b) /\
    BIC.m_foundNewMax b' = false /\
    BIC.m_lastMaxCwnd b' = BIC.m_lastMaxCwnd b /\
    BIC.m_maxIncr b' = BIC.m_maxIncr b /\
    BIC.m_maxCwnd b' = BIC.m_maxCwnd b.
Proof.
  intros Hflag Hmss Hc Hmax Hmin Hw.
  assert (Hm32 : modulus32 = 4294967296) by reflexivity.
  change (2 ^ 31) with 2147483648 in Hmax.
  set (mss := mss_bytes_ sk) in *.
  set (h := BIC.m_maxIncr b / 2).
  assert (Hh : 0 <= h <= BIC.m_maxIncr b).
  { unfold h. split; [apply Z.div_pos; lia|].
    apply Z.div_le_upper_bound; lia. }
  assert (Hmaxm : mul32 (BIC.m_maxIncr b) mss = BIC.m_maxIncr b * mss)
    by (apply mul32_small; nia).
  assert (Hminm : mul32 (BIC.m_minIncr b) mss = BIC.m_minIncr b * mss)
    by (apply mul32_small; nia).
  assert (Hhm : mul32 h mss = h * mss) by (apply mul32_small; nia).
  assert (Hdist : to_int32 (sub32 (add32 (BIC.m_cwnd b)
                                         (BIC.m_maxIncr b * mss))
                                  (BIC.m_cwnd b) / mss)
                  = BIC.m_maxIncr b).
  { rewrite add32_small by nia. rewrite sub32_small by nia.
    replace (BIC.m_cwnd b + BIC.m_maxIncr b * mss - BIC.m_cwnd b)
      with (BIC.m_maxIncr b * mss) by ring.
    rewrite Z.div_mul by lia.
    apply to_int32_small. change (2 ^ 31) with 2147483648. lia. }
  assert (Hi : to_int32 (BIC.m_maxIncr b) = BIC.m_maxIncr b)
    by (apply to_int32_small; change (2 ^ 31) with 2147483648; lia).
  assert (Hile : to_int32 (BIC.m_minIncr b) <= BIC.m_minIncr b)
    by (apply to_int32_le; nia).
  unfold BIC.BicUpdate, div32. fold mss.
  replace (mss =? 0) with false by (symmetry; apply Z.eqb_neq; lia).
  cbn [BIC.m_foundNewMax BIC.m_cwnd BIC.m_maxIncr BIC.m_lastMaxCwnd
       BIC.set_ackCount].
  rewrite Hflag. cbn [negb orb]. rewrite Hmaxm, Hdist.
  eexists. split; [reflexivity|].
  unfold BIC.grow, bic_linear_increment. fold h.
  cbn [BIC.m_foundNewMax BIC.m_cwnd BIC.m_maxIncr BIC.m_minIncr
       BIC.m_lastMaxCwnd BIC.m_minWin BIC.set_ackCount BIC.set_cwnd].
  rewrite Hi, Z.ltb_irrefl.
  replace (0 <? BIC.m_maxIncr b) with true by (symmetry; apply Z.ltb_lt; lia).
  fold h. rewrite Hhm, Hminm.
  assert (Hinc :
    (if to_int32 (BIC.m_minIncr b) <? BIC.m_maxIncr b
     then if h * mss <? BIC.m_minIncr b * mss
          then BIC.m_minIncr b * mss else h * mss
     else BIC.m_minIncr b * mss)
    = Z.max h (BIC.m_minIncr b) * mss).
  { destruct (to_int32 (BIC.m_minIncr b) <? BIC.m_maxIncr b) eqn:E1;
      [|apply Z.ltb_ge in E1; nia].
    destruct (h * mss <? BIC.m_minIncr b * mss) eqn:E2;
      [apply Z.ltb_lt in E2 | apply Z.ltb_ge in E2]; nia. }
  rewrite Hinc. rewrite add32_small by nia.
  break_if; cbn; repeat split; try exact Hflag;
    match goal with
    | H : (_ <? _) = true |- _ => cbn in H; apply Z.ltb_lt in H
    | H : (_ <? _) = false |- _ => cbn in H; apply Z.ltb_ge in H
    end;
    set (x := Z.max h (BIC.m_minIncr b) * mss) in *; lia.
Qed.

(** An acknowledgment under BIC stores a window that is not below the
    old one, up to the window bound. *)
Lemma BIC_IncreaseWindow_grows b sk n :
  0 < mss_bytes_ sk -> 0 <= cwnd_ sk ->
  0 <= n -> 0 <= BIC.m_maxIncr b -> 0 <= BIC.m_minIncr b ->
  cwnd_ sk + Z.max n (Z.max (BIC.m_maxIncr b) (BIC.m_minIncr b))
             * mss_bytes_ sk < modulus32 ->
  exists b' w,
    BIC.IncreaseWindow b (Some sk) n = Some (b', Some (set_cwnd_ w sk)) /\
    Z.min (cwnd_ sk) (BIC.m_maxCwnd b) <= w.
Proof.
  intros Hmss Hc Hn Hmax Hmin Hw.
  assert (Hm32 : modulus32 = 4294967296) by reflexivity.
  set (mss := mss_bytes_ sk) in *.
  assert (Hwn : cwnd_ sk + n * mss < modulus32) by nia.
  assert (Hwmax : cwnd_ sk + BIC.m_maxIncr b * mss < modulus32) by nia.
  assert (Hwmin : cwnd_ sk + BIC.m_minIncr b * mss < modulus32) by nia.
  assert (Hnm : mul32 n mss = n * mss) by (apply mul32_small; nia).
  assert (Hadd : add32 (cwnd_ sk) (n * mss) = cwnd_ sk + n * mss)
    by (apply add32_small; nia).
  unfold BIC.IncreaseWindow.
  destruct (n =? 0) eqn:En.
  { exists b, (cwnd_ sk). rewrite set_cwnd_same. split; [reflexivity | lia]. }
  destruct (TCPState.eqb (tcp_state_ sk) TCPState.Recovery).
  { cbn. fold mss. rewrite Hnm, Hadd.
    do 2 eexists. split; [reflexivity|]. nia. }
  cbn [BIC.m_cwnd BIC.m_ssthresh BIC.set_cwnd BIC.set_ssthresh].
  destruct (cwnd_ sk <? ssthresh_ sk) eqn:Ess.
  { apply Z.ltb_lt in Ess. cbn. rewrite En. fold mss. rewrite Hnm, Hadd.
    do 2 eexists. split; [reflexivity|]. break_if; nia. }
  unfold BIC.CongestionAvoidance. rewrite En.
  unfold BIC.BicUpdate, div32. fold mss.
  replace (mss =? 0) with false by (symmetry; apply Z.eqb_neq; lia).
  match goal with
  | |- context [BIC.grow ?x ?m ?d] =>
      pose proof (FloorFacts.BIC_grow_cwnd x m d) as Hg;
      pose proof (BICFacts.grow_maxCwnd x m d) as Hk;
      set (g := BIC.grow x m d) in *
  end.
  cbn in Hg, Hk. specialize (Hg ltac:(lia) ltac:(lia) Hmax Hmin Hwmax Hwmin).
  do 2 eexists. split; [reflexivity|]. cbn. rewrite Hk. lia.
Qed.

Lemma Cubic_IncreaseWindow_grows now c sk n :
  0 < mss_bytes_ sk -> 0 <= cwnd_ sk -> 0 <= n ->
  cwnd_ sk + n * mss_bytes_ sk < modulus32 ->
  exists c' w,
    Cubic.IncreaseWindow now c (Some sk) n
    = Some (c', Some (set_cwnd_ w sk)) /\
    Z.min (cwnd_ sk) (Cubic.m_maxCwnd c) <= w.
Proof.
  intros Hmss Hc Hn Hw.
  assert (Hm32 : modulus32 = 4294967296) by reflexivity.
  set (mss := mss_bytes_ sk) in *.
  assert (Hnm : mul32 n mss = n * mss) by (apply mul32_small; nia).
  assert (Hadd : add32 (cwnd_ sk) (n * mss) = cwnd_ sk + n * mss)
    by (apply add32_small; nia).
  unfold Cubic.IncreaseWindow.
  destruct (n =? 0) eqn:En.
  { exists c, (cwnd_ sk). rewrite set_cwnd_same. split; [reflexivity | lia]. }
  apply Z.eqb_neq in En.
  destruct (TCPState.eqb (tcp_state_ sk) TCPState.Recovery).
  { cbn. fold mss. rewrite Hnm, Hadd.
    do 2 eexists. split; [reflexivity|]. nia. }
  cbn [Cubic.m_cwnd Cubic.m_ssthresh Cubic.set_cwnd Cubic.set_ssthresh].
  destruct (cwnd_ sk <? ssthresh_ sk) eqn:Ess.
  { apply Z.ltb_lt in Ess. unfold Cubic.SlowStart.
    replace (n =? 0) with false by (symmetry; apply Z.eqb_neq; lia).
    cbn. fold mss. rewrite Hnm, Hadd.
    destruct (ssthresh_ sk <? cwnd_ sk + n * mss) eqn:Ecap;
      do 2 eexists; (split; [reflexivity|]); cbn; nia. }
  unfold Cubic.CongestionAvoidance.
  replace (n =? 0) with false by (symmetry; apply Z.eqb_neq; lia).
  match goal with
  | |- context [Cubic.CubicUpdate ?t ?x (Some sk)] =>
      destruct (CubicFacts.CubicUpdate_returns t x sk ltac:(lia))
        as [c1 Hc1];
      rewrite Hc1;
      apply CubicFacts.CubicUpdate_inv in Hc1 as [Hk Hc1]
  end.
  cbn in Hk, Hc1. fold mss in Hc1.
  rewrite add32_small in Hc1 by nia.
  do 2 eexists. split; [reflexivity|]. cbn. rewrite Hk. lia.
Qed.

End GrowthFacts.

(** X8. For BIC and for CUBIC on an initialized connection,
    [IncreaseWindow] without wrap-around returns, changes nothing of the
    socket but the window, and stores a window that is at least the smaller
    of the old window and [m_maxCwnd]: an acknowledgment lowers the window
    only to enforce the bound. *)
Theorem ack_never_shrinks_window
        (cbrt : Double.double -> Double.double)
        (s : Strategy) (sk : SocketState) (now n : Z) :
  Engine.initialized (s, Some sk) = true ->
  Engine.no_wrap (s, Some sk) (Call.IncreaseWindow now n) = true ->
  exists s' w,
    Engine.step cbrt (s, Some sk) (Call.IncreaseWindow now n)
    = Some (s', Some (set_cwnd_ w sk)) /\
    Z.min (cwnd_ sk) (Engine.m_maxCwnd s) <= w.
Proof.
  intros Hinit Hnw.
  apply FloorFacts.initialized_floor_ok in Hinit as (sk0 & [= <-] & Hok).
  destruct Hok as (Hmss & Hcap & H2 & Hfl). cbn [fst] in *.
  cbn [Engine.no_wrap snd fst] in Hnw.
  apply andb_true_iff in Hnw as [Hnw Hw].
  apply andb_true_iff in Hnw as [Hn Hinc].
  apply Z.leb_le in Hn. apply Z.ltb_lt in Hw.
  destruct s as [b|c]; unfold Engine.step.
  - cbn [Engine.max_segments Engine.nonneg_increments] in Hinc, Hw.
    apply andb_true_iff in Hinc as [Hmax Hmin].
    apply Z.leb_le in Hmax, Hmin.
    destruct (GrowthFacts.BIC_IncreaseWindow_grows b sk n)
      as (b' & w & -> & Hle); try lia.
    cbn. do 2 eexists. split; [reflexivity | exact Hle].
  - cbn [Engine.max_segments] in Hw.
    destruct (GrowthFacts.Cubic_IncreaseWindow_grows now c sk n)
      as (c' & w & -> & Hle); try lia.
    cbn. do 2 eexists. split; [reflexivity | exact Hle].
Qed.

Lemma ack_never_shrinks_window_witness :
  exists s' w,
    Engine.step Sample.cbrt_stub
      (UseCubic (Cubic.init 0), Some (Sample.socket 20))
      (Call.IncreaseWindow 9 2)
    = Some (s', Some (set_cwnd_ w (Sample.socket 20))) /\
    Z.min (cwnd_ (Sample.socket 20)) 65535 <= w.
Proof.
  apply (ack_never_shrinks_window Sample.cbrt_stub
           (UseCubic (Cubic.init 0)) (Sample.socket 20) 9 2).
  - reflexivity.
  - reflexivity.
Defined.

(** X9. Under BIC, while the new-maximum flag [m_foundNewMax] is unset
    (as the constructor, a loss and a timeout leave it), one
    congestion-avoidance call of [IncreaseWindow] ([cwnd >= ssthresh], not
    in [Recovery], [n <> 0], [0 < Smax < 2^31], no wrap-around) does not
    search toward [m_lastMaxCwnd]: the target is [Smax] segments away, and
    the window becomes
    [min (max (cwnd + max (Smax / 2, Smin) * MSS, m_minWin), m_maxCwnd)]
    whatever [n] and [m_lastMaxCwnd] are; the flag stays unset and
    [m_lastMaxCwnd] is unchanged. *)
Theorem bic_congestion_avoidance_is_linear
        (b : BIC.State) (sk : SocketState) (n : Z) :
  tcp_state_ sk <> TCPState.Recovery ->
  ssthresh_ sk <= cwnd_ sk ->
  n <> 0 ->
  BIC.m_foundNewMax b = false ->
  0 < mss_bytes_ sk -> 0 <= cwnd_ sk ->
  0 < BIC.m_maxIncr b < 2 ^ 31 -> 0 <= BIC.m_minIncr b ->
  cwnd_ sk + Z.max (BIC.m_maxIncr b) (BIC.m_minIncr b) * mss_bytes_ sk
  < modulus32 ->
  exists b',
    BIC.IncreaseWindow b (Some sk) n
    = Some (b',
            Some (set_cwnd_
                    (Z.min
                       (Z.max (cwnd_ sk + Engine.bic_linear_increment b
                                          * mss_bytes_ sk)
                              (BIC.m_minWin b))
                       (BIC.m_maxCwnd b)) sk)) /\
    BIC.m_foundNewMax b' = false /\
    BIC.m_lastMaxCwnd b' = BIC.m_lastMaxCwnd b.
Proof.
  intros Hst Hss Hn Hflag Hmss Hc Hmax Hmin Hw.
  unfold BIC.IncreaseWindow.
  apply Z.eqb_neq in Hn. rewrite Hn.
  rewrite (AckFacts.not_Recovery _ Hst).
  cbn [BIC.m_cwnd BIC.m_ssthresh BIC.set_cwnd BIC.set_ssthresh].
  replace (cwnd_ sk <? ssthresh_ sk) with false
    by (symmetry; apply Z.ltb_ge; exact Hss).
  unfold BIC.CongestionAvoidance. rewrite Hn.
  destruct (GrowthFacts.BicUpdate_linear
              (BIC.set_ssthresh (ssthresh_ sk) (BIC.set_cwnd (cwnd_ sk) b))
              sk Hflag Hmss Hc Hmax Hmin Hw)
    as (b1 & -> & Hcw & Hf & Hl & _ & Hk).
  cbn in Hcw, Hl, Hk. unfold Engine.bic_linear_increment in *.
  cbn in Hcw.
  eexists. split.
  - cbn. rewrite Hcw, Hk. reflexivity.
  - cbn. split; [exact Hf | exact Hl].
Qed.

Lemma bic_congestion_avoidance_is_linear_witness :
  exists b',
    BIC.IncreaseWindow (BIC.init 0) (Some (Sample.socket 20)) 1
    = Some (b', Some (set_cwnd_ 52560 (Sample.socket 20))) /\
    BIC.m_foundNewMax b' = false /\
    BIC.m_lastMaxCwnd b' = 0.
Proof.
  apply (bic_congestion_avoidance_is_linear (BIC.init 0)
           (Sample.socket 20) 1).
  - discriminate.
  - cbn. lia.
  - discriminate.
  - reflexivity.
  - reflexivity.
  - discriminate.
  - split; reflexivity.
  - discriminate.
  - reflexivity.
Defined.

Module FlagFacts.
Import Engine.

Lemma BIC_IncreaseWindow_flag b sk n b' socket' :
  0 < mss_bytes_ sk -> 0 <= cwnd_ sk ->
  0 < BIC.m_maxIncr b < 2 ^ 31 -> 0 <= BIC.m_minIncr b ->
  cwnd_ sk + Z.max (BIC.m_maxIncr b) (BIC.m_minIncr b) * mss_bytes_ sk
  < modulus32 ->
  BIC.m_foundNewMax b = false ->
  BIC.IncreaseWindow b (Some sk) n = Some (b', socket') ->
  BIC.m_foundNewMax b' = false /\ BIC.m_maxIncr b' = BIC.m_maxIncr b.
Proof.
  intros Hmss Hc Hmax Hmin Hw Hflag.
  unfold BIC.IncreaseWindow.
  destruct (n =? 0) eqn:En.
  { intros [= <- <-]. auto. }
  destruct (TCPState.eqb (tcp_state_ sk) TCPState.Recovery).
  { intros [= <- <-]. auto. }
  cbn [BIC.m_cwnd BIC.m_ssthresh BIC.set_cwnd BIC.set_ssthresh].
  destruct (cwnd_ sk <? ssthresh_ sk).
  { intros [= <- <-]. auto. }
  unfold BIC.CongestionAvoidance. rewrite En.
  destruct (GrowthFacts.BicUpdate_linear
              (BIC.set_ssthresh (ssthresh_ sk) (BIC.set_cwnd (cwnd_ sk) b))
              sk Hflag Hmss Hc Hmax Hmin Hw)
    as (b1 & -> & _ & Hf & _ & Hi & _).
  intros [= <- <-]. cbn. auto.
Qed.

Lemma BIC_CwndEvent_flag now b sk e :
  BIC.m_foundNewMax b = false ->
  BIC.m_foundNewMax (fst (BIC.CwndEvent now b (Some sk) e)) = false /\
  BIC.m_maxIncr (fst (BIC.CwndEvent now b (Some sk) e)) = BIC.m_maxIncr b.
Proof.
  intros Hflag. unfold BIC.CwndEvent.
  destruct e; rewrite ?ReductionFacts.BIC_GetSsThresh_eq; cbn;
    repeat break_if; cbn; auto.
Qed.

Lemma BIC_step_flag cbrt b sk call b' socket' :
  floor_ok (BIC.m_maxCwnd b) sk ->
  no_wrap (UseBIC b, Some sk) call = true ->
  BIC.m_foundNewMax b = false ->
  0 < BIC.m_maxIncr b < 2 ^ 31 ->
  step cbrt (UseBIC b, Some sk) call = Some (UseBIC b', socket') ->
  BIC.m_foundNewMax b' = false /\ BIC.m_maxIncr b' = BIC.m_maxIncr b.
Proof.
  intros (Hmss & Hcap & H2 & Hfl) Hnw Hflag Hmax.
  destruct call as [now n | n rtt | now e | st | now e rtt | n];
    unfold step.
  - cbn [no_wrap snd fst max_segments nonneg_increments] in Hnw.
    apply andb_true_iff in Hnw as [Hnw Hw].
    apply andb_true_iff in Hnw as [Hn Hinc].
    apply andb_true_iff in Hinc as [_ Hmin].
    apply Z.leb_le in Hn, Hmin. apply Z.ltb_lt in Hw.
    destruct (BIC.IncreaseWindow b (Some sk) n) as [[b1 so]|] eqn:E;
      [|discriminate].
    cbn. intros [= <- <-].
    apply (BIC_IncreaseWindow_flag b sk n b1 so); try assumption; try lia.
    assert (Z.max (BIC.m_maxIncr b) (BIC.m_minIncr b) * mss_bytes_ sk
            <= Z.max n (Z.max (BIC.m_maxIncr b) (BIC.m_minIncr b))
               * mss_bytes_ sk)
      by (apply Z.mul_le_mono_nonneg_r; lia).
    lia.
  - cbn. intros [= <- <-]. auto.
  - destruct (BIC_CwndEvent_flag now b sk e Hflag) as [Hf Hi].
    destruct (BIC.CwndEvent now b (Some sk) e) as [b1 so].
    cbn in *. intros [= <- <-]. auto.
  - unfold BIC.CongestionStateSet.
    destruct st; rewrite ?ReductionFacts.BIC_GetSsThresh_eq; cbn;
      intros [= <- <-]; auto.
  - unfold BIC.CongControl.
    destruct (BIC_CwndEvent_flag now b sk e Hflag) as [Hf Hi].
    destruct (BIC.CwndEvent now b (Some sk) e) as [b1 so].
    cbn [fst] in Hf, Hi.
    destruct (0 <? rtt); [|cbn; intros [= <- <-]; auto].
    destruct so as [sk1|]; cbn; intros [= <- <-]; auto.
  - rewrite ReductionFacts.BIC_GetSsThresh_eq. cbn.
    intros [= <- <-]. auto.
Qed.

Lemma BIC_run_flag cbrt calls : forall b sk,
  floor_ok (BIC.m_maxCwnd b) sk ->
  wrap_free cbrt (UseBIC b, Some sk) calls = true ->
  BIC.m_foundNewMax b = false ->
  0 < BIC.m_maxIncr b < 2 ^ 31 ->
  exists b' sk',
    run cbrt (UseBIC b, Some sk) calls = Some (UseBIC b', Some sk') /\
    BIC.m_foundNewMax b' = false.
Proof.
  induction calls as [|call calls IH]; intros b sk Hok Hwf Hflag Hmax.
  - exists b, sk. split; [reflexivity | exact Hflag].
  - cbn [wrap_free] in Hwf.
    apply andb_true_iff in Hwf as [Hnw Hwf].
    destruct (FloorFacts.BIC_step_floor cbrt b sk call Hok Hnw)
      as (b1 & sk1 & Hstep & Hk & _).
    destruct (BIC_step_flag cbrt b sk call b1 (Some sk1) Hok Hnw Hflag Hmax
                Hstep) as [Hf Hi].
    cbn [run]. rewrite Hstep in *.
    apply IH; try assumption.
    + exact (FloorFacts.kept_floor_ok _ _ _ _ Hok Hk).
    + rewrite Hi. exact Hmax.
Qed.

End FlagFacts.

(** X10. Under BIC, on an initialized connection whose object has the
    new-maximum flag unset and [0 < Smax < 2^31] (as after construction),
    every sequence of interface calls without wrap-around returns and
    leaves the flag unset: no call ever takes [m_lastMaxCwnd] as the target
    of [BicUpdate]. *)
Theorem bic_never_finds_new_maximum
        (cbrt : Double.double -> Double.double)
        (b : BIC.State) (sk : SocketState) (calls : list Call.t) :
  Engine.initialized (UseBIC b, Some sk) = true ->
  Engine.wrap_free cbrt (UseBIC b, Some sk) calls = true ->
  BIC.m_foundNewMax b = false ->
  0 < BIC.m_maxIncr b < 2 ^ 31 ->
  exists b' sk',
    Engine.run cbrt (UseBIC b, Some sk) calls
    = Some (UseBIC b', Some sk') /\
    BIC.m_foundNewMax b' = false.
Proof.
  intros Hinit Hwf Hflag Hmax.
  apply FloorFacts.initialized_floor_ok in Hinit as (sk0 & [= <-] & Hok).
  exact (FlagFacts.BIC_run_flag cbrt calls b sk Hok Hwf Hflag Hmax).
Qed.

Lemma bic_never_finds_new_maximum_witness :
  exists b' sk',
    Engine.run Sample.cbrt_stub
      (UseBIC (BIC.init 0), Some Sample.fresh_socket) Sample.calls
    = Some (UseBIC b', Some sk') /\
    BIC.m_foundNewMax b' = false.
Proof.
  apply (bic_never_finds_new_maximum Sample.cbrt_stub (BIC.init 0)
           Sample.fresh_socket Sample.calls).
  - reflexivity.
  - vm_compute. reflexivity.
  - reflexivity.
  - split; reflexivity.
Defined.

(** X11. Under CUBIC, one congestion-avoidance call of [IncreaseWindow]
    ([cwnd >= ssthresh], not in [Recovery], a nonzero MSS) for [n <> 0]
    acknowledged segments returns, adds nothing or one MSS to the window
    before the bound [m_maxCwnd] is applied, and gives the same object and
    socket as the call for a single segment: the count of acknowledged
    segments is not used. *)
Theorem cubic_congestion_avoidance_one_segment
        (c : Cubic.State) (sk : SocketState) (now n : Z) :
  tcp_state_ sk <> TCPState.Recovery ->
  ssthresh_ sk <= cwnd_ sk ->
  n <> 0 ->
  mss_bytes_ sk <> 0 ->
  exists c' w,
    Cubic.IncreaseWindow now c (Some sk) n
    = Some (c', Some (set_cwnd_ (Z.min w (Cubic.m_maxCwnd c)) sk)) /\
    (w = cwnd_ sk \/ w = add32 (cwnd_ sk) (mss_bytes_ sk)) /\
    Cubic.IncreaseWindow now c (Some sk) n
    = Cubic.IncreaseWindow now c (Some sk) 1.
Proof.
  intros Hst Hss Hn Hmss.
  unfold Cubic.IncreaseWindow.
  apply Z.eqb_neq in Hn. rewrite Hn. change (1 =? 0) with false.
  rewrite (AckFacts.not_Recovery _ Hst).
  cbn [Cubic.m_cwnd Cubic.m_ssthresh Cubic.set_cwnd Cubic.set_ssthresh].
  replace (cwnd_ sk <? ssthresh_ sk) with false
    by (symmetry; apply Z.ltb_ge; exact Hss).
  unfold Cubic.CongestionAvoidance. rewrite Hn. change (1 =? 0) with false.
  match goal with
  | |- context [Cubic.CubicUpdate ?t ?x (Some sk)] =>
      destruct (CubicFacts.CubicUpdate_returns t x sk Hmss) as [c1 Hc1];
      rewrite Hc1;
      apply CubicFacts.CubicUpdate_inv in Hc1 as [Hk Hc1]
  end.
  cbn in Hk, Hc1.
  exists (Cubic.set_cwnd (Z.min (Cubic.m_cwnd c1) (Cubic.m_maxCwnd c1))
            (Cubic.set_cwnd (Cubic.m_cwnd c1) c1)), (Cubic.m_cwnd c1).
  split; [cbn; rewrite Hk; reflexivity|]. split; [exact Hc1 | reflexivity].
Qed.

Lemma cubic_congestion_avoidance_one_segment_witness :
  exists c' w,
    Cubic.IncreaseWindow 9 (Cubic.init 0) (Some (Sample.socket 20)) 5
    = Some (c', Some (set_cwnd_ (Z.min w 65535) (Sample.socket 20))) /\
    (w = 29200 \/ w = add32 29200 1460) /\
    Cubic.IncreaseWindow 9 (Cubic.init 0) (Some (Sample.socket 20)) 5
    = Cubic.IncreaseWindow 9 (Cubic.init 0) (Some (Sample.socket 20)) 1.
Proof.
  apply (cubic_congestion_avoidance_one_segment (Cubic.init 0)
           (Sample.socket 20) 9 5).
  - discriminate.
  - cbn. lia.
  - discriminate.
  - discriminate.
Defined.


(** ** What no call changes *)

Module FrameFacts.
Import Engine.

Lemma same_parameters_refl s : same_parameters s s.
Proof. destruct s; cbn; repeat split. Qed.

Lemma same_parameters_trans s1 s2 s3 :
  same_parameters s1 s2 -> same_parameters s2 s3 -> same_parameters s1 s3.
Proof.
  destruct s1, s2, s3; cbn; try tauto; intuition congruence.
Qed.

Lemma update_rtt_phase rtt sk :
  mss_bytes_ (update_rtt rtt sk) = mss_bytes_ sk /\
  tcp_state_ (update_rtt rtt sk) = tcp_state_ sk /\
  congestion_event_ (update_rtt rtt sk) = congestion_event_ sk.
Proof. unfold update_rtt. cbn. break_if; cbn; auto. Qed.

Lemma BIC_grow_parameters b mss dist :
  same_parameters (UseBIC b) (UseBIC (BIC.grow b mss dist)).
Proof. unfold BIC.grow. repeat break_if; cbn; repeat split. Qed.

Lemma BIC_IncreaseWindow_frame now b socket n b' socket' :
  BIC.IncreaseWindow b socket n = Some (b', socket') ->
  same_parameters (UseBIC b) (UseBIC b') /\
  socket_kept (Call.IncreaseWindow now n) socket socket'.
Proof.
  unfold BIC.IncreaseWindow, socket_kept.
  destruct socket as [sk|]; [|intros [= <- <-]; cbn; auto 10].
  destruct (n =? 0); [intros [= <- <-]; cbn; auto 10|].
  destruct (TCPState.eqb _ _); [intros [= <- <-]; cbn; auto 10|].
  break_if; [intros [= <- <-]; cbn; auto 10|].
  unfold BIC.CongestionAvoidance, BIC.BicUpdate, div32.
  destruct (n =? 0); [intros [= <- <-]; cbn; auto 10|].
  destruct (mss_bytes_ sk =? 0); [discriminate|].
  match goal with
  | |- context [BIC.grow ?x ?m ?d] =>
      pose proof (BIC_grow_parameters x m d) as Hg
  end.
  intros [= <- <-]. cbn in *. tauto.
Qed.

Lemma BIC_CwndEvent_frame now b socket e :
  same_parameters (UseBIC b) (UseBIC (fst (BIC.CwndEvent now b socket e))) /\
  option_map mss_bytes_ (snd (BIC.CwndEvent now b socket e))
  = option_map mss_bytes_ socket.
Proof.
  unfold BIC.CwndEvent. destruct socket as [sk|]; [|cbn; auto 10].
  destruct e; rewrite ?ReductionFacts.BIC_GetSsThresh_eq; cbn;
    repeat break_if; cbn; auto 10.
Qed.

Lemma BIC_PktsAcked_frame b socket n rtt :
  same_parameters (UseBIC b) (UseBIC (fst (BIC.PktsAcked b socket n rtt))) /\
  socket_kept (Call.PktsAcked n rtt) socket
    (snd (BIC.PktsAcked b socket n rtt)).
Proof.
  unfold BIC.PktsAcked, socket_kept.
  destruct socket as [sk|]; [|cbn; auto 10].
  destruct (update_rtt_phase rtt sk) as (Hm & Hs & He).
  cbn -[update_rtt]. rewrite Hm, Hs, He. auto 10.
Qed.

Lemma BIC_step_frame cbrt b socket call w' :
  step cbrt (UseBIC b, socket) call = Some w' ->
  same_parameters (UseBIC b) (fst w') /\ socket_kept call socket (snd w').
Proof.
  destruct call as [now n | n rtt | now e | st | now e rtt | n];
    unfold step.
  - destruct (BIC.IncreaseWindow b socket n) as [[b1 so]|] eqn:E;
      [|discriminate].
    intros [= <-]. exact (BIC_IncreaseWindow_frame now _ _ _ _ _ E).
  - intros [= <-]. apply BIC_PktsAcked_frame.
  - intros [= <-]. unfold socket_kept.
    destruct (BIC_CwndEvent_frame now b socket e) as [Hp Hm].
    cbn. split; [exact Hp|]. split; [exact Hm | discriminate].
  - intros [= <-]. unfold BIC.CongestionStateSet, socket_kept.
    destruct socket as [sk|]; [|cbn; auto 10].
    destruct st; rewrite ?ReductionFacts.BIC_GetSsThresh_eq; cbn;
      (split; [auto 10 | split; [reflexivity | discriminate]]).
  - intros [= <-]. unfold BIC.CongControl, socket_kept.
    destruct socket as [sk|]; [|cbn; auto 10].
    destruct (BIC_CwndEvent_frame now b (Some sk) e) as [Hp Hm].
    destruct (BIC.CwndEvent now b (Some sk) e) as [b1 so].
    cbn [fst snd] in Hp, Hm.
    destruct (0 <? rtt).
    + destruct (BIC_PktsAcked_frame b1 so 1 rtt) as [Hp2 [Hm2 _]].
      cbn [from_BIC fst snd]. split.
      * exact (same_parameters_trans _ _ _ Hp Hp2).
      * split; [congruence | discriminate].
    + cbn. split; [exact Hp|]. split; [exact Hm | discriminate].
  - unfold socket_kept. destruct socket as [sk|].
    + rewrite ReductionFacts.BIC_GetSsThresh_eq. intros [= <-]. cbn. auto 10.
    + intros [= <-]. cbn. auto 10.
Qed.

Lemma Cubic_CalculateK_parameters cbrt c :
  same_parameters (UseCubic c) (UseCubic (Cubic.CalculateK cbrt c)).
Proof. rewrite <- LossFacts.CalculateK_frame. cbn. repeat split. Qed.

Lemma Cubic_tcp_friendly_parameters c sk t target :
  same_parameters (UseCubic c)
    (UseCubic (fst (Cubic.tcp_friendly c sk t target))).
Proof. unfold Cubic.tcp_friendly. repeat break_if; cbn; repeat split. Qed.

Lemma Cubic_CubicUpdate_parameters now c sk c' :
  Cubic.CubicUpdate now c (Some sk) = Some c' ->
  same_parameters (UseCubic c) (UseCubic c').
Proof.
  unfold Cubic.CubicUpdate.
  match goal with
  | |- context [Cubic.tcp_friendly ?x ?y ?z ?u] =>
      pose proof (Cubic_tcp_friendly_parameters x y z u) as Hp;
      destruct (Cubic.tcp_friendly x y z u) as [c1 target]
  end.
  cbn [fst] in Hp. unfold div32.
  repeat break_if; try discriminate; intros [= <-]; cbn in *; tauto.
Qed.

Lemma Cubic_IncreaseWindow_frame now c socket n c' socket' :
  Cubic.IncreaseWindow now c socket n = Some (c', socket') ->
  same_parameters (UseCubic c) (UseCubic c') /\
  socket_kept (Call.IncreaseWindow now n) socket socket'.
Proof.
  unfold Cubic.IncreaseWindow, socket_kept.
  destruct socket as [sk|]; [|intros [= <- <-]; cbn; auto 10].
  destruct (n =? 0) eqn:En; [intros [= <- <-]; cbn; auto 10|].
  destruct (TCPState.eqb _ _); [intros [= <- <-]; cbn; auto 10|].
  break_if.
  - unfold Cubic.SlowStart. rewrite En.
    repeat break_if; intros [= <- <-]; cbn; auto 10.
  - unfold Cubic.CongestionAvoidance. rewrite En.
    destruct (Cubic.CubicUpdate _ _ _) as [c1|] eqn:Eu; [|discriminate].
    apply Cubic_CubicUpdate_parameters in Eu.
    intros [= <- <-]. cbn in *. tauto.
Qed.

Lemma Cubic_PktsAcked_frame c socket n rtt :
  same_parameters (UseCubic c)
    (UseCubic (fst (Cubic.PktsAcked c socket n rtt))) /\
  socket_kept (Call.PktsAcked n rtt) socket
    (snd (Cubic.PktsAcked c socket n rtt)).
Proof.
  unfold Cubic.PktsAcked, socket_kept.
  destruct socket as [sk|]; [|cbn; auto 10].
  destruct (update_rtt_phase rtt sk) as (Hm & Hs & He).
  repeat break_if; cbn -[update_rtt]; rewrite Hm, Hs, He; auto 10.
Qed.

Lemma Cubic_CwndEvent_frame cbrt now c socket e :
  same_parameters (UseCubic c)
    (UseCubic (fst (Cubic.CwndEvent cbrt now c socket e))) /\
  option_map mss_bytes_ (snd (Cubic.CwndEvent cbrt now c socket e))
  = option_map mss_bytes_ socket.
Proof.
  unfold Cubic.CwndEvent. destruct socket as [sk|]; [|cbn; auto 10].
  destruct e; rewrite ?ReductionFacts.Cubic_GetSsThresh_eq; cbn;
    try rewrite <- LossFacts.CalculateK_frame; cbn; auto 10.
Qed.

Lemma Cubic_step_frame cbrt c socket call w' :
  step cbrt (UseCubic c, socket) call = Some w' ->
  same_parameters (UseCubic c) (fst w') /\ socket_kept call socket (snd w').
Proof.
  destruct call as [now n | n rtt | now e | st | now e rtt | n];
    unfold step.
  - destruct (Cubic.IncreaseWindow now c socket n) as [[c1 so]|] eqn:E;
      [|discriminate].
    intros [= <-]. exact (Cubic_IncreaseWindow_frame _ _ _ _ _ _ E).
  - intros [= <-]. apply Cubic_PktsAcked_frame.
  - intros [= <-]. unfold socket_kept.
    destruct (Cubic_CwndEvent_frame cbrt now c socket e) as [Hp Hm].
    cbn. split; [exact Hp|]. split; [exact Hm | discriminate].
  - intros [= <-]. unfold Cubic.CongestionStateSet, socket_kept.
    destruct socket as [sk|]; [|cbn; auto 10].
    destruct st; rewrite ?ReductionFacts.Cubic_GetSsThresh_eq; cbn;
      try rewrite <- LossFacts.CalculateK_frame; cbn;
      (split; [auto 10 | split; [reflexivity | discriminate]]).
  - intros [= <-]. unfold Cubic.CongControl, socket_kept.
    destruct socket as [sk|]; [|cbn; auto 10].
    destruct (Cubic_CwndEvent_frame cbrt now c (Some sk) e) as [Hp Hm].
    destruct (Cubic.CwndEvent cbrt now c (Some sk) e) as [c1 so].
    cbn [fst snd] in Hp, Hm.
    destruct (0 <? rtt).
    + destruct (Cubic_PktsAcked_frame c1 so 1 rtt) as [Hp2 [Hm2 _]].
      cbn [from_Cubic fst snd]. split.
      * exact (same_parameters_trans _ _ _ Hp Hp2).
      * split; [congruence | discriminate].
    + cbn. split; [exact Hp|]. split; [exact Hm | discriminate].
  - unfold socket_kept. destruct socket as [sk|].
    + rewrite ReductionFacts.Cubic_GetSsThresh_eq. intros [= <-]. cbn.
      rewrite <- LossFacts.CalculateK_frame. cbn. auto 10.
    + intros [= <-]. cbn. auto 10.
Qed.

Lemma step_frame cbrt w call w' :
  step cbrt w call = Some w' ->
  same_parameters (fst w) (fst w') /\ socket_kept call (snd w) (snd w').
Proof.
  destruct w as [[b|c] socket]; cbn [fst snd].
  - apply BIC_step_frame.
  - apply Cubic_step_frame.
Qed.

End FrameFacts.

(** X12. For BIC and for CUBIC and every sequence of interface calls that
    returns: the object is still of the same class and its parameters
    ([m_maxCwnd], [Smax], [Smin], the decrease factor and [m_lowWindow] for
    BIC; [m_maxCwnd], the decrease factor, [C], the fast-convergence,
    TCP-friendliness and hystart switches and the hystart delay threshold
    for CUBIC) are those of the start, and so is the MSS of the socket. *)
Theorem calls_keep_parameters
        (cbrt : Double.double -> Double.double) (calls : list Call.t) :
  forall w w' : World,
    Engine.run cbrt w calls = Some w' ->
    Engine.same_parameters (fst w) (fst w') /\
    option_map mss_bytes_ (snd w') = option_map mss_bytes_ (snd w).
Proof.
  induction calls as [|call calls IH]; intros w w'; cbn [Engine.run].
  - intros [= <-]. split; [apply FrameFacts.same_parameters_refl|reflexivity].
  - destruct (Engine.step cbrt w call) as [w1|] eqn:E; [|discriminate].
    intros Hrun. apply IH in Hrun as [Hp Hm].
    apply FrameFacts.step_frame in E as [Hp1 [Hm1 _]].
    split; [exact (FrameFacts.same_parameters_trans _ _ _ Hp1 Hp)|].
    congruence.
Qed.

Lemma calls_keep_parameters_witness :
  exists w',
    Engine.run Sample.cbrt_stub
      (UseCubic (Cubic.init 0), Some Sample.fresh_socket) Sample.calls
    = Some w' /\
    Engine.same_parameters (UseCubic (Cubic.init 0)) (fst w') /\
    option_map mss_bytes_ (snd w') = Some 1460.
Proof.
  destruct (Engine.run Sample.cbrt_stub
              (UseCubic (Cubic.init 0), Some Sample.fresh_socket)
              Sample.calls) as [w'|] eqn:E.
  - exists w'. split; [reflexivity|].
    exact (calls_keep_parameters Sample.cbrt_stub Sample.calls
             (UseCubic (Cubic.init 0), Some Sample.fresh_socket) w' E).
  - vm_compute in E. discriminate.
Defined.

(** X13. For BIC and for CUBIC, a sequence of [IncreaseWindow],
    [PktsAcked] and [GetSsThresh] calls that returns leaves the phase
    ([tcp_state_]) and the last event of the socket as they were: a
    connection put into [Recovery] or [Loss] stays there until
    [CongestionStateSet], [CwndEvent] or [CongControl] is called. *)
Theorem acknowledgments_keep_phase
        (cbrt : Double.double -> Double.double) (calls : list Call.t) :
  forall w w' : World,
    forallb Engine.keeps_phase calls = true ->
    Engine.run cbrt w calls = Some w' ->
    option_map tcp_state_ (snd w') = option_map tcp_state_ (snd w) /\
    option_map congestion_event_ (snd w')
    = option_map congestion_event_ (snd w).
Proof.
  induction calls as [|call calls IH]; intros w w' Hall;
    cbn [Engine.run forallb] in *.
  - intros [= <-]. split; reflexivity.
  - apply andb_true_iff in Hall as [Hcall Hall].
    destruct (Engine.step cbrt w call) as [w1|] eqn:E; [|discriminate].
    intros Hrun. apply (IH _ _ Hall) in Hrun as [Hs He].
    apply FrameFacts.step_frame in E as [_ [_ Hph]].
    destruct (Hph Hcall) as [Hs1 He1].
    split; congruence.
Qed.

Lemma acknowledgments_keep_phase_witness :
  exists w',
    Engine.run Sample.cbrt_stub
      (UseBIC (BIC.init 0),
       Some (set_tcp_state_ TCPState.Recovery (Sample.socket 20)))
      [Call.IncreaseWindow 1 1; Call.PktsAcked 1 100000;
       Call.IncreaseWindow 2 2; Call.GetSsThresh 0]
    = Some w' /\
    option_map tcp_state_ (snd w') = Some TCPState.Recovery /\
    option_map congestion_event_ (snd w')
    = Some CongestionEvent.OtherEvent.
Proof.
  destruct (Engine.run Sample.cbrt_stub
              (UseBIC (BIC.init 0),
               Some (set_tcp_state_ TCPState.Recovery (Sample.socket 20)))
              [Call.IncreaseWindow 1 1; Call.PktsAcked 1 100000;
               Call.IncreaseWindow 2 2; Call.GetSsThresh 0])
    as [w'|] eqn:E.
  - exists w'. split; [reflexivity|].
    exact (acknowledgments_keep_phase Sample.cbrt_stub
             [Call.IncreaseWindow 1 1; Call.PktsAcked 1 100000;
              Call.IncreaseWindow 2 2; Call.GetSsThresh 0]
             (UseBIC (BIC.init 0),
              Some (set_tcp_state_ TCPState.Recovery (Sample.socket 20)))
             w' eq_refl E).
  - vm_compute in E. discriminate.
Defined.


(** ** Null sockets, RTT samples and phase changes *)

Module SampleFacts.

Lemma wrap32_to_int32 z : wrap32 (to_int32 z) = wrap32 z.
Proof.
  unfold to_int32. pose proof (wrap32_range z) as Hr.
  destruct (wrap32 z <? 2 ^ 31).
  - apply wrap32_small. exact Hr.
  - unfold wrap32 at 1.
    replace (wrap32 z - modulus32) with (wrap32 z + (-1) * modulus32) by ring.
    rewrite Z.mod_add by (unfold modulus32; lia).
    apply wrap32_small. exact Hr.
Qed.

(** The RTT bookkeeping of [PktsAcked] without wrap-around. *)
Lemma update_rtt_exact rtt sk :
  0 <= rtt < modulus32 ->
  0 <= 3 * rtt_var_ sk < modulus32 ->
  let var' := if rtt_var_ sk =? 0 then rtt / 2
              else (3 * rtt_var_ sk + rtt) / 4 in
  rtt + 4 * var' < modulus32 ->
  rtt_us_ (update_rtt rtt sk) = rtt /\
  rtt_var_ (update_rtt rtt sk) = var' /\
  rto_us_ (update_rtt rtt sk) = rtt + 4 * var' /\
  0 <= var'.
Proof.
  intros Hr Hv var' Hrto.
  assert (Hm32 : modulus32 = 4294967296) by reflexivity.
  assert (Hvar : 0 <= var').
  { unfold var'. break_if; apply Z.div_pos; lia. }
  unfold update_rtt, var' in *.
  destruct (rtt_var_ sk =? 0) eqn:E.
  - cbn. rewrite E. cbn.
    rewrite (wrap32_small rtt) by lia.
    rewrite (wrap32_small (rtt / 2)) by lia.
    rewrite (mul32_small 4 (rtt / 2)) by lia.
    rewrite add32_small by lia.
    repeat split; assumption.
  - cbn. rewrite E. cbn.
    rewrite (wrap32_small rtt) by lia.
    rewrite (wrap32_small (3 * rtt_var_ sk)) by lia.
    rewrite Z.mod_small by (change (2 ^ 64) with 18446744073709551616; lia).
    rewrite (wrap32_small ((3 * rtt_var_ sk + rtt) / 4)) by lia.
    rewrite (mul32_small 4 _) by lia.
    rewrite add32_small by lia.
    repeat split; assumption.
Qed.

End SampleFacts.

(** X14. For BIC and for CUBIC, every sequence of interface calls made
    with a null socket returns and changes nothing of the object. *)
Theorem null_socket_is_ignored
        (cbrt : Double.double -> Double.double)
        (s : Strategy) (calls : list Call.t) :
  Engine.run cbrt (s, None) calls = Some (s, None).
Proof.
  induction calls as [|call calls IH]; [reflexivity|].
  cbn [Engine.run].
  replace (Engine.step cbrt (s, None) call) with (Some (s, @None SocketState))
    by (destruct s, call; reflexivity).
  exact IH.
Qed.

(** X15. For BIC and for CUBIC, [PktsAcked] with an RTT sample that fits
    32 bits (and no wrap-around in [3 * rtt_var_] and in the timeout) stores
    the sample as [rtt_us_], sets [rtt_var_] to half the sample when it was
    zero and to [(3 * rtt_var_ + rtt) / 4] otherwise, sets
    [rto_us_ = rtt + 4 * rtt_var_] with the new value, and leaves the
    window alone.  The new [rtt_var_] lies between the old one and the
    sample: the estimate follows the samples themselves. *)
Theorem rtt_sample_updates_estimates
        (cbrt : Double.double -> Double.double)
        (s : Strategy) (sk : SocketState) (n rtt : Z) :
  0 <= rtt < modulus32 ->
  0 <= 3 * rtt_var_ sk < modulus32 ->
  let var' := if rtt_var_ sk =? 0 then rtt / 2
              else (3 * rtt_var_ sk + rtt) / 4 in
  rtt + 4 * var' < modulus32 ->
  exists s' sk',
    Engine.step cbrt (s, Some sk) (Call.PktsAcked n rtt)
    = Some (s', Some sk') /\
    rtt_us_ sk' = rtt /\
    rtt_var_ sk' = var' /\
    rto_us_ sk' = rtt + 4 * var' /\
    cwnd_ sk' = cwnd_ sk /\
    (rtt_var_ sk <> 0 ->
     Z.min (rtt_var_ sk) rtt <= var' <= Z.max (rtt_var_ sk) rtt).
Proof.
  intros Hr Hv var' Hrto.
  destruct (SampleFacts.update_rtt_exact rtt sk Hr Hv Hrto)
    as (H1 & H2 & H3 & _).
  destruct (FloorFacts.update_rtt_frame rtt sk) as (Hc & _ & _).
  assert (Hb : rtt_var_ sk <> 0 ->
               Z.min (rtt_var_ sk) rtt <= var' <= Z.max (rtt_var_ sk) rtt).
  { intros Hnz. unfold var'. apply Z.eqb_neq in Hnz. rewrite Hnz.
    split.
    - apply Z.div_le_lower_bound; lia.
    - apply Z.div_le_upper_bound; lia. }
  destruct s as [b|c]; unfold Engine.step.
  - unfold BIC.PktsAcked. cbn [Engine.from_BIC fst snd].
    do 2 eexists. split; [reflexivity|]. auto 10.
  - unfold Cubic.PktsAcked.
    repeat break_if; cbn [Engine.from_Cubic fst snd];
      do 2 eexists; (split; [reflexivity|]);
      cbn [rtt_us_ rtt_var_ rto_us_ cwnd_ set_ssthresh_]; auto 10.
Qed.

Lemma rtt_sample_updates_estimates_witness :
  exists s' sk',
    Engine.step Sample.cbrt_stub
      (UseBIC (BIC.init 0),
       Some (set_rtt_var_ 50000 (Sample.socket 20)))
      (Call.PktsAcked 1 120000)
    = Some (s', Some sk') /\
    rtt_us_ sk' = 120000 /\
    rtt_var_ sk' = 67500 /\
    rto_us_ sk' = 120000 + 4 * 67500 /\
    cwnd_ sk' = cwnd_ (set_rtt_var_ 50000 (Sample.socket 20)) /\
    (50000 <> 0 -> Z.min 50000 120000 <= 67500 <= Z.max 50000 120000).
Proof.
  apply (rtt_sample_updates_estimates Sample.cbrt_stub (UseBIC (BIC.init 0))
           (set_rtt_var_ 50000 (Sample.socket 20)) 1 120000).
  - unfold modulus32. lia.
  - unfold modulus32. cbn. lia.
  - reflexivity.
Defined.

(** X16. [Cubic::PktsAcked] with a sample and hystart bounds that fit 32
    bits never changes the window.  When hystart is enabled and the
    object's [m_cwnd] is below its [m_ssthresh], the tracked minimum and
    maximum become [min (rtt, old minimum)] and [max (rtt, old maximum)],
    and the threshold of the object and of the socket is set to [m_cwnd]
    exactly when their difference exceeds [m_hystartAckDelta]; otherwise the
    tracked delays and both thresholds are unchanged. *)
Theorem hystart_exit_rule (c : Cubic.State) (sk : SocketState) (n rtt : Z) :
  0 <= rtt < modulus32 ->
  0 <= Cubic.m_hystartDelayMin c < modulus32 ->
  0 <= Cubic.m_hystartDelayMax c < modulus32 ->
  exists c' sk',
    Cubic.PktsAcked c (Some sk) n rtt = (c', Some sk') /\
    cwnd_ sk' = cwnd_ sk /\
    if Cubic.m_hystartEnabled c && (Cubic.m_cwnd c <? Cubic.m_ssthresh c)
    then
      let lo := Z.min rtt (Cubic.m_hystartDelayMin c) in
      let hi := Z.max rtt (Cubic.m_hystartDelayMax c) in
      Cubic.m_hystartDelayMin c' = lo /\
      Cubic.m_hystartDelayMax c' = hi /\
      if Cubic.m_hystartAckDelta c <? hi - lo
      then ssthresh_ sk' = Cubic.m_cwnd c /\
           Cubic.m_ssthresh c' = Cubic.m_cwnd c
      else ssthresh_ sk' = ssthresh_ sk /\
           Cubic.m_ssthresh c' = Cubic.m_ssthresh c
    else
      Cubic.m_hystartDelayMin c' = Cubic.m_hystartDelayMin c /\
      Cubic.m_hystartDelayMax c' = Cubic.m_hystartDelayMax c /\
      ssthresh_ sk' = ssthresh_ sk /\
      Cubic.m_ssthresh c' = Cubic.m_ssthresh c.
Proof.
  intros Hr Hlo Hhi.
  assert (Hm32 : modulus32 = 4294967296) by reflexivity.
  destruct (FloorFacts.update_rtt_frame rtt sk) as (Hc & _ & Hs).
  unfold Cubic.PktsAcked.
  rewrite (wrap32_small rtt) by exact Hr.
  set (c0 := if (0 <? rtt) && (rtt <? Cubic.m_delayMin c)
             then Cubic.set_delayMin rtt c else c).
  assert (Hc0 : Cubic.m_hystartEnabled c0 = Cubic.m_hystartEnabled c /\
                Cubic.m_cwnd c0 = Cubic.m_cwnd c /\
                Cubic.m_ssthresh c0 = Cubic.m_ssthresh c /\
                Cubic.m_hystartDelayMin c0 = Cubic.m_hystartDelayMin c /\
                Cubic.m_hystartDelayMax c0 = Cubic.m_hystartDelayMax c /\
                Cubic.m_hystartAckDelta c0 = Cubic.m_hystartAckDelta c).
  { unfold c0. break_if; cbn; auto 10. }
  destruct Hc0 as (He & Hcw & Hss & Hmin & Hmax & Hd).
  rewrite He, Hcw, Hss.
  destruct (Cubic.m_hystartEnabled c && (Cubic.m_cwnd c <? Cubic.m_ssthresh c)).
  - set (c1 := if rtt <? Cubic.m_hystartDelayMin c0
               then Cubic.set_hystartDelayMin rtt c0 else c0).
    assert (Hc1 : Cubic.m_hystartDelayMin c1
                  = Z.min rtt (Cubic.m_hystartDelayMin c) /\
                  Cubic.m_hystartDelayMax c1 = Cubic.m_hystartDelayMax c /\
                  Cubic.m_hystartAckDelta c1 = Cubic.m_hystartAckDelta c /\
                  Cubic.m_cwnd c1 = Cubic.m_cwnd c /\
                  Cubic.m_ssthresh c1 = Cubic.m_ssthresh c).
    { unfold c1. rewrite Hmin.
      destruct (rtt <? Cubic.m_hystartDelayMin c) eqn:E;
        [apply Z.ltb_lt in E | apply Z.ltb_ge in E]; cbn;
        rewrite ?Hmin, ?Hmax, ?Hd, ?Hcw, ?Hss; repeat split; lia. }
    destruct Hc1 as (Hmin1 & Hmax1 & Hd1 & Hcw1 & Hss1).
    set (c2 := if Cubic.m_hystartDelayMax c1 <? rtt
               then Cubic.set_hystartDelayMax rtt c1 else c1).
    assert (Hc2 : Cubic.m_hystartDelayMin c2
                  = Z.min rtt (Cubic.m_hystartDelayMin c) /\
                  Cubic.m_hystartDelayMax c2
                  = Z.max rtt (Cubic.m_hystartDelayMax c) /\
                  Cubic.m_hystartAckDelta c2 = Cubic.m_hystartAckDelta c /\
                  Cubic.m_cwnd c2 = Cubic.m_cwnd c /\
                  Cubic.m_ssthresh c2 = Cubic.m_ssthresh c).
    { unfold c2. rewrite Hmax1.
      destruct (Cubic.m_hystartDelayMax c <? rtt) eqn:E;
        [apply Z.ltb_lt in E | apply Z.ltb_ge in E]; cbn;
        rewrite ?Hmin1, ?Hmax1, ?Hd1, ?Hcw1, ?Hss1; repeat split; lia. }
    destruct Hc2 as (Hmin2 & Hmax2 & Hd2 & Hcw2 & Hss2).
    rewrite Hd2, Hmin2, Hmax2.
    rewrite sub32_small by lia.
    cbv zeta.
    destruct (Cubic.m_hystartAckDelta c
              <? Z.max rtt (Cubic.m_hystartDelayMax c)
                 - Z.min rtt (Cubic.m_hystartDelayMin c));
      do 2 eexists; (split; [reflexivity|]);
      cbn -[update_rtt];
      rewrite ?Hc, ?Hs, ?Hmin2, ?Hmax2, ?Hcw2, ?Hss2; auto 10.
  - do 2 eexists. split; [reflexivity|].
    cbn -[update_rtt]. rewrite Hc, Hs, Hmin, Hmax, Hss. auto 10.
Qed.

Lemma hystart_exit_rule_witness :
  exists c' sk',
    Cubic.PktsAcked
      (Cubic.set_hystartDelayMax 100000
         (Cubic.set_hystartDelayMin 100000 (Cubic.init 0)))
      (Some Sample.fresh_socket) 1 100003
    = (c', Some sk') /\
    ssthresh_ sk' = 0 /\ Cubic.m_hystartDelayMax c' = 100003.
Proof.
  destruct (hystart_exit_rule
              (Cubic.set_hystartDelayMax 100000
                 (Cubic.set_hystartDelayMin 100000 (Cubic.init 0)))
              Sample.fresh_socket 1 100003)
    as (c' & sk' & Hrun & _ & Hrule).
  - unfold modulus32. lia.
  - unfold modulus32. cbn. lia.
  - unfold modulus32. cbn. lia.
  - exists c', sk'. split; [exact Hrun|].
    cbn in Hrule. destruct Hrule as (_ & Hmax & Hs & _).
    split; [exact Hs | exact Hmax].
Defined.

(** X17. [Vegas::CalculateDiff] for [0 < baseRTT <= currentRTT < 2^32],
    when the product and the quotient fit their types: the result is
    [(cwnd / 1460) * (currentRTT - baseRTT) / baseRTT] with integer
    divisions, and it is not negative. *)
Theorem vegas_diff_formula (v : Vegas.State) :
  0 < Vegas.m_baseRTT v <= Vegas.m_currentRTT v ->
  Vegas.m_currentRTT v < modulus32 ->
  0 <= Vegas.m_cwnd v ->
  let backlog := Vegas.m_cwnd v / 1460
                 * (Vegas.m_currentRTT v - Vegas.m_baseRTT v) in
  backlog < modulus32 ->
  backlog / Vegas.m_baseRTT v < 2 ^ 31 ->
  Vegas.CalculateDiff v = Some (backlog / Vegas.m_baseRTT v) /\
  0 <= backlog / Vegas.m_baseRTT v.
Proof.
  intros Hb Hcur Hc backlog Hfit Hq.
  assert (Hm32 : modulus32 = 4294967296) by reflexivity.
  assert (Hseg : 0 <= Vegas.m_cwnd v / 1460) by (apply Z.div_pos; lia).
  assert (Hback : 0 <= backlog) by (unfold backlog; nia).
  assert (Hres : 0 <= backlog / Vegas.m_baseRTT v)
    by (apply Z.div_pos; lia).
  unfold Vegas.CalculateDiff, div32.
  replace (Vegas.m_baseRTT v =? 0) with false
    by (symmetry; apply Z.eqb_neq; lia).
  rewrite SampleFacts.wrap32_to_int32.
  unfold sub32. rewrite (wrap32_small (wrap32 _)) by apply wrap32_range.
  rewrite (wrap32_small (Vegas.m_currentRTT v - Vegas.m_baseRTT v)) by lia.
  rewrite mul32_small by (fold backlog; lia).
  fold backlog. rewrite to_int32_small by lia.
  split; [reflexivity | exact Hres].
Qed.

Lemma vegas_diff_formula_witness :
  Vegas.CalculateDiff (Sample.vegas 10 100000 130000) = Some 3 /\ 0 <= 3.
Proof.
  apply (vegas_diff_formula (Sample.vegas 10 100000 130000)).
  - cbn. lia.
  - unfold modulus32. cbn. lia.
  - cbn. lia.
  - reflexivity.
  - reflexivity.
Defined.

(** X18. For BIC and for CUBIC, [CongestionStateSet] on a live socket
    stores the phase and never changes the window.  For a phase other than
    [Recovery] and [Loss] nothing else changes, in the socket or in the
    object; for [Recovery] and [Loss] the threshold is recomputed and is at
    least [2 * MSS] (as [uint32_t]). *)
Theorem state_set_keeps_window
        (cbrt : Double.double -> Double.double)
        (s : Strategy) (sk : SocketState) (st : TCPState.t) :
  exists s' sk',
    Engine.step cbrt (s, Some sk) (Call.CongestionStateSet st)
    = Some (s', Some sk') /\
    cwnd_ sk' = cwnd_ sk /\
    tcp_state_ sk' = st /\
    (st <> TCPState.Recovery -> st <> TCPState.Loss ->
     s' = s /\ sk' = set_tcp_state_ st sk) /\
    (st = TCPState.Recovery \/ st = TCPState.Loss ->
     mul32 2 (mss_bytes_ sk) <= ssthresh_ sk').
Proof.
  destruct s as [b|c]; unfold Engine.step.
  - unfold BIC.CongestionStateSet.
    destruct st; rewrite ?ReductionFacts.BIC_GetSsThresh_eq; cbn;
      do 2 eexists; (split; [reflexivity|]); cbn;
      (split; [reflexivity|]); (split; [reflexivity|]);
      (split;
       [intros H1 H2; first [congruence | split; reflexivity]
       |intros [H|H]; first [discriminate | apply Z.le_max_r]]).
  - unfold Cubic.CongestionStateSet.
    destruct st; rewrite ?ReductionFacts.Cubic_GetSsThresh_eq; cbn;
      do 2 eexists; (split; [reflexivity|]); cbn;
      (split; [reflexivity|]); (split; [reflexivity|]);
      (split;
       [intros H1 H2; first [congruence | split; reflexivity]
       |intros [H|H]; first [discriminate | apply Z.le_max_r]]).
Qed.

(** X19. Under BIC with the decrease factor 0.8, [CwndEvent] with
    [PacketLoss] followed by [CongestionStateSet] with [Recovery] applies
    the decrease twice: with [v = max (4 * cwnd / 5, 2 * MSS)], the window
    is [v], the threshold is [max (4 * v / 5, 2 * MSS)], and the remembered
    maximum is [v], the window after the loss. *)
Theorem bic_loss_then_recovery_reduces_twice
        (cbrt : Double.double -> Double.double)
        (b : BIC.State) (sk : SocketState) (now : Z) :
  BIC.m_beta b = Double.d0_8 ->
  0 <= cwnd_ sk < modulus32 ->
  0 <= 2 * mss_bytes_ sk < modulus32 ->
  let v := Z.max (4 * cwnd_ sk / 5) (2 * mss_bytes_ sk) in
  exists b' sk',
    Engine.run cbrt (UseBIC b, Some sk)
      [Call.CwndEvent now CongestionEvent.PacketLoss;
       Call.CongestionStateSet TCPState.Recovery]
    = Some (UseBIC b', Some sk') /\
    cwnd_ sk' = v /\
    ssthresh_ sk' = Z.max (4 * v / 5) (2 * mss_bytes_ sk) /\
    BIC.m_lastMaxCwnd b' = v.
Proof.
  intros Hbeta Hc Hm v.
  assert (Hm2 : mul32 2 (mss_bytes_ sk) = 2 * mss_bytes_ sk)
    by (apply mul32_small; lia).
  assert (Hv : 0 <= v < modulus32).
  { assert (0 <= 4 * cwnd_ sk / 5 <= cwnd_ sk).
    { split; [apply Z.div_pos; lia|].
      apply Z.div_le_upper_bound; lia. }
    unfold v. lia. }
  assert (H1 : exists b1,
             Engine.step cbrt (UseBIC b, Some sk)
               (Call.CwndEvent now CongestionEvent.PacketLoss)
             = Some (UseBIC b1,
                     Some (set_tcp_state_ TCPState.Recovery
                             (set_cwnd_ v
                                (set_ssthresh_ v
                                   (set_congestion_event_
                                      CongestionEvent.PacketLoss sk))))) /\
             BIC.m_beta b1 = Double.d0_8).
  { unfold Engine.step, BIC.CwndEvent.
    rewrite ReductionFacts.BIC_GetSsThresh_eq. cbn. rewrite Hm2.
    assert (Hbeta' : BIC.m_beta
                       (if BIC.m_lastMaxCwnd b <? cwnd_ sk
                        then BIC.set_lastMaxCwnd (cwnd_ sk) b else b)
                     = Double.d0_8)
      by (break_if; exact Hbeta).
    rewrite Hbeta', DecreaseFacts.to_uint32_mul_0_8_floor by exact Hc.
    fold v. eexists. split; [reflexivity | exact Hbeta']. }
  destruct H1 as (b1 & Hstep & Hbeta1).
  cbn [Engine.run]. rewrite Hstep.
  unfold Engine.step, BIC.CongestionStateSet. cbn [TCPState.eqb orb].
  rewrite ReductionFacts.BIC_GetSsThresh_eq.
  cbn. rewrite Hm2, Hbeta1.
  rewrite DecreaseFacts.to_uint32_mul_0_8_floor by exact Hv.
  do 2 eexists. split; [reflexivity|]. cbn. auto.
Qed.

Lemma bic_loss_then_recovery_reduces_twice_witness :
  exists b' sk',
    Engine.run Sample.cbrt_stub (UseBIC (BIC.init 0), Some (Sample.socket 20))
      [Call.CwndEvent 5 CongestionEvent.PacketLoss;
       Call.CongestionStateSet TCPState.Recovery]
    = Some (UseBIC b', Some sk') /\
    cwnd_ sk' = 23360 /\
    ssthresh_ sk' = 18688 /\
    BIC.m_lastMaxCwnd b' = 23360.
Proof.
  apply (bic_loss_then_recovery_reduces_twice Sample.cbrt_stub (BIC.init 0)
           (Sample.socket 20) 5).
  - reflexivity.
  - unfold modulus32. cbn. lia.
  - unfold modulus32. cbn. lia.
Defined.


(** ** The streaming upload client *)

Module StreamFacts.
Import MinioStream.

Lemma size_app a b : size (a ++ b) = size a + size b.
Proof. unfold size. rewrite length_app. lia. Qed.

Lemma size_nonneg a : 0 <= size a.
Proof. unfold size. lia. Qed.

Lemma size_nil_iff a : size a = 0 <-> a = [].
Proof.
  unfold size. destruct a; cbn [length]; split; try reflexivity;
    try discriminate; lia.
Qed.

(** One [read] of [n > 0] bytes: the bytes delivered are the first of the
    remaining ones; none are delivered only at the end of the file; a
    failed read leaves nothing to deliver. *)
Lemma read_spec n file got ok file' :
  0 < n ->
  read n file = (got, ok, file') ->
  got ++ remaining file' = remaining file /\
  size got <= n /\
  ok = (size got =? n) /\
  good file' = ok /\
  (ok = false -> remaining file' = []) /\
  (ok || (0 <? size got) = false -> got = [] /\ remaining file = []) /\
  (ok || (0 <? size got) = true ->
   (length (remaining file') < length (remaining file))%nat).
Proof.
  intros Hn. unfold read, remaining.
  destruct file as [u g]. cbn [good unread].
  destruct g.
  - intros [= <- <- <-]. cbn [good unread].
    set (k := Z.to_nat n).
    assert (Hk : (0 < k)%nat) by (unfold k; lia).
    pose proof (firstn_skipn k u) as Hsplit.
    pose proof (length_firstn k u) as Hlen.
    assert (Hsz : size (firstn k u) = Z.of_nat (Nat.min k (length u)))
      by (unfold size; rewrite Hlen; reflexivity).
    destruct (size (firstn k u) =? n) eqn:E.
    + apply Z.eqb_eq in E.
      repeat split; try assumption; try lia; try discriminate.
      intros _. rewrite length_skipn.
      assert (length u <> 0)%nat by (unfold k in *; lia). lia.
    + apply Z.eqb_neq in E.
      assert (Hshort : (length u < k)%nat) by (unfold k in *; lia).
      assert (Hsk : skipn k u = []) by (apply skipn_all2; lia).
      assert (Hfi : firstn k u = u) by (apply firstn_all2; lia).
      rewrite Hfi in *.
      repeat split; try reflexivity; try (unfold k in *; lia).
      * apply app_nil_r.
      * cbn [orb] in H. apply Z.ltb_ge in H.
        apply size_nil_iff. pose proof (size_nonneg u). lia.
      * cbn [orb] in H. apply Z.ltb_ge in H.
        apply size_nil_iff. pose proof (size_nonneg u). lia.
      * intros H. cbn [orb] in H. apply Z.ltb_lt in H.
        cbn [length]. unfold size in H. lia.
  - intros [= <- <- <-]. cbn [good unread].
    change (size []) with 0.
    replace (0 =? n) with false by (symmetry; apply Z.eqb_neq; lia).
    repeat split; try reflexivity; try lia; discriminate.
Qed.

Section Loops.

Variable server : Server.
Variables chunk min_part : Z.
Hypothesis chunk_pos : 0 < chunk.

(** The read loop delivers the whole file. *)
Lemma read_all_spec fuel : forall file allData,
  (length (remaining file) < fuel)%nat ->
  read_all chunk fuel file allData = Some (allData ++ remaining file).
Proof.
  induction fuel as [|fuel IH]; intros file allData Hfuel; [lia|].
  cbn [read_all].
  destruct (read chunk file) as [[got ok] file'] eqn:Er.
  destruct (read_spec chunk file got ok file' chunk_pos Er)
    as (Hsplit & _ & _ & _ & _ & Hend & Hless).
  destruct (ok || (0 <? size got)) eqn:Ec.
  - rewrite IH by (specialize (Hless eq_refl); lia).
    rewrite <- app_assoc, Hsplit. reflexivity.
  - destruct (Hend eq_refl) as [_ Hnil]. rewrite Hnil, app_nil_r.
    reflexivity.
Qed.

End Loops.

End StreamFacts.

(** X20. [main] on a file that can be opened and whose announced size is
    below [MIN_PART_SIZE] (5 MiB) terminates, reads the file in chunks of
    32 KiB and sends exactly one request, a [PutObject] with all the bytes
    of the file in order, whatever the length of the file; the exit code
    is 0 when the server accepts the request and 1 when it answers with an
    error. *)
Theorem small_file_single_put
        (server : MinioStream.Server) (content : MinioStream.bytes)
        (totalSize : Z) :
  totalSize < MinioStream.MIN_PART_SIZE ->
  MinioStream.main server (Some content) totalSize
  = Some (match server [MinioStream.PutObject content] with
          | None => 1
          | Some _ => 0
          end,
          [MinioStream.PutObject content]).
Proof.
  intros Hsmall. unfold MinioStream.main.
  replace (totalSize <? MinioStream.MIN_PART_SIZE) with true
    by (symmetry; apply Z.ltb_lt; exact Hsmall).
  unfold MinioStream.put_object.
  rewrite StreamFacts.read_all_spec.
  - cbn [app MinioStream.remaining MinioStream.open MinioStream.good
         MinioStream.unread].
    destruct (server [MinioStream.PutObject content]); reflexivity.
  - reflexivity.
  - cbn. lia.
Qed.

Lemma small_file_single_put_witness :
  MinioStream.main (fun _ => Some String.EmptyString)
    (Some [Byte.x01; Byte.x02; Byte.x03]) 3
  = Some (0, [MinioStream.PutObject [Byte.x01; Byte.x02; Byte.x03]]).
Proof.
  apply (small_file_single_put (fun _ => Some String.EmptyString)
           [Byte.x01; Byte.x02; Byte.x03] 3).
  reflexivity.
Defined.

Module UploadFacts.
Import MinioStream StreamFacts.

Section Loop.

Variable server : Server.
Variables chunk min_part totalSize : Z.
Variable uploadId : String.string.
Hypothesis chunk_pos : 0 < chunk.
Hypothesis min_part_pos : 0 < min_part.
Hypothesis server_ok : forall h, server h <> None.

(** The read-and-upload loop against a server that accepts every
    request. *)
Lemma upload_parts_spec fuel : forall file parts partBuffer base pn h,
  (length (remaining file) < fuel)%nat ->
  size partBuffer < min_part ->
  (partBuffer = [] \/ base + size partBuffer < totalSize) ->
  (good file = true -> size partBuffer mod chunk = 0) ->
  exists datas leftover parts',
    upload_parts server chunk min_part totalSize uploadId fuel file parts
      partBuffer (base + size partBuffer) pn h
    = Some (Some (parts ++ parts'), h ++ uploads uploadId pn datas) /\
    map number parts' = numbers pn (length datas) /\
    concat datas ++ leftover = partBuffer ++ remaining file /\
    parts_ok chunk min_part totalSize base datas /\
    size leftover < min_part /\
    (totalSize <= base + size partBuffer + size (remaining file) ->
     leftover = []).
Proof.
  induction fuel as [|fuel IH];
    intros file parts buf base pn h Hfuel Hbuf Hlast Hmod; [lia|].
  cbn [upload_parts].
  destruct (read chunk file) as [[got ok] file'] eqn:Er.
  destruct (read_spec chunk file got ok file' chunk_pos Er)
    as (Hsplit & Hle & Hok & Hgood & Hfail & Hend & Hless).
  destruct (ok || (0 <? size got)) eqn:Ec.
  - specialize (Hless eq_refl).
    assert (Hgot : 0 < size got).
    { destruct ok; [|cbn [orb] in Ec; apply Z.ltb_lt in Ec; exact Ec].
      symmetry in Hok. apply Z.eqb_eq in Hok. lia. }
    assert (Hrem : size (remaining file) = size got + size (remaining file'))
      by (rewrite <- Hsplit, size_app; reflexivity).
    destruct ((min_part <=? size (buf ++ got))
              || (totalSize <=? base + size buf + size got)) eqn:Eup.
    + (* the buffer is uploaded *)
      destruct (server (h ++ [UploadPart uploadId pn (buf ++ got)]))
        as [tag|] eqn:Es; [|now apply server_ok in Es].
      destruct (IH file' (parts ++ [mkPart pn tag]) [] (base + size (buf ++ got))
                  (pn + 1) (h ++ [UploadPart uploadId pn (buf ++ got)]))
        as (datas & leftover & parts' & Hrun & Hnum & Hcat & Hparts & Hleft
            & Hnone).
      * lia.
      * change (size []) with 0. lia.
      * left. reflexivity.
      * intros _. reflexivity.
      * change (size []) with 0 in Hrun, Hnone.
        rewrite Z.add_0_r in Hrun, Hnone.
        exists ((buf ++ got) :: datas), leftover,
               (mkPart pn tag :: parts').
        rewrite size_app in *.
        replace (base + size buf + size got)
          with (base + (size buf + size got)) by ring.
        rewrite Hrun.
        split; [repeat rewrite <- app_assoc; reflexivity|].
        split; [cbn [map number length numbers]; rewrite Hnum; reflexivity|].
        split.
        { cbn [app] in Hcat. cbn [concat].
          rewrite <- (app_assoc (buf ++ got)), Hcat, <- Hsplit.
          rewrite <- app_assoc. reflexivity. }
        split.
        { cbn [parts_ok]. rewrite !size_app.
          pose proof (size_nonneg buf).
          split; [lia|].
          split.
          { apply orb_true_iff in Eup as [E|E];
              [apply Z.leb_le in E; left; exact E
              |apply Z.leb_le in E; right; lia]. }
          split; [|exact Hparts].
          intros Hmore.
          assert (Hokt : ok = true).
          { destruct ok; [reflexivity|].
            specialize (Hfail eq_refl). rewrite Hfail in *.
            destruct datas as [|d datas]; [now elim Hmore|].
            cbn [parts_ok] in Hparts. destruct Hparts as (Hd & _).
            cbn [concat app] in Hcat.
            apply (f_equal size) in Hcat.
            rewrite !size_app in Hcat. change (size []) with 0 in Hcat.
            pose proof (size_nonneg (concat datas)).
            pose proof (size_nonneg leftover). lia. }
          rewrite Hokt in Hok. symmetry in Hok. apply Z.eqb_eq in Hok.
          assert (Hg : good file = true).
          { unfold read in Er. destruct (good file); [reflexivity|].
            injection Er as <- _ _. discriminate. }
          specialize (Hmod Hg). rewrite Hok.
          rewrite Z.add_mod, Hmod, Z.mod_same by lia. reflexivity. }
        split; [exact Hleft|].
        intros Hall. apply Hnone. lia.
    + (* the buffer is kept *)
      apply orb_false_iff in Eup as [E1 E2].
      apply Z.leb_gt in E1, E2. rewrite size_app in E1.
      replace (base + size buf + size got)
        with (base + size (buf ++ got)) by (rewrite size_app; ring).
      destruct (IH file' parts (buf ++ got) base pn h)
        as (datas & leftover & parts' & Hrun & Hnum & Hcat & Hparts & Hleft
            & Hnone).
      * lia.
      * rewrite size_app. exact E1.
      * right. rewrite size_app. lia.
      * intros Hg. rewrite Hgood in Hg. rewrite Hg in Hok.
        symmetry in Hok. apply Z.eqb_eq in Hok.
        assert (Hg0 : good file = true).
        { unfold read in Er. destruct (good file); [reflexivity|].
          injection Er as <- _ _. discriminate. }
        rewrite size_app, Hok, Z.add_mod, (Hmod Hg0), Z.mod_same by lia.
        reflexivity.
      * exists datas, leftover, parts'.
        split; [exact Hrun|]. split; [exact Hnum|].
        split; [rewrite Hcat, <- Hsplit, <- app_assoc; reflexivity|].
        split; [exact Hparts|]. split; [exact Hleft|].
        intros Hall. apply Hnone. rewrite size_app. lia.
  - (* the end of the file *)
    destruct (Hend eq_refl) as [_ Hnil]. rewrite Hnil in *.
    exists [], buf, [].
    cbn [uploads concat app map length numbers parts_ok].
    rewrite !app_nil_r. repeat split; try assumption.
    change (size []) with 0. intros Hall.
    destruct Hlast as [-> | Hlt]; [reflexivity | lia].
Qed.

(** The parts that precede another reach [min_part] in whole chunks once
    the announced size covers them all. *)
Lemma parts_ok_full datas : forall base,
  parts_ok chunk min_part totalSize base datas ->
  base + size (concat datas) <= totalSize ->
  forall i data,
    nth_error datas i = Some data ->
    (S i < length datas)%nat ->
    min_part <= size data < min_part + chunk /\ size data mod chunk = 0.
Proof.
  induction datas as [|d datas IH]; intros base Hok Htotal i data Hnth Hi.
  - cbn [length] in Hi. lia.
  - cbn [parts_ok] in Hok. destruct Hok as (Hsize & Hreach & Hmod & Hrest).
    cbn [concat] in Htotal. rewrite size_app in Htotal.
    destruct i as [|i]; cbn [nth_error length] in Hnth, Hi.
    + injection Hnth as <-.
      destruct datas as [|d2 datas]; [cbn [length] in Hi; lia|].
      assert (Hnext : 0 < size (concat (d2 :: datas))).
      { cbn [parts_ok] in Hrest. destruct Hrest as (Hd2 & _).
        cbn [concat]. rewrite size_app.
        pose proof (size_nonneg (concat datas)). lia. }
      split; [|apply Hmod; discriminate].
      destruct Hreach as [Hr|Hr]; lia.
    + apply (IH (base + size d) Hrest ltac:(lia) i data Hnth). lia.
Qed.

End Loop.

End UploadFacts.

Module MultipartFacts.
Import MinioStream StreamFacts UploadFacts.

Lemma parts_ok_bound chunk min_part totalSize datas : forall base,
  parts_ok chunk min_part totalSize base datas ->
  forall data, In data datas -> 0 < size data < min_part + chunk.
Proof.
  induction datas as [|d datas IH]; intros base Hok data Hin;
    [now elim Hin|].
  cbn [parts_ok] in Hok. destruct Hok as (Hsize & _ & _ & Hrest).
  destruct Hin as [<- | Hin]; [exact Hsize | exact (IH _ Hrest _ Hin)].
Qed.

(** A multiple of [chunk] in [[min_part, min_part + chunk)] is [min_part]
    when [min_part] is one. *)
Lemma whole_chunks chunk min_part s :
  0 < chunk ->
  min_part <= s < min_part + chunk ->
  s mod chunk = 0 -> min_part mod chunk = 0 -> s = min_part.
Proof.
  intros Hc Hs Hs0 Hm0.
  assert (H : (s - min_part) mod chunk = 0)
    by (rewrite Zminus_mod, Hs0, Hm0; reflexivity).
  rewrite Z.mod_small in H by lia. lia.
Qed.

(** The large-file path against a server that accepts every request. *)
Lemma multipart_upload_spec server chunk min_part content totalSize :
  0 < chunk -> 0 < min_part ->
  (forall h, server h <> None) ->
  exists uploadId datas leftover parts,
    multipart_upload server chunk min_part content totalSize
    = Some (0, CreateMultipartUpload
               :: uploads uploadId 1 datas
               ++ [CompleteMultipartUpload uploadId parts]) /\
    server [CreateMultipartUpload] = Some uploadId /\
    map number parts = numbers 1 (length datas) /\
    concat datas ++ leftover = content /\
    parts_ok chunk min_part totalSize 0 datas /\
    size leftover < min_part /\
    (totalSize <= size content -> leftover = []).
Proof.
  intros Hchunk Hmin Hok. unfold multipart_upload.
  destruct (server [CreateMultipartUpload]) as [uploadId|] eqn:Ec;
    [|now apply Hok in Ec].
  destruct (upload_parts_spec server chunk min_part totalSize uploadId
              Hchunk Hmin Hok (S (length content)) (open content) [] [] 0 1
              [CreateMultipartUpload])
    as (datas & leftover & parts & Hrun & Hnum & Hcat & Hparts & Hleft
        & Hnone).
  - cbn. lia.
  - change (size []) with 0. lia.
  - left. reflexivity.
  - intros _. reflexivity.
  - change (size []) with 0 in Hrun, Hnone. cbn [Z.add] in Hrun, Hnone.
    rewrite Hrun. cbn [app] in *.
    destruct (server (CreateMultipartUpload
                      :: uploads uploadId 1 datas
                      ++ [CompleteMultipartUpload uploadId parts]))
      eqn:Ef; [|now apply Hok in Ef].
    exists uploadId, datas, leftover, parts.
    repeat split; try assumption.
Qed.

Section AnyServer.

Variable server : Server.
Variables chunk min_part totalSize : Z.
Variable uploadId : String.string.
Hypothesis chunk_pos : 0 < chunk.

Lemma answered_snoc h r :
  answered server h -> (h <> [] -> server h <> None) ->
  answered server (h ++ [r]).
Proof.
  intros Hans Hlast h1 h2 Heq Hh1 Hh2.
  destruct (exists_last Hh2) as (h2' & x & ->).
  rewrite app_assoc in Heq. apply app_inj_tail in Heq as [Heq _].
  destruct h2' as [|y h2'].
  - rewrite app_nil_r in Heq. subst h1. exact (Hlast Hh1).
  - apply (Hans h1 (y :: h2') Heq Hh1). discriminate.
Qed.

(** The read-and-upload loop against any server: it returns, it has sent
    only [UploadPart] requests, and it has stopped at the first one that
    failed. *)
Lemma upload_parts_any fuel : forall file parts partBuffer totalRead pn h,
  (length (remaining file) < fuel)%nat ->
  h <> [] -> answered server h -> server h <> None ->
  exists res reqs,
    upload_parts server chunk min_part totalSize uploadId fuel file parts
      partBuffer totalRead pn h = Some (res, h ++ reqs) /\
    forallb is_upload reqs = true /\
    answered server (h ++ reqs) /\
    match res with
    | Some _ => server (h ++ reqs) <> None
    | None => server (h ++ reqs) = None
    end.
Proof.
  induction fuel as [|fuel IH];
    intros file parts buf totalRead pn h Hfuel Hne Hans Hlast; [lia|].
  cbn [upload_parts].
  destruct (read chunk file) as [[got ok] file'] eqn:Er.
  destruct (read_spec chunk file got ok file' chunk_pos Er)
    as (_ & _ & _ & _ & _ & _ & Hless).
  destruct (ok || (0 <? size got)) eqn:Ec.
  - specialize (Hless eq_refl).
    destruct ((min_part <=? size (buf ++ got))
              || (totalSize <=? totalRead + size got)).
    + set (r := UploadPart uploadId pn (buf ++ got)).
      assert (Hans' : answered server (h ++ [r]))
        by (apply answered_snoc; auto).
      destruct (server (h ++ [r])) as [tag|] eqn:Es.
      * destruct (IH file' (parts ++ [mkPart pn tag]) []
                    (totalRead + size got) (pn + 1) (h ++ [r]))
          as (res & reqs & Hrun & Hup & Hans2 & Hres).
        { lia. }
        { destruct h; discriminate. }
        { exact Hans'. }
        { rewrite Es. discriminate. }
        exists res, (r :: reqs).
        rewrite Hrun, <- app_assoc in *. cbn [app] in *.
        repeat split; assumption.
      * exists None, [r]. repeat split; assumption.
    + destruct (IH file' parts (buf ++ got) (totalRead + size got) pn h)
        as (res & reqs & Hrun & Hup & Hans2 & Hres); try assumption; [lia|].
      exists res, reqs. repeat split; assumption.
  - exists (Some parts), []. rewrite app_nil_r.
    repeat split; assumption.
Qed.

End AnyServer.

End MultipartFacts.

(** X21. The large-file path of [main], for every positive chunk size
    and minimal part size (those of [main] are 32 KiB and 5 MiB), against a
    server that accepts every request: it terminates with exit code 0
    after [CreateMultipartUpload], one [UploadPart] per part with the
    upload id of the server and the numbers 1, 2, ... in order, and
    [CompleteMultipartUpload] with a list of parts that carry these
    numbers.  The parts, in order, are the bytes of the file up to a tail
    shorter than the minimal part size that is sent nowhere; the tail is
    empty when the announced size is at most the length of the file.  A
    file shorter than announced can lose all its bytes: a file of 3 bytes
    announced as 10 is completed with no part at all. *)
Theorem multipart_reassembles_file :
  (forall (server : MinioStream.Server) (chunk min_part : Z)
          (content : MinioStream.bytes) (totalSize : Z),
     0 < chunk -> 0 < min_part ->
     (forall h, server h <> None) ->
     exists uploadId datas leftover parts,
       MinioStream.multipart_upload server chunk min_part content totalSize
       = Some (0, MinioStream.CreateMultipartUpload
                  :: MinioStream.uploads uploadId 1 datas
                  ++ [MinioStream.CompleteMultipartUpload uploadId parts]) /\
       server [MinioStream.CreateMultipartUpload] = Some uploadId /\
       map MinioStream.number parts = MinioStream.numbers 1 (length datas) /\
       concat datas ++ leftover = content /\
       MinioStream.size leftover < min_part /\
       (totalSize <= MinioStream.size content -> leftover = [])) /\
  MinioStream.multipart_upload (fun _ => Some String.EmptyString) 2 4
    [Byte.x01; Byte.x02; Byte.x03] 10
  = Some (0, [MinioStream.CreateMultipartUpload;
              MinioStream.CompleteMultipartUpload String.EmptyString []]).
Proof.
  split; [|reflexivity].
  intros server chunk min_part content totalSize Hchunk Hmin Hok.
  destruct (MultipartFacts.multipart_upload_spec server chunk min_part
              content totalSize Hchunk Hmin Hok)
    as (uploadId & datas & leftover & parts & Hrun & Hid & Hnum & Hcat & _
        & Hleft & Hnone).
  exists uploadId, datas, leftover, parts. auto 10.
Qed.

Lemma multipart_reassembles_file_witness :
  exists uploadId datas leftover parts,
    MinioStream.multipart_upload (fun _ => Some String.EmptyString) 2 4
      [Byte.x01; Byte.x02; Byte.x03; Byte.x04; Byte.x05; Byte.x06;
       Byte.x07] 7
    = Some (0, MinioStream.CreateMultipartUpload
               :: MinioStream.uploads uploadId 1 datas
               ++ [MinioStream.CompleteMultipartUpload uploadId parts]) /\
    (fun _ : list MinioStream.Request => Some String.EmptyString)
      [MinioStream.CreateMultipartUpload] = Some uploadId /\
    map MinioStream.number parts = MinioStream.numbers 1 (length datas) /\
    concat datas ++ leftover
    = [Byte.x01; Byte.x02; Byte.x03; Byte.x04; Byte.x05; Byte.x06;
       Byte.x07] /\
    MinioStream.size leftover < 4 /\
    (7 <= 7 -> leftover = []).
Proof.
  apply (proj1 multipart_reassembles_file
           (fun _ => Some String.EmptyString) 2 4
           [Byte.x01; Byte.x02; Byte.x03; Byte.x04; Byte.x05; Byte.x06;
            Byte.x07] 7).
  - lia.
  - lia.
  - intros h. discriminate.
Defined.

(** X22. In the same setting, with the announced size equal to the
    length of the file: the parts are the whole file; every part is not
    empty and shorter than the minimal part size plus one chunk (the bound
    of the buffer); every part but the last reaches the minimal part size
    and is a whole number of chunks, hence is exactly the minimal part
    size when that is a multiple of the chunk size, as 5 MiB is of
    32 KiB. *)
Theorem multipart_part_sizes
        (server : MinioStream.Server) (chunk min_part : Z)
        (content : MinioStream.bytes) :
  0 < chunk -> 0 < min_part ->
  (forall h, server h <> None) ->
  exists uploadId datas parts,
    MinioStream.multipart_upload server chunk min_part content
      (MinioStream.size content)
    = Some (0, MinioStream.CreateMultipartUpload
               :: MinioStream.uploads uploadId 1 datas
               ++ [MinioStream.CompleteMultipartUpload uploadId parts]) /\
    concat datas = content /\
    (forall data, In data datas ->
       0 < MinioStream.size data < min_part + chunk) /\
    (forall i data,
       nth_error datas i = Some data -> (S i < length datas)%nat ->
       min_part <= MinioStream.size data /\
       MinioStream.size data mod chunk = 0 /\
       (min_part mod chunk = 0 -> MinioStream.size data = min_part)) /\
    MinioStream.MIN_PART_SIZE mod MinioStream.CHUNK_SIZE = 0.
Proof.
  intros Hchunk Hmin Hok.
  destruct (MultipartFacts.multipart_upload_spec server chunk min_part
              content (MinioStream.size content) Hchunk Hmin Hok)
    as (uploadId & datas & leftover & parts & Hrun & _ & _ & Hcat & Hparts
        & _ & Hnone).
  rewrite (Hnone (Z.le_refl _)), app_nil_r in Hcat.
  exists uploadId, datas, parts.
  split; [exact Hrun|]. split; [exact Hcat|].
  split; [exact (MultipartFacts.parts_ok_bound _ _ _ _ _ Hparts)|].
  split; [|reflexivity].
  intros i data Hnth Hi.
  destruct (UploadFacts.parts_ok_full chunk min_part
              (MinioStream.size content) datas 0 Hparts
              ltac:(rewrite Hcat; lia) i data Hnth Hi) as [Hsz Hmod].
  split; [lia|]. split; [exact Hmod|].
  intros Hdiv.
  exact (MultipartFacts.whole_chunks chunk min_part _ Hchunk Hsz Hmod Hdiv).
Qed.

Lemma multipart_part_sizes_witness :
  exists uploadId datas parts,
    MinioStream.multipart_upload (fun _ => Some String.EmptyString) 2 4
      [Byte.x01; Byte.x02; Byte.x03; Byte.x04; Byte.x05; Byte.x06;
       Byte.x07; Byte.x08; Byte.x09]
      (MinioStream.size
         [Byte.x01; Byte.x02; Byte.x03; Byte.x04; Byte.x05; Byte.x06;
          Byte.x07; Byte.x08; Byte.x09])
    = Some (0, MinioStream.CreateMultipartUpload
               :: MinioStream.uploads uploadId 1 datas
               ++ [MinioStream.CompleteMultipartUpload uploadId parts]) /\
    concat datas
    = [Byte.x01; Byte.x02; Byte.x03; Byte.x04; Byte.x05; Byte.x06;
       Byte.x07; Byte.x08; Byte.x09] /\
    (forall data, In data datas -> 0 < MinioStream.size data < 4 + 2) /\
    (forall i data,
       nth_error datas i = Some data -> (S i < length datas)%nat ->
       4 <= MinioStream.size data /\
       MinioStream.size data mod 2 = 0 /\
       (4 mod 2 = 0 -> MinioStream.size data = 4)) /\
    MinioStream.MIN_PART_SIZE mod MinioStream.CHUNK_SIZE = 0.
Proof.
  apply (multipart_part_sizes (fun _ => Some String.EmptyString) 2 4
           [Byte.x01; Byte.x02; Byte.x03; Byte.x04; Byte.x05; Byte.x06;
            Byte.x07; Byte.x08; Byte.x09]).
  - lia.
  - lia.
  - intros h. discriminate.
Defined.

(** X23. The large-file path of [main] against any server terminates,
    for every positive chunk size.  In every run, failed or not, the
    requests are [CreateMultipartUpload], then [UploadPart] requests only,
    then nothing more or one [CompleteMultipartUpload]; every request but
    the last was accepted; the exit code is 1 exactly when the last
    request failed, and it is 0 only after an accepted
    [CompleteMultipartUpload]: the client stops at the first error and
    completes nothing after a failed part. *)
Theorem multipart_stops_at_first_failure
        (server : MinioStream.Server) (chunk min_part : Z)
        (content : MinioStream.bytes) (totalSize : Z) :
  0 < chunk ->
  exists code reqs tail,
    MinioStream.multipart_upload server chunk min_part content totalSize
    = Some (code, MinioStream.CreateMultipartUpload :: reqs ++ tail) /\
    forallb MinioStream.is_upload reqs = true /\
    MinioStream.answered server
      (MinioStream.CreateMultipartUpload :: reqs ++ tail) /\
    (tail = [] \/
     exists uploadId parts,
       tail = [MinioStream.CompleteMultipartUpload uploadId parts]) /\
    ((code = 0 /\
      server (MinioStream.CreateMultipartUpload :: reqs ++ tail) <> None /\
      exists uploadId parts,
        tail = [MinioStream.CompleteMultipartUpload uploadId parts]) \/
     (code = 1 /\
      server (MinioStream.CreateMultipartUpload :: reqs ++ tail) = None)).
Proof.
  intros Hchunk. unfold MinioStream.multipart_upload.
  assert (Hans0 : MinioStream.answered server
                    [MinioStream.CreateMultipartUpload]).
  { intros h1 h2 Heq Hh1 Hh2.
    destruct h1 as [|x h1]; [now elim Hh1|].
    destruct h1; destruct h2; try discriminate; now elim Hh2. }
  destruct (server [MinioStream.CreateMultipartUpload]) as [uploadId|] eqn:Ec.
  - destruct (MultipartFacts.upload_parts_any server chunk min_part
                totalSize uploadId Hchunk (S (length content))
                (MinioStream.open content) [] [] 0 1
                [MinioStream.CreateMultipartUpload])
      as (res & reqs & Hrun & Hup & Hans & Hres).
    + cbn. lia.
    + discriminate.
    + exact Hans0.
    + rewrite Ec. discriminate.
    + rewrite Hrun. cbn [app] in *.
      destruct res as [parts|].
      * set (r := MinioStream.CompleteMultipartUpload uploadId parts).
        assert (Hans' : MinioStream.answered server
                          ((MinioStream.CreateMultipartUpload :: reqs)
                           ++ [r]))
          by (apply MultipartFacts.answered_snoc; auto).
        cbn [app] in Hans'.
        destruct (server (MinioStream.CreateMultipartUpload :: reqs ++ [r]))
          eqn:Ef.
        { exists 0, reqs, [r]. split; [reflexivity|].
          split; [exact Hup|]. split; [exact Hans'|].
          split; [right; exists uploadId, parts; reflexivity|].
          left. split; [reflexivity|].
          split; [rewrite Ef; discriminate|].
          exists uploadId, parts. reflexivity. }
        { exists 1, reqs, [r]. split; [reflexivity|].
          split; [exact Hup|]. split; [exact Hans'|].
          split; [right; exists uploadId, parts; reflexivity|].
          right. split; [reflexivity | exact Ef]. }
      * exists 1, reqs, []. rewrite app_nil_r.
        split; [reflexivity|]. split; [exact Hup|]. split; [exact Hans|].
        split; [left; reflexivity|].
        right. split; [reflexivity | exact Hres].
  - exists 1, [], []. split; [reflexivity|]. split; [reflexivity|].
    split; [exact Hans0|]. split; [left; reflexivity|].
    right. split; [reflexivity | exact Ec].
Qed.

Lemma multipart_stops_at_first_failure_witness :
  exists code reqs tail,
    MinioStream.multipart_upload
      (fun h => if (length h =? 3)%nat then None
                else Some String.EmptyString) 2 4
      [Byte.x01; Byte.x02; Byte.x03; Byte.x04; Byte.x05; Byte.x06;
       Byte.x07; Byte.x08; Byte.x09] 9
    = Some (code, MinioStream.CreateMultipartUpload :: reqs ++ tail) /\
    forallb MinioStream.is_upload reqs = true /\
    (tail = [] \/
     exists uploadId parts,
       tail = [MinioStream.CompleteMultipartUpload uploadId parts]).
Proof.
  destruct (multipart_stops_at_first_failure
              (fun h => if (length h =? 3)%nat then None
                        else Some String.EmptyString) 2 4
              [Byte.x01; Byte.x02; Byte.x03; Byte.x04; Byte.x05; Byte.x06;
               Byte.x07; Byte.x08; Byte.x09] 9 ltac:(lia))
    as (code & reqs & tail & Hrun & Hup & _ & Hshape & _).
  exists code, reqs, tail.
  split; [exact Hrun|]. split; [exact Hup | exact Hshape].
Defined.
